(** * SCIM gateway: document-store plugin with entitlements

    A shallow embedding of [plugin-loki-entitlements.ts] (the query executor
    and resource mutator over three document collections per tenant) and of
    the paging code of the [EntitlementsPlugin] class.

    Conventions of the embedding:
    - JavaScript values are the inductive [jsval]; numbers are the integral
      ones (a [Z]), strings are [string]s of 8-bit characters;
    - an object is an association list in insertion order;
    - a thrown [Error] is the [Throw] case of [result];
    - the configuration object [config.entity] is a finite map from the
      tenant key ([baseEntity]) to its three collections;
    - the clock ([new Date().toISOString()]) and the identifier service
      ([getUuid()]) are explicit inputs of the operations that read them;
    - a document collection is the one of the document store the plugin
      imports: its documents in insertion order, the identifiers the
      store gives them, its index of the unique fields, kept apart from
      the documents, and the sorted indices it declares; the store's
      insert, update, remove and find are embedded with what they write
      into documents and into the index, and the clock of the store is an
      explicit input as well;
    - the regular-expression engine, the scan operators of the store other
      than [$eq], [$ne] and [$regex], and its search through a sorted index
      are parameters. *)

From Stdlib Require Import ZArith Lia Bool Ascii String DecimalString DecimalZ DecimalN DecimalPos.
From stdpp Require Import gmap strings list fin_maps.

Local Open Scope Z_scope.
Set Warnings "-register-all".

(** ** Values *)

Inductive jsval : Type :=
| VUndefined
| VNull
| VBool (b : bool)
| VNum (n : Z)
| VStr (s : string)
| VRegExp (source flags : string)
| VArr (items : list jsval)
| VObj (props : list (string * jsval)).

(** A stored document, a request payload: the property list of an object. *)
Definition doc : Type := list (string * jsval).

(** [ToBoolean]: the test behind [if (x)], [!x] and [x || y]. *)
Definition truthy (v : jsval) : bool :=
  match v with
  | VUndefined | VNull => false
  | VBool b => b
  | VNum n => negb (n =? 0)
  | VStr s => negb (String.eqb s "")
  | VRegExp _ _ | VArr _ | VObj _ => true
  end.

(** [a || b] *)
Definition js_or (a b : jsval) : jsval := if truthy a then a else b.

(** [a === b]; two objects, arrays or patterns met here never are the
    same reference (one comes from the request, the other from the store). *)
Definition strict_eq (a b : jsval) : bool :=
  match a, b with
  | VUndefined, VUndefined => true
  | VNull, VNull => true
  | VBool x, VBool y => Bool.eqb x y
  | VNum x, VNum y => x =? y
  | VStr x, VStr y => String.eqb x y
  | _, _ => false
  end.

(** Decimal form of an integral number, as [String(n)] gives it. *)
Definition string_of_Z (n : Z) : string :=
  DecimalString.NilZero.string_of_int (Z.to_int n).

Definition join_with (sep : string) (parts : list string) : string :=
  match parts with
  | [] => ""
  | p :: ps => fold_left (fun acc q => acc +:+ sep +:+ q) ps p
  end.

(** [String(v)], also what a template literal [`${v}`] inserts. *)
Fixpoint toString (v : jsval) : string :=
  match v with
  | VUndefined => "undefined"
  | VNull => "null"
  | VBool true => "true"
  | VBool false => "false"
  | VNum n => string_of_Z n
  | VStr s => s
  | VRegExp src fl => "/" +:+ src +:+ "/" +:+ fl
  | VArr items =>
      join_with ","
        (map (fun e => match e with
                       | VUndefined | VNull => ""
                       | _ => toString e
                       end) items)
  | VObj _ => "[object Object]"
  end.

(** ** Objects as property lists *)

Fixpoint obj_get (o : doc) (k : string) : jsval :=
  match o with
  | [] => VUndefined
  | (k', v) :: o' => if String.eqb k' k then v else obj_get o' k
  end.

(** [o[k] = v]: an existing property keeps its place, a new one goes last. *)
Fixpoint obj_set (o : doc) (k : string) (v : jsval) : doc :=
  match o with
  | [] => [(k, v)]
  | (k', v') :: o' =>
      if String.eqb k' k then (k, v) :: o' else (k', v') :: obj_set o' k v
  end.

(** [delete o[k]] *)
Definition obj_delete (o : doc) (k : string) : doc :=
  List.filter (fun kv => negb (String.eqb (fst kv) k)) o.

(** [Object.keys(o)] *)
Definition obj_keys (o : doc) : list string := map fst o.

(** ** Errors *)

Record Error : Type := mkError { name : string; message : string }.

Inductive result (A : Type) : Type :=
| Ok (a : A)
| Throw (e : Error).
Arguments Ok {A} a.
Arguments Throw {A} e.

Definition bind {A B : Type} (r : result A) (k : A -> result B) : result B :=
  match r with
  | Ok a => k a
  | Throw e => Throw e
  end.

Notation "x <- r ;; k" := (bind r (fun x => k))
  (at level 100, r at next level, right associativity).

(** [new Error(msg)] with the default name. *)
Definition plainError (msg : string) : Error := mkError "Error" msg.

(** The engine's [TypeError] for a property read on [null]/[undefined] or a
    call of something that is no function. *)
Definition typeError (msg : string) : Error := mkError "TypeError" msg.

(** A step of JavaScript that the value model cannot express (named
    properties on an array or a pattern). *)
Definition outsideModel (msg : string) : Error := mkError "outside-model" msg.

(** [v.k] for the property names the plugin reads. *)
Definition getProp (v : jsval) (k : string) : result jsval :=
  match v with
  | VUndefined | VNull => Throw (typeError ("Cannot read properties of " +:+ toString v))
  | VObj o => Ok (obj_get o k)
  | _ => Ok VUndefined
  end.

(** ** Strings and numbers *)

(** The one-character string holding a double quote. *)
Definition dq : string := String (ascii_of_nat 34) EmptyString.

Fixpoint starts_with (pat s : string) : bool :=
  match pat, s with
  | EmptyString, _ => true
  | String p pat', String c s' => Ascii.eqb p c && starts_with pat' s'
  | String _ _, EmptyString => false
  end.

Fixpoint drop_chars (n : nat) (s : string) : string :=
  match n, s with
  | O, _ => s
  | S n', String _ s' => drop_chars n' s'
  | S _, EmptyString => EmptyString
  end.

(** [s.replace(pat, rep)] with a string pattern: the first occurrence only. *)
Fixpoint replace_first (pat rep s : string) : string :=
  if starts_with pat s then rep +:+ drop_chars (String.length pat) s
  else match s with
       | EmptyString => EmptyString
       | String c s' => String c (replace_first pat rep s')
       end.

(** White space that [parseInt] skips, among the 8-bit characters. *)
Definition is_space (c : ascii) : bool :=
  let n := nat_of_ascii c in
  (Nat.eqb n 32 || (Nat.leb 9 n && Nat.leb n 13))%bool.

Fixpoint trim_start (s : string) : string :=
  match s with
  | String c s' => if is_space c then trim_start s' else s
  | EmptyString => EmptyString
  end.

Definition dec_digit (c : ascii) : option (Decimal.uint -> Decimal.uint) :=
  match c with
  | "0"%char => Some Decimal.D0 | "1"%char => Some Decimal.D1
  | "2"%char => Some Decimal.D2 | "3"%char => Some Decimal.D3
  | "4"%char => Some Decimal.D4 | "5"%char => Some Decimal.D5
  | "6"%char => Some Decimal.D6 | "7"%char => Some Decimal.D7
  | "8"%char => Some Decimal.D8 | "9"%char => Some Decimal.D9
  | _ => None
  end.

(** The longest prefix of [s] made of decimal digits. *)
Fixpoint dec_prefix (s : string) : Decimal.uint :=
  match s with
  | String c s' =>
      match dec_digit c with
      | Some d => d (dec_prefix s')
      | None => Decimal.Nil
      end
  | EmptyString => Decimal.Nil
  end.

Definition hex_digit (c : ascii) : option Z :=
  let n := Z.of_nat (nat_of_ascii c) in
  if (48 <=? n) && (n <=? 57) then Some (n - 48)
  else if (97 <=? n) && (n <=? 102) then Some (n - 87)
  else if (65 <=? n) && (n <=? 70) then Some (n - 55)
  else None.

(** Value of the longest prefix of hexadecimal digits, [acc] being the
    value of the digits already read ([None]: no digit yet). *)
Fixpoint hex_prefix (acc : option Z) (s : string) : option Z :=
  match s with
  | String c s' =>
      match hex_digit c with
      | Some d => hex_prefix (Some (16 * default 0 acc + d)) s'
      | None => acc
      end
  | EmptyString => acc
  end.

(** [parseInt(s)] without a radix; [None] is [NaN]. *)
Definition parseInt (s : string) : option Z :=
  let s1 := trim_start s in
  let '(negative, s2) :=
    match s1 with
    | String "-"%char r => (true, r)
    | String "+"%char r => (false, r)
    | _ => (false, s1)
    end in
  let magnitude :=
    if starts_with "0x" s2 || starts_with "0X" s2
    then hex_prefix None (drop_chars 2 s2)
    else match dec_prefix s2 with
         | Decimal.Nil => None
         | u => Some (Z.of_uint u)
         end in
  (fun m => if negative then - m else m) <$> magnitude.

(** A weak version tag around the text [n]. *)
Definition weakTag (n : string) : string := "W/" +:+ dq +:+ n +:+ dq.

(** The version expression of [modifyUser] and [modifyGroup]: the prior
    tag loses its opening and the first quote left, an empty or absent
    rest counts as the text 0, the integer read from it is incremented and
    wrapped again. A version that is neither absent nor a string has no
    [replace] to call. Numbers are followed where they count by one
    (below 2^53 in magnitude). *)
Definition nextVersion (version : jsval) : result string :=
  stripped <-
    match version with
    | VUndefined | VNull => Ok VUndefined
    | VStr s => Ok (VStr (replace_first dq "" (replace_first ("W/" +:+ dq) "" s)))
    | _ => Throw (typeError "version.replace is not a function")
    end ;;
  match parseInt (toString (js_or stripped (VStr "0"))) with
  | Some k =>
      if (- 2 ^ 53 <? k) && (k <? 2 ^ 53) then Ok (weakTag (string_of_Z (k + 1)))
      else Throw (outsideModel "number of magnitude 2^53 or more")
  | None => Ok (weakTag "NaN")
  end.

(** ** Arrays *)

(** [arr.slice(start, end)]: a negative bound counts from the end, and
    both are clamped to the array. *)
Definition js_slice {A : Type} (l : list A) (start end_ : Z) : list A :=
  let len := Z.of_nat (length l) in
  let clamp (k : Z) := if k <? 0 then Z.max (len + k) 0 else Z.min k len in
  let first := clamp start in
  take (Z.to_nat (clamp end_ - first)) (drop (Z.to_nat first) l).

(** [arr.find(cb)] for a callback that can throw. *)
Fixpoint arr_find (cb : jsval -> result bool) (l : list jsval) : result (option jsval) :=
  match l with
  | [] => Ok None
  | e :: l' => b <- cb e ;; if b : bool then Ok (Some e) else arr_find cb l'
  end.

(** [arr.filter(cb)] for a callback that can throw. *)
Fixpoint arr_filter (cb : jsval -> result bool) (l : list jsval) : result (list jsval) :=
  match l with
  | [] => Ok []
  | e :: l' =>
      b <- cb e ;;
      rest <- arr_filter cb l' ;;
      Ok (if b : bool then e :: rest else rest)
  end.

(** ** The document store

    The collections are those of the document store that the plugin
    imports. Its insert, update, remove and find are embedded as far as
    the plugin depends on them: the properties the store itself writes
    into a document ([$loki] and, under [meta], [version], [created],
    [revision] and [updated]), its index of the unique fields, which it
    keeps apart from the documents, and the errors it raises. The clock of
    the store ([new Date().getTime()]) is the explicit input [stamp]. *)

(** A sorted index over one property. [indexOrder d1 d2]: the index lists
    [d1] no later than [d2]. The store sorts by its own comparison of the
    values of the property, and documents of equal value stand as its
    insertions and updates left them; the order is taken as it is. *)
Record BinaryIndex : Type := mkBinaryIndex {
  indexProperty : string;
  indexOrder : doc -> doc -> bool
}.

(** [data] and [idIndex] run in parallel: the documents, and the [$loki]
    under which the store filed each (they ascend, [maxId] being the last
    one issued). [keyMap] and [lokiMap] are the index of the unique fields:
    for a field and the text of a value, the [$loki] of the document the
    entry was written for; for a field and a [$loki], the value last
    entered. An entry that the store has reset to [undefined] is absent. *)
Record Collection : Type := mkCollection {
  data : list doc;
  idIndex : list Z;
  maxId : Z;
  uniqueNames : list string;
  keyMap : gmap (string * string) Z;
  lokiMap : gmap (string * Z) jsval;
  binaryIndices : list BinaryIndex
}.

(** [db.addCollection(name, { unique, indices })] *)
Definition addCollection (unique : list string) (indices : list BinaryIndex) : Collection :=
  mkCollection [] [] 0 unique ∅ ∅ indices.

Definition with_data (c : Collection) (docs : list doc) (ids : list Z) : Collection :=
  mkCollection docs ids (maxId c) (uniqueNames c) (keyMap c) (lokiMap c) (binaryIndices c).

Definition with_index (c : Collection) (keys : gmap (string * string) Z)
    (values : gmap (string * Z) jsval) : Collection :=
  mkCollection (data c) (idIndex c) (maxId c) (uniqueNames c) keys values (binaryIndices c).

(** A unique index takes no entry for [null] and [undefined]. *)
Definition keyed (v : jsval) : bool :=
  match v with
  | VUndefined | VNull => false
  | _ => true
  end.

(** A value that is no object, array or pattern. *)
Definition is_primitive (v : jsval) : bool :=
  match v with
  | VRegExp _ _ | VArr _ | VObj _ => false
  | _ => true
  end.

Definition duplicateError (d : doc) (field : string) : Error :=
  plainError ("Duplicate key for property " +:+ field +:+ ": " +:+ toString (obj_get d field)).

(** [index.set(obj)] of the unique index of [field], [loki] being
    [obj.$loki]. *)
Definition unique_set (c : Collection) (field : string) (loki : Z) (obj : doc)
  : result Collection :=
  let v := obj_get obj field in
  if keyed v then
    match keyMap c !! (field, toString v) with
    | Some _ => Throw (duplicateError obj field)
    | None => Ok (with_index c (<[(field, toString v) := loki]> (keyMap c))
                    (<[(field, loki) := v]> (lokiMap c)))
    end
  else Ok c.

(** [index.update(obj, obj)] for a document rewritten in place: the value
    last entered for it is compared with the one it holds now. *)
Definition unique_update (c : Collection) (field : string) (loki : Z) (obj : doc)
  : result Collection :=
  let current := obj_get obj field in
  let entered := default VUndefined (lokiMap c !! (field, loki)) in
  if negb (is_primitive current && is_primitive entered) then
    Throw (outsideModel "unique field that holds an object")
  else if negb (strict_eq entered current) then
    c1 <- unique_set c field loki obj ;;
    Ok (with_index c1 (delete (field, toString entered) (keyMap c1)) (lokiMap c1))
  else Ok (with_index c (<[(field, toString current) := loki]> (keyMap c)) (lokiMap c)).

(** [index.remove(doc[field])] when the document holds a value there. *)
Definition unique_remove (c : Collection) (field : string) (obj : doc) : result Collection :=
  let v := obj_get obj field in
  if keyed v then
    match keyMap c !! (field, toString v) with
    | Some loki => Ok (with_index c (delete (field, toString v) (keyMap c))
                         (delete (field, loki) (lokiMap c)))
    | None => Throw (plainError ("Key is not in unique index: " +:+ field))
    end
  else Ok c.

(** A loop of the store over the unique fields: the outcome, and the
    collection as the loop left it (a throw keeps what the fields before
    the failing one have written). *)
Fixpoint unique_each (step : Collection -> string -> result Collection)
    (c : Collection) (fields : list string) : result unit * Collection :=
  match fields with
  | [] => (Ok tt, c)
  | field :: rest =>
      match step c field with
      | Ok c' => unique_each step c' rest
      | Throw e => (Throw e, c)
      end
  end.

(** [d.meta.k = v] for a document whose [meta] is an object. *)
Definition set_meta (d : doc) (k : string) (v : jsval) : doc :=
  match obj_get d "meta" with
  | VObj m => obj_set d "meta" (VObj (obj_set m k v))
  | _ => d
  end.

(** What insert makes of a document before it enters the index: a
    document without [meta] gets one, the document is filed under the
    next [$loki], and [meta.version] is set to 0. *)
Definition identified (d : doc) (newId : Z) : doc :=
  let d1 := match obj_get d "meta" with
            | VUndefined => obj_set d "meta" (VObj [("revision", VNum 0); ("created", VNum 0)])
            | _ => d
            end in
  set_meta (obj_set d1 "$loki" (VNum newId)) "version" (VNum 0).

(** The document as insert stores and returns it: [meta.created] is the
    clock of the store, [meta.revision] is 0. *)
Definition inserted (d : doc) (newId stamp : Z) : doc :=
  set_meta (set_meta (identified d newId) "created" (VNum stamp)) "revision" (VNum 0).

(** [collection.insert(d)]: the outcome (the stored document, which is
    the object given, rewritten), and the collection. A refused document
    has used up its [$loki] and keeps the index entries written before the
    refusal. *)
Definition coll_insert (c : Collection) (stamp : Z) (d : doc) : result doc * Collection :=
  match obj_get d "meta" with
  | VUndefined | VObj _ =>
      if negb (strict_eq (obj_get d "$loki") VUndefined) then
        (Throw (plainError "Document is already in collection, please use update()"), c)
      else
        let newId := maxId c + 1 in
        let c1 := mkCollection (data c) (idIndex c) newId (uniqueNames c)
                    (keyMap c) (lokiMap c) (binaryIndices c) in
        match unique_each (fun c' field => unique_set c' field newId (identified d newId))
                c1 (uniqueNames c) with
        | (Throw e, c2) => (Throw e, c2)
        | (Ok _, c2) =>
            (Ok (inserted d newId stamp),
             with_data c2 (data c ++ [inserted d newId stamp]) (idIndex c ++ [newId]))
        end
  | _ => (Throw (outsideModel "meta that is neither absent nor an object"), c)
  end.

(** [updateMeta]: [meta.updated] is the clock of the store and
    [meta.revision] goes up by one. *)
Definition updateMeta (d : doc) (stamp : Z) : result doc :=
  match obj_get d "meta" with
  | VObj m =>
      match obj_get m "revision" with
      | VNum r => Ok (set_meta (set_meta d "updated" (VNum stamp)) "revision" (VNum (r + 1)))
      | _ => Throw (outsideModel "revision that is no number")
      end
  | VUndefined | VNull => Throw (typeError "Cannot set properties of undefined")
  | _ => Throw (outsideModel "meta that is no object")
  end.

(** [collection.update(d)] for the document at position [i], which the
    caller has already rewritten in place to [d]: the outcome (the
    document as the store leaves it), and the collection. The document is
    looked up under its [$loki]; a [$loki] that the payload has
    overwritten is not followed. Whatever the outcome, position [i] holds
    what the caller wrote; a throw keeps the index entries written before
    it. *)
Definition coll_update (c : Collection) (stamp : Z) (i : nat) (d : doc)
  : result doc * Collection :=
  let written := with_data c (<[i := d]> (data c)) (idIndex c) in
  if negb (existsb (String.eqb "$loki") (obj_keys d)) then
    (Throw (plainError ("Trying to update unsynced document. "
                        +:+ "Please save the document first by using insert() or addMany()")),
     written)
  else
    match obj_get d "$loki" with
    | VNum loki =>
        if negb (bool_decide (idIndex c !! i = Some loki)) then
          (Throw (outsideModel "document under another $loki than the store gave it"), written)
        else
          match unique_each (fun c' field => unique_update c' field loki d)
                  written (uniqueNames c) with
          | (Throw e, c1) => (Throw e, c1)
          | (Ok _, c1) =>
              match updateMeta d stamp with
              | Throw e => (Throw e, c1)
              | Ok d' => (Ok d', with_data c1 (<[i := d']> (data c1)) (idIndex c1))
              end
          end
    | _ => (Throw (outsideModel "document under another $loki than the store gave it"), written)
    end.

(** [collection.remove(d)] for the document [d] at position [i]: [Ok
    true] when the document is removed, [Ok false] when the store has met
    an error on its way, which it reports to its listeners and answers
    with [null]: the document stays, and so does what the unique fields
    before the failing one have taken out of the index. *)
Definition coll_remove (c : Collection) (i : nat) (d : doc) : result bool * Collection :=
  if negb (existsb (String.eqb "$loki") (obj_keys d)) then
    (Throw (plainError "Object is not a document stored in the collection"), c)
  else
    match obj_get d "$loki" with
    | VNum loki =>
        if negb (bool_decide (idIndex c !! i = Some loki)) then
          (Throw (outsideModel "document under another $loki than the store gave it"), c)
        else
          match unique_each (fun c' field => unique_remove c' field d) c (uniqueNames c) with
          | (Throw _, c1) => (Ok false, c1)
          | (Ok _, c1) =>
              (Ok true, with_data c1 (take i (data c1) ++ drop (S i) (data c1))
                          (take i (idIndex c1) ++ drop (S i) (idIndex c1)))
          end
    | _ => (Throw (outsideModel "document under another $loki than the store gave it"), c)
    end.

(** The first document satisfying [p], with its position. *)
Fixpoint find_index (p : doc -> bool) (l : list doc) : option (nat * doc) :=
  match l with
  | [] => None
  | d :: l' => if p d then Some (O, d)
               else (fun '(i, d') => (S i, d')) <$> find_index p l'
  end.

(** The documents with their positions. *)
Fixpoint rows_from (n : nat) (l : list doc) : list (nat * doc) :=
  match l with
  | [] => []
  | d :: l' => (n, d) :: rows_from (S n) l'
  end.

Fixpoint insert_by {A : Type} (leb : A -> A -> bool) (x : A) (l : list A) : list A :=
  match l with
  | [] => [x]
  | y :: l' => if leb x y then x :: l else y :: insert_by leb x l'
  end.

Definition sort_by {A : Type} (leb : A -> A -> bool) (l : list A) : list A :=
  fold_right (insert_by leb) [] l.

(** [collection.binaryIndices[property]] *)
Definition index_of (c : Collection) (property : string) : option BinaryIndex :=
  List.find (fun b => String.eqb (indexProperty b) property) (binaryIndices c).

(** The rows an equality search on [property] goes through, in the order
    it meets them: the order of the sorted index when the collection
    declares one on the property, the order of the documents otherwise. *)
Definition rows_for (c : Collection) (property : string) : list (nat * doc) :=
  match index_of c property with
  | Some b => sort_by (fun x y => indexOrder b (snd x) (snd y)) (rows_from 0 (data c))
  | None => rows_from 0 (data c)
  end.

(** [collection.findOne({ field: v })]. A value that is no object means
    equality; an object in that place would be read as an operator
    table. *)
Definition findOne (c : Collection) (field : string) (v : jsval) : result (option (nat * doc)) :=
  if is_primitive v
  then Ok (head (List.filter (fun r => strict_eq (obj_get (snd r) field) v) (rows_for c field)))
  else Throw (outsideModel "operator table as query value").

(** The three collections of a tenant, and the tenants by key. *)
Record Entity : Type := mkEntity {
  users : Collection;
  groups : Collection;
  entitlements : Collection
}.

Abbreviation Config := (gmap string Entity).

(** The filter object of a query as the protocol front end hands it over. *)
Record GetObj : Type := mkGetObj {
  attribute : string;
  operator : option string;
  value : jsval;
  rawFilter : option string;
  startIndex : option Z;
  count : option Z
}.

Record QueryResult : Type := mkQueryResult {
  Resources : list doc;
  totalResults : Z
}.

(** A string property under [if (x)]: present and not empty. *)
Definition given (o : option string) : bool :=
  match o with
  | Some s => negb (String.eqb s "")
  | None => false
  end.

(** A numeric property under [x || dflt]: absent and 0 give the default. *)
Definition num_or (o : option Z) (dflt : Z) : Z :=
  match o with
  | Some n => if n =? 0 then dflt else n
  | None => dflt
  end.

(** The filter object [g] with other paging parameters. *)
Definition with_paging (g : GetObj) (startIndex count : option Z) : GetObj :=
  mkGetObj (attribute g) (operator g) (value g) (rawFilter g) startIndex count.

(** The page of the specification: [count] records of [arr] from the
    zero-based position [max 0 (startIndex - 1)] on, the parameters being
    defaulted as the code defaults them. *)
Definition window_of (g : GetObj) (arr : list doc) : list doc :=
  take (Z.to_nat (num_or (count g) 100))
       (drop (Z.to_nat (Z.max 0 (num_or (startIndex g) 1 - 1))) arr).

(** The paging tail shared by the three query operations. *)
Definition paginate (getObj : GetObj) (arr : list doc) : QueryResult :=
  let totalResults := Z.of_nat (length arr) in
  let startIndex := num_or (startIndex getObj) 1 in
  let count := num_or (count getObj) 100 in
  let start := Z.max 0 (startIndex - 1) in
  let end_ := start + count in
  mkQueryResult (js_slice arr start end_) totalResults.

(** ** The plugin *)

Definition validFilterOperators : list string :=
  ["eq"; "ne"; "aeq"; "dteq"; "gt"; "gte"; "lt"; "lte"; "between"; "jgt";
   "jgte"; "jlt"; "jlte"; "jbetween"; "regex"; "in"; "nin"; "keyin";
   "nkeyin"; "definedin"; "undefinedin"; "contains"; "containsAny"; "type";
   "finite"; "size"; "len"; "exists"].

Definition includes (l : list string) (s : string) : bool :=
  existsb (String.eqb s) l.

Fixpoint has_dot (s : string) : bool :=
  match s with
  | EmptyString => false
  | String c s' => Ascii.eqb c "."%char || has_dot s'
  end.

Definition namedError (nm msg : string) : Error := mkError nm msg.

Definition unsupportedBaseEntity (baseEntity : string) : Error :=
  plainError ("unsupported baseEntity=" +:+ baseEntity).

Section Plugin.

(** [new RegExp(source, flags)]: the error the engine throws when it
    refuses the pattern, else the [test] of the pattern on a subject
    string. *)
Variable regExp : string -> string -> result (string -> bool).

(** [otherOps op a b]: the scan operator [op] of the store, other than
    the three written out in [lokiOp], on a stored value [a] and the
    operand [b]. *)
Variable otherOps : string -> jsval -> jsval -> bool.

(** [dotted test path d]: whether [test] holds of what the dotted
    property [path] reaches in the document [d]. *)
Variable dotted : (jsval -> bool) -> string -> doc -> bool.

(** [indexSearch property op operand docs]: the positions, in the order
    the store returns them, that its search through the sorted index of
    [property] yields for an operator other than [$eq] and its operand
    over the documents [docs]. *)
Variable indexSearch : string -> string -> jsval -> list doc -> list nat.

(** The test an operator of the store makes on a stored value. *)
Definition lokiOp (op : string) (operand : jsval) : result (jsval -> bool) :=
  if String.eqb op "$eq" then Ok (fun a => strict_eq a operand)
  else if String.eqb op "$ne" then Ok (fun a => negb (strict_eq a operand))
  else if String.eqb op "$regex" then
    match operand with
    | VArr [VStr source; VStr flags] | VRegExp source flags =>
        test <- regExp source flags ;;
        Ok (fun a => test (toString a))
    | _ => Ok (fun a => otherOps op a operand)
    end
  else Ok (fun a => otherOps op a operand).

(** The operators a sorted index serves. *)
Definition indexedOps : list string :=
  ["$eq"; "$aeq"; "$dteq"; "$gt"; "$gte"; "$lt"; "$lte"; "$in"; "$between"].

(** [collection.find({ [property]: { [op]: operand } })]. An empty
    collection has no match, whatever is asked. When the collection
    declares a sorted index on the property and the operator is one the
    index serves, the search goes through the index: for [$eq] the
    documents equal to the operand, in index order; for another operator
    what the search through the index yields. Else the documents are
    scanned in their order. *)
Definition coll_find (c : Collection) (property op : string) (operand : jsval)
  : result (list doc) :=
  match data c with
  | [] => Ok []
  | _ :: _ =>
      match index_of c property with
      | Some _ =>
          if negb (includes indexedOps op) then
            test <- lokiOp op operand ;;
            Ok (List.filter (fun d => if has_dot property then dotted test property d
                                      else test (obj_get d property)) (data c))
          else if has_dot property then
            Throw (outsideModel "sorted index over a dotted property")
          else if String.eqb op "$eq" then
            Ok (map snd (List.filter (fun r => strict_eq (obj_get (snd r) property) operand)
                           (rows_for c property)))
          else Ok (omap (fun p => data c !! p) (indexSearch property op operand (data c)))
      | None =>
          test <- lokiOp op operand ;;
          Ok (List.filter (fun d => if has_dot property then dotted test property d
                                    else test (obj_get d property)) (data c))
      end
  end.

(** [collection.find({ [property]: v })] *)
Definition coll_find_value (c : Collection) (property : string) (v : jsval)
  : result (list doc) :=
  match data c with
  | [] => Ok []
  | _ :: _ =>
      if is_primitive v then coll_find c property "$eq" v
      else Throw (outsideModel "operator table as query value")
  end.

(** The operator switch at the head of the three query operations. It
    assigns into the filter object it was given: the object after the
    switch is returned next to the outcome. *)
Definition convertOperator (action : string) (getObj : GetObj) : result unit * GetObj :=
  match operator getObj with
  | None => (Ok tt, getObj)
  | Some op =>
      if String.eqb op "" then (Ok tt, getObj)
      else
        let set_op (o : string) (g : GetObj) :=
          mkGetObj (attribute g) (Some o) (value g) (rawFilter g) (startIndex g) (count g) in
        let set_value (v : jsval) (g : GetObj) :=
          mkGetObj (attribute g) (operator g) v (rawFilter g) (startIndex g) (count g) in
        let pattern (source : string) (g : GetObj) :=
          match regExp source "" with
          | Ok _ => (Ok tt, set_value (VRegExp source "") g)
          | Throw e => (Throw e, g)
          end in
        if String.eqb op "co" then (Ok tt, set_op "$contains" getObj)
        else if String.eqb op "ge" then (Ok tt, set_op "$gte" getObj)
        else if String.eqb op "le" then (Ok tt, set_op "$lte" getObj)
        else if String.eqb op "sw" then
          pattern ("^" +:+ toString (value getObj) +:+ ".*") (set_op "$regex" getObj)
        else if String.eqb op "ew" then
          pattern (".*" +:+ toString (value getObj) +:+ "$") (set_op "$regex" getObj)
        else if negb (includes validFilterOperators op) then
          (Throw (namedError "invalidFilter"
                    (action +:+ " error: filter operator '" +:+ op
                     +:+ "' is not valid, valid operators for this endpoint are: "
                     +:+ join_with "," validFilterOperators +:+ ",co,ge,le,sw,ew")),
           getObj)
        else (Ok tt, set_op ("$" +:+ op) getObj)
  end.

(** The unique-lookup query: the identifier is compared as it is, any
    other attribute through an anchored pattern with the flag i. *)
Definition uniqueLookup (c : Collection) (getObj : GetObj) : result (list doc) :=
  if String.eqb (attribute getObj) "id"
  then coll_find_value c (attribute getObj) (value getObj)
  else coll_find c (attribute getObj) "$regex"
         (VArr [VStr ("^" +:+ toString (value getObj) +:+ "$"); VStr "i"]).

Definition advancedFilterError (action raw : string) : Error :=
  plainError (action +:+ " error: not supporting advanced filtering: " +:+ raw).

(** The mandatory if-else logic of a query operation over collection [c]:
    [identifying] are the attributes of the unique lookup, [reference]
    (if any) the attribute whose equality filter is a plain scan. *)
Definition selectDocs (action : string) (identifying : list string)
    (reference : option string) (c : Collection) (getObj : GetObj)
  : result (list doc) :=
  if given (operator getObj) then
    let op := default "" (operator getObj) in
    if String.eqb op "$eq" && includes identifying (attribute getObj)
    then uniqueLookup c getObj
    else if String.eqb op "$eq"
            && match reference with
               | Some r => String.eqb (attribute getObj) r
               | None => false
               end
    then coll_find_value c (attribute getObj) (value getObj)
    else coll_find c (attribute getObj) op (value getObj)
  else if given (rawFilter getObj) then
    Throw (advancedFilterError action (default "" (rawFilter getObj)))
  else Ok (data c).

(** The documents a filter object matches: the operator switch, then
    the if-else logic. *)
Definition matched (action : string) (identifying : list string)
    (reference : option string) (c : Collection) (getObj : GetObj)
  : result (list doc) :=
  let '(converted, getObj') := convertOperator action getObj in
  _ <- converted ;;
  selectDocs action identifying reference c getObj'.

(** The body shared by [getEntitlements], [getUsers] and [getGroups]. *)
Definition query (action : string) (identifying : list string)
    (reference : option string) (collection : Entity -> Collection)
    (config : Config) (baseEntity : string) (getObj : GetObj)
  : result QueryResult * GetObj :=
  match config !! baseEntity with
  | None => (Throw (unsupportedBaseEntity baseEntity), getObj)
  | Some entity =>
      let '(converted, getObj') := convertOperator action getObj in
      (_ <- converted ;;
       arr <- selectDocs action identifying reference (collection entity) getObj' ;;
       Ok (paginate getObj' arr),
       getObj')
  end.

Definition getEntitlements : Config -> string -> GetObj -> result QueryResult * GetObj :=
  query "getEntitlements" ["id"; "displayName"; "type"] None entitlements.

Definition getUsers : Config -> string -> GetObj -> result QueryResult * GetObj :=
  query "getUsers" ["id"; "userName"; "externalId"] (Some "group.value") users.

Definition getGroups : Config -> string -> GetObj -> result QueryResult * GetObj :=
  query "getGroups" ["id"; "displayName"; "externalId"] (Some "members.value") groups.

End Plugin.

(** ** Mutations *)

Definition set_users (e : Entity) (c : Collection) : Entity :=
  mkEntity c (groups e) (entitlements e).
Definition set_groups (e : Entity) (c : Collection) : Entity :=
  mkEntity (users e) c (entitlements e).
Definition set_entitlements (e : Entity) (c : Collection) : Entity :=
  mkEntity (users e) (groups e) c.

(** The document at position [i] of a collection rewritten in place. *)
Definition rewrite_at (c : Collection) (i : nat) (d : doc) : Collection :=
  with_data c (<[i := d]> (data c)) (idIndex c).

Definition freshMeta (resourceType created lastModified : string) : jsval :=
  VObj [("resourceType", VStr resourceType);
        ("created", VStr created);
        ("lastModified", VStr lastModified);
        ("version", VStr (weakTag "1"))].

(** The body shared by [createUser] and [createGroup]: [field] is the
    mandatory attribute, [noun] the word the error message uses, [uuid]
    what [getUuid()] returns, [created] and [lastModified] the two clock
    readings, in the order the object literal takes them, and [stamp] the
    clock of the store at the insert. The record returned is the object
    that was handed to the store, as the store has rewritten it. *)
Definition create (action noun field resourceType : string)
    (collection : Entity -> Collection) (set : Entity -> Collection -> Entity)
    (config : Config) (baseEntity : string) (scimdata : doc)
    (uuid created lastModified : string) (stamp : Z) : result doc * Config :=
  match config !! baseEntity with
  | None => (Throw (unsupportedBaseEntity baseEntity), config)
  | Some entity =>
      let wanted := obj_get scimdata field in
      if negb (truthy wanted) then
        (Throw (namedError "invalidValue" (action +:+ " error: " +:+ field +:+ " is required")),
         config)
      else
        match findOne (collection entity) field wanted with
        | Throw e => (Throw e, config)
        | Ok (Some _) =>
            (Throw (namedError "uniqueness"
                      (action +:+ " error: " +:+ noun +:+ " with " +:+ field +:+ " '"
                       +:+ toString wanted +:+ "' already exists")),
             config)
        | Ok None =>
            let copy := scimdata in
            let withId := obj_set copy "id" (VStr uuid) in
            let record := obj_set withId "meta" (freshMeta resourceType created lastModified) in
            let '(stored, c) := coll_insert (collection entity) stamp record in
            (stored, <[baseEntity := set entity c]> config)
        end
  end.

Definition createUser
  : Config -> string -> doc -> string -> string -> string -> Z -> result doc * Config :=
  create "createUser" "user" "userName" "User" users set_users.

Definition createGroup
  : Config -> string -> doc -> string -> string -> string -> Z -> result doc * Config :=
  create "createGroup" "group" "displayName" "Group" groups set_groups.

Definition notFound (action noun id : string) : Error :=
  namedError "notFound" (action +:+ " error: " +:+ noun +:+ " id=" +:+ id +:+ " does not exist").

(** The body shared by [deleteUser] and [deleteGroup]. What the remove of
    the store answers is not looked at. *)
Definition delete_ (action noun : string)
    (collection : Entity -> Collection) (set : Entity -> Collection -> Entity)
    (config : Config) (baseEntity id : string) : result unit * Config :=
  match config !! baseEntity with
  | None => (Throw (unsupportedBaseEntity baseEntity), config)
  | Some entity =>
      match findOne (collection entity) "id" (VStr id) with
      | Throw e => (Throw e, config)
      | Ok None => (Throw (notFound action noun id), config)
      | Ok (Some (i, d)) =>
          let '(removed, c) := coll_remove (collection entity) i d in
          (_ <- removed ;; Ok tt, <[baseEntity := set entity c]> config)
      end
  end.

Definition deleteUser : Config -> string -> string -> result unit * Config :=
  delete_ "deleteUser" "user" users set_users.

Definition deleteGroup : Config -> string -> string -> result unit * Config :=
  delete_ "deleteGroup" "group" groups set_groups.

(** One entry of a patch entitlements list applied to the stored user
    (the body of the loop in [modifyUser]). A step that throws has not
    written to the user. *)
Definition entitlementStep (user : doc) (entitlement : jsval) : result doc :=
  operation <- getProp entitlement "operation" ;;
  if strict_eq operation (VStr "add") then
    let user1 := if truthy (obj_get user "entitlements") then user
                 else obj_set user "entitlements" (VArr []) in
    match obj_get user1 "entitlements" with
    | VArr granted =>
        existing <- arr_find (fun e => ev <- getProp e "value" ;;
                                       wanted <- getProp entitlement "value" ;;
                                       Ok (strict_eq ev wanted)) granted ;;
        if truthy (default VUndefined existing) then Ok user1
        else
          v <- getProp entitlement "value" ;;
          display <- getProp entitlement "display" ;;
          type <- getProp entitlement "type" ;;
          primary <- getProp entitlement "primary" ;;
          Ok (obj_set user1 "entitlements"
                (VArr (granted ++ [VObj [("value", v);
                                         ("display", js_or display v);
                                         ("type", js_or type (VStr "License"));
                                         ("primary", js_or primary (VBool false))]])))
    | _ => Throw (typeError "user.entitlements.find is not a function")
    end
  else if strict_eq operation (VStr "remove") then
    if truthy (obj_get user "entitlements") then
      match obj_get user "entitlements" with
      | VArr granted =>
          kept <- arr_filter (fun e => ev <- getProp e "value" ;;
                                       wanted <- getProp entitlement "value" ;;
                                       Ok (negb (strict_eq ev wanted))) granted ;;
          Ok (obj_set user "entitlements" (VArr kept))
      | _ => Throw (typeError "user.entitlements.filter is not a function")
      end
    else Ok user
  else Ok user.

(** The loop over the entries: the outcome, and the user as the loop left
    it (on a throw, as the entries before the failing one left it). *)
Fixpoint entitlementLoop (user : doc) (entries : list jsval) : result unit * doc :=
  match entries with
  | [] => (Ok tt, user)
  | entry :: rest =>
      match entitlementStep user entry with
      | Ok user' => entitlementLoop user' rest
      | Throw e => (Throw e, user)
      end
  end.

(** The key loop shared by [modifyUser] and [modifyGroup]: every key of
    the payload but id and meta overwrites the stored property. *)
Definition assignKeys (target scimdata : doc) : doc :=
  fold_left (fun acc key =>
               if negb (String.eqb key "id") && negb (String.eqb key "meta")
               then obj_set acc key (obj_get scimdata key)
               else acc)
            (obj_keys scimdata) target.

(** The metadata block shared by [modifyUser] and [modifyGroup], [now]
    being the clock reading: the outcome, and the record as the block left
    it. *)
Definition stampMeta (record : doc) (now : string) : result unit * doc :=
  let meta := obj_get record "meta" in
  if truthy meta then
    match meta with
    | VObj m =>
        let m1 := obj_set m "lastModified" (VStr now) in
        let record1 := obj_set record "meta" (VObj m1) in
        match nextVersion (obj_get m1 "version") with
        | Ok tag => (Ok tt, obj_set record "meta" (VObj (obj_set m1 "version" (VStr tag))))
        | Throw e => (Throw e, record1)
        end
    | VArr _ | VRegExp _ _ => (Throw (outsideModel "named property on an array or pattern"), record)
    | _ => (Throw (typeError "Cannot create property 'lastModified'"), record)
    end
  else (Ok tt, record).

Definition has_id (id : string) (d : doc) : bool :=
  strict_eq (obj_get d "id") (VStr id).

(** [now] is the clock reading of the metadata block, [stamp] the clock
    of the store at the update. *)
Definition modifyUser (config : Config) (baseEntity id : string) (scimdata : doc)
    (now : string) (stamp : Z) : result doc * Config :=
  match config !! baseEntity with
  | None => (Throw (unsupportedBaseEntity baseEntity), config)
  | Some entity =>
      match findOne (users entity) "id" (VStr id) with
      | Throw e => (Throw e, config)
      | Ok None => (Throw (notFound "modifyUser" "user" id), config)
      | Ok (Some (i, user)) =>
          let store (u : doc) :=
            <[baseEntity := set_users entity (rewrite_at (users entity) i u)]> config in
          let '(patched, user1, scimdata1) :=
            match obj_get scimdata "entitlements" with
            | VArr entries =>
                let '(r, u) := entitlementLoop user entries in
                (r, u, obj_delete scimdata "entitlements")
            | _ => (Ok tt, user, scimdata)
            end in
          match patched with
          | Throw e => (Throw e, store user1)
          | Ok _ =>
              let user2 := assignKeys user1 scimdata1 in
              match stampMeta user2 now with
              | (Throw e, user3) => (Throw e, store user3)
              | (Ok _, user3) =>
                  let '(updated, c) := coll_update (users entity) stamp i user3 in
                  (updated, <[baseEntity := set_users entity c]> config)
              end
          end
      end
  end.

Definition modifyGroup (config : Config) (baseEntity id : string) (scimdata : doc)
    (now : string) (stamp : Z) : result doc * Config :=
  match config !! baseEntity with
  | None => (Throw (unsupportedBaseEntity baseEntity), config)
  | Some entity =>
      match findOne (groups entity) "id" (VStr id) with
      | Throw e => (Throw e, config)
      | Ok None => (Throw (notFound "modifyGroup" "group" id), config)
      | Ok (Some (i, group)) =>
          let store (g : doc) :=
            <[baseEntity := set_groups entity (rewrite_at (groups entity) i g)]> config in
          let group2 := assignKeys group scimdata in
          match stampMeta group2 now with
          | (Throw e, group3) => (Throw e, store group3)
          | (Ok _, group3) =>
              let '(updated, c) := coll_update (groups entity) stamp i group3 in
              (updated, <[baseEntity := set_groups entity c]> config)
          end
      end
  end.

(** [if (scimdata[key] !== undefined) target[key] = scimdata[key]] *)
Definition assignDefined (target scimdata : doc) (key : string) : doc :=
  if negb (strict_eq (obj_get scimdata key) VUndefined)
  then obj_set target key (obj_get scimdata key)
  else target.

Definition modifyEntitlement (config : Config) (baseEntity id : string) (scimdata : doc)
    (stamp : Z) : result doc * Config :=
  match config !! baseEntity with
  | None => (Throw (unsupportedBaseEntity baseEntity), config)
  | Some entity =>
      match findOne (entitlements entity) "id" (VStr id) with
      | Throw e => (Throw e, config)
      | Ok None => (Throw (notFound "modifyEntitlement" "entitlement" id), config)
      | Ok (Some (i, entitlement)) =>
          let entitlement' :=
            assignDefined (assignDefined (assignDefined entitlement scimdata "displayName")
                             scimdata "type") scimdata "description" in
          let '(updated, c) := coll_update (entitlements entity) stamp i entitlement' in
          (updated, <[baseEntity := set_entitlements entity c]> config)
      end
  end.

(** ** The in-memory [EntitlementsPlugin] class: its query operation *)

Module EntitlementsPlugin.

Definition sampleEntitlements : list doc :=
  [ [("id", VStr "entitlement-123"); ("displayName", VStr "Pro License");
     ("type", VStr "License");
     ("description", VStr "Professional license with full features")];
    [("id", VStr "entitlement-456"); ("displayName", VStr "Basic License");
     ("type", VStr "License");
     ("description", VStr "Basic license with limited features")];
    [("id", VStr "entitlement-789"); ("displayName", VStr "Admin Access");
     ("type", VStr "Permission");
     ("description", VStr "Administrative access to the system")] ].

Fixpoint str_includes (s pat : string) : bool :=
  starts_with pat s ||
  match s with
  | EmptyString => false
  | String _ s' => str_includes s' pat
  end.

Definition str_endsWith (s pat : string) : bool :=
  (Nat.leb (String.length pat) (String.length s)
   && String.eqb (drop_chars (String.length s - String.length pat) s) pat)%bool.

(** The callback of the filter: a string method given a pattern object
    as its argument throws. *)
Definition matches (getObj : GetObj) (entitlement : doc) : result bool :=
  let stored := obj_get entitlement (attribute getObj) in
  let op := default "" (operator getObj) in
  let on_text (test : string -> string -> bool) : result bool :=
    match value getObj with
    | VRegExp _ _ => Throw (typeError "First argument must not be a regular expression")
    | v => Ok (test (toString stored) (toString v))
    end in
  if String.eqb op "eq" then Ok (strict_eq stored (value getObj))
  else if String.eqb op "ne" then Ok (negb (strict_eq stored (value getObj)))
  else if String.eqb op "co" then on_text str_includes
  else if String.eqb op "sw" then on_text (fun s pat => starts_with pat s)
  else if String.eqb op "ew" then on_text str_endsWith
  else Ok true.

Fixpoint filter_docs (cb : doc -> result bool) (l : list doc) : result (list doc) :=
  match l with
  | [] => Ok []
  | d :: l' =>
      b <- cb d ;;
      rest <- filter_docs cb l' ;;
      Ok (if b : bool then d :: rest else rest)
  end.

Definition getEntitlements (entitlements : list doc) (getObj : GetObj) : result QueryResult :=
  filtered <-
    (if negb (String.eqb (attribute getObj) "") && given (operator getObj)
        && truthy (value getObj)
     then filter_docs (matches getObj) entitlements
     else Ok entitlements) ;;
  let startIndex := num_or (startIndex getObj) 1 in
  let count := num_or (count getObj) 100 in
  let start := Z.max 0 (startIndex - 1) in
  let end_ := start + count in
  Ok (mkQueryResult (js_slice filtered start end_) (Z.of_nat (length filtered))).

(** The entitlement identifiers assigned to each user: the map
    [userEntitlements] of the class. *)
Abbreviation Assignments := (gmap string (list string)).

Definition listUserEntitlements (userEntitlements : Assignments) (userId : string)
  : list string :=
  default [] (userEntitlements !! userId).

Definition assignEntitlementToUser (userEntitlements : Assignments)
    (userId entitlementId : string) : bool * Assignments :=
  let userEnts := default [] (userEntitlements !! userId) in
  if negb (includes userEnts entitlementId)
  then (true, <[userId := userEnts ++ [entitlementId]]> userEntitlements)
  else (false, userEntitlements).

(** [arr.splice(arr.indexOf(x), 1)] when [x] occurs: the first occurrence
    goes. *)
Fixpoint remove_first (x : string) (l : list string) : list string :=
  match l with
  | [] => []
  | y :: l' => if String.eqb y x then l' else y :: remove_first x l'
  end.

Definition removeEntitlementFromUser (userEntitlements : Assignments)
    (userId entitlementId : string) : bool * Assignments :=
  let userEnts := default [] (userEntitlements !! userId) in
  if includes userEnts entitlementId
  then (true, <[userId := remove_first entitlementId userEnts]> userEntitlements)
  else (false, userEntitlements).

(** [if (scimdata[key]) target[key] = scimdata[key]] *)
Definition assignTruthy (target scimdata : doc) (key : string) : doc :=
  if truthy (obj_get scimdata key)
  then obj_set target key (obj_get scimdata key)
  else target.

(** [modifyEntitlement] of the class: [None] is the [null] it returns
    for an identifier it does not find. *)
Definition modifyEntitlement (entitlements : list doc) (id : string) (scimdata : doc)
  : option doc * list doc :=
  match find_index (has_id id) entitlements with
  | None => (None, entitlements)
  | Some (entitlementIndex, entitlement) =>
      let entitlement' :=
        assignTruthy (assignTruthy (assignTruthy entitlement scimdata "displayName")
                        scimdata "type") scimdata "description" in
      (Some entitlement', <[entitlementIndex := entitlement']> entitlements)
  end.

(** The grant [getUsers] of the class shows for an assigned identifier. *)
Definition shownGrant (entitlements : list doc) (entId : string) : jsval :=
  let entitlement := snd <$> find_index (has_id entId) entitlements in
  let field (k : string) :=
    match entitlement with
    | Some e => obj_get e k
    | None => VUndefined
    end in
  VObj [("value", VStr entId);
        ("display", js_or (field "displayName") (VStr entId));
        ("type", js_or (field "type") (VStr "License"))].

(** The loop of [getUsers] of the class over the users that the query of
    the parent class returned. A user whose id is no string has no entry
    in the map. *)
Definition addEntitlements (entitlements : list doc) (userEntitlements : Assignments)
    (user : doc) : doc :=
  let userEnts :=
    match obj_get user "id" with
    | VStr userId => listUserEntitlements userEntitlements userId
    | _ => []
    end in
  obj_set user "entitlements" (VArr (map (shownGrant entitlements) userEnts)).

Definition getUsers (entitlements : list doc) (userEntitlements : Assignments)
    (result : option QueryResult) : option QueryResult :=
  (fun r => mkQueryResult (map (addEntitlements entitlements userEntitlements) (Resources r))
              (totalResults r)) <$> result.

(** The loop of [modifyUser] of the class over the entries of the payload,
    before the call of the parent class: the outcome and the map as the
    loop left it. An entry whose value is no string is not covered. *)
Fixpoint assignLoop (userEntitlements : Assignments) (id : string) (entries : list jsval)
  : result unit * Assignments :=
  match entries with
  | [] => (Ok tt, userEntitlements)
  | entitlement :: rest =>
      match getProp entitlement "operation", getProp entitlement "value" with
      | Ok operation, Ok (VStr v) =>
          if strict_eq operation (VStr "add")
          then assignLoop (snd (assignEntitlementToUser userEntitlements id v)) id rest
          else if strict_eq operation (VStr "remove")
          then assignLoop (snd (removeEntitlementFromUser userEntitlements id v)) id rest
          else assignLoop userEntitlements id rest
      | Ok operation, Ok _ =>
          if strict_eq operation (VStr "add") || strict_eq operation (VStr "remove")
          then (Throw (outsideModel "entitlement value that is no string"), userEntitlements)
          else assignLoop userEntitlements id rest
      | Throw e, _ | _, Throw e => (Throw e, userEntitlements)
      end
  end.

Definition modifyUser_entitlements (userEntitlements : Assignments) (id : string)
    (scimdata : doc) : result unit * Assignments :=
  match obj_get scimdata "entitlements" with
  | VArr entries => assignLoop userEntitlements id entries
  | _ => (Ok tt, userEntitlements)
  end.

(** The sample assignments of the class. *)
Definition sampleAssignments : Assignments :=
  {[ "user1" := ["entitlement-123"; "entitlement-789"];
     "user2" := ["entitlement-456"] ]}.

End EntitlementsPlugin.

(** ** A regular-expression engine for a fragment of the pattern language

    Enough of [RegExp] to run the plugin on concrete requests: literal
    characters, the dot, a star after either, a caret in first place, a
    dollar in last place, and the flag i. Of the patterns the engine
    refuses, two kinds are recognised: a star with nothing to repeat, and
    a group that is opened and never closed. Any other pattern is beyond
    the fragment and not covered. *)

Module Fragment.

Inductive atom : Type :=
| Lit (c : ascii)
| AnyChar.

(** An atom, and whether a star follows it. *)
Definition item : Type := (atom * bool)%type.

Definition is_meta (c : ascii) : bool :=
  existsb (Ascii.eqb c)
    ["\"%char; "+"%char; "?"%char; "("%char; ")"%char; "["%char; "]"%char;
     "{"%char; "}"%char; "|"%char; "^"%char; "$"%char; "*"%char].

Definition atom_of (c : ascii) : option atom :=
  if Ascii.eqb c "."%char then Some AnyChar
  else if is_meta c then None
  else Some (Lit c).

(** What reading a pattern body gives: its items and whether it ends in
    a dollar, a star with nothing to repeat, or something beyond the
    fragment. *)
Inductive parsed : Type :=
| Items (items : list item) (anchored : bool)
| NothingToRepeat
| Beyond.

Definition add_item (a : atom) (starred : bool) (rest : parsed) : parsed :=
  match rest with
  | Items items anchored => Items ((a, starred) :: items) anchored
  | other => other
  end.

Fixpoint parse_body (s : string) : parsed :=
  match s with
  | EmptyString => Items [] false
  | String "$"%char EmptyString => Items [] true
  | String "*"%char _ => NothingToRepeat
  | String c s' =>
      match atom_of c with
      | None => Beyond
      | Some a =>
          match s' with
          | String "*"%char s'' => add_item a true (parse_body s'')
          | _ => add_item a false (parse_body s')
          end
      end
  end.

Fixpoint has_char (c : ascii) (s : string) : bool :=
  match s with
  | EmptyString => false
  | String c' s' => Ascii.eqb c c' || has_char c s'
  end.

Definition upper (c : ascii) : ascii :=
  let n := nat_of_ascii c in
  if (Nat.leb 97 n && Nat.leb n 122)%bool then ascii_of_nat (n - 32) else c.

Fixpoint upper_string (s : string) : string :=
  match s with
  | EmptyString => EmptyString
  | String c s' => String (upper c) (upper_string s')
  end.

Definition atom_matches (ignoreCase : bool) (a : atom) (c : ascii) : bool :=
  match a with
  | Lit l => if ignoreCase then Ascii.eqb (upper l) (upper c) else Ascii.eqb l c
  | AnyChar => negb (Nat.eqb (nat_of_ascii c) 10 || Nat.eqb (nat_of_ascii c) 13)
  end.

(** Whether the items match a prefix of the subject (all of it when the
    pattern ends in a dollar). *)
Fixpoint match_here (ignoreCase anchored : bool) (items : list item) : string -> bool :=
  match items with
  | [] => fun s => if anchored then String.eqb s "" else true
  | (a, false) :: rest =>
      fun s => match s with
               | String c s' => atom_matches ignoreCase a c
                                && match_here ignoreCase anchored rest s'
               | EmptyString => false
               end
  | (a, true) :: rest =>
      let continue := match_here ignoreCase anchored rest in
      fix star (s : string) : bool :=
        continue s ||
        match s with
        | String c s' => atom_matches ignoreCase a c && star s'
        | EmptyString => false
        end
  end.

Fixpoint match_anywhere (here : string -> bool) (s : string) : bool :=
  here s ||
  match s with
  | String _ s' => match_anywhere here s'
  | EmptyString => false
  end.

Definition invalid (source why : string) : Error :=
  mkError "SyntaxError" ("Invalid regular expression: /" +:+ source +:+ "/: " +:+ why).

Definition regExp (source flags : string) : result (string -> bool) :=
  if negb (String.eqb flags "" || String.eqb flags "i") then
    Throw (outsideModel "flags beyond i")
  else if has_char "("%char source
          && negb (has_char ")"%char source || has_char "["%char source
                   || has_char "\"%char source) then
    Throw (invalid source "Unterminated group")
  else
    let ignoreCase := String.eqb flags "i" in
    let '(body, from_start) :=
      match source with
      | String "^"%char body => (body, true)
      | _ => (source, false)
      end in
    match parse_body body with
    | Items items anchored =>
        Ok (if from_start : bool then match_here ignoreCase anchored items
            else match_anywhere (match_here ignoreCase anchored items))
    | NothingToRepeat => Throw (invalid source "Nothing to repeat")
    | Beyond => Throw (outsideModel "pattern beyond the fragment")
    end.

(** No scan operator beyond the three of [lokiOp], no dotted path, no
    search through a sorted index but by equality: the concrete requests
    below use none of them. *)
Definition otherOps (op : string) (a b : jsval) : bool := false.
Definition dotted (test : jsval -> bool) (path : string) (d : doc) : bool := false.
Definition indexSearch (property op : string) (operand : jsval) (docs : list doc)
  : list nat := [].

End Fragment.

(** ** The test data of the plugin *)

Definition testEntitlements : list doc :=
  [ [("id", VStr "entitlement-123"); ("displayName", VStr "Pro License");
     ("type", VStr "License");
     ("description", VStr "Professional license with full features")];
    [("id", VStr "entitlement-456"); ("displayName", VStr "Basic License");
     ("type", VStr "License");
     ("description", VStr "Basic license with limited features")];
    [("id", VStr "entitlement-789"); ("displayName", VStr "Admin Access");
     ("type", VStr "Permission");
     ("description", VStr "Administrative access to the system")];
    [("id", VStr "entitlement-abc"); ("displayName", VStr "Premium Support");
     ("type", VStr "Support");
     ("description", VStr "Premium customer support access")] ].

(** The clock of the store while [loadHandler] runs. *)
Definition loadTime : Z := 1704067200000.

(** A run of inserts, as far as the store accepts them: a refusal ends
    the run. *)
Fixpoint insert_each (c : Collection) (stamp : Z) (docs : list doc) : Collection :=
  match docs with
  | [] => c
  | d :: rest =>
      match coll_insert c stamp d with
      | (Ok _, c') => insert_each c' stamp rest
      | (Throw _, c') => c'
      end
  end.

(** [if (r.meta) delete r.meta] *)
Definition withoutMeta (r : doc) : doc :=
  if truthy (obj_get r "meta") then obj_delete r "meta" else r.

(** The entitlements that [loadHandler] gives the test user with the login
    name [login], when there is one. *)
Definition grantTo (c : Collection) (login : string) (grants : list jsval) (stamp : Z)
  : Collection :=
  match findOne c "userName" (VStr login) with
  | Ok (Some (i, user)) =>
      snd (coll_update c stamp i (obj_set user "entitlements" (VArr grants)))
  | _ => c
  end.

(** The order of a sorted index over a property that holds strings of
    8-bit characters, no two the same: by the text of the value. *)
Definition by_text (property : string) (d1 d2 : doc) : bool :=
  String.leb (toString (obj_get d1 property)) (toString (obj_get d2 property)).

(** A tenant as [loadHandler] sets it up without persistence, the
    test-mode users and groups of the gateway being [userDocs] and
    [groupDocs]. *)
Definition tenant (userDocs groupDocs : list doc) : Entity :=
  let users0 := insert_each (addCollection ["id"; "userName"] []) loadTime
                  (map withoutMeta userDocs) in
  let groups0 := insert_each (addCollection ["displayName"] []) loadTime
                   (map withoutMeta groupDocs) in
  let entitlements0 :=
    insert_each (addCollection ["id"] [mkBinaryIndex "id" (by_text "id");
                                       mkBinaryIndex "type" (by_text "type")])
      loadTime testEntitlements in
  let users1 :=
    grantTo users0 "bjensen"
      [VObj [("value", VStr "entitlement-123"); ("display", VStr "Pro License");
             ("type", VStr "License"); ("primary", VBool true)];
       VObj [("value", VStr "entitlement-789"); ("display", VStr "Admin Access");
             ("type", VStr "Permission")]] loadTime in
  let users2 :=
    grantTo users1 "jsmith"
      [VObj [("value", VStr "entitlement-456"); ("display", VStr "Basic License");
             ("type", VStr "License"); ("primary", VBool true)]] loadTime in
  mkEntity users2 groups0 entitlements0.

Definition eqFilter (attr : string) (v : string) : GetObj :=
  mkGetObj attr (Some "eq") (VStr v) None None None.

Definition noFilter (startIndex count : option Z) : GetObj :=
  mkGetObj "" None VUndefined None startIndex count.

(** ** Patch entries and grants *)

(** One entry of a patch entitlements list, with its entitlement value a
    string; a property the payload leaves out is [VUndefined]. *)
Record Entry : Type := mkEntry {
  entryOperation : string;
  entryValue : string;
  entryDisplay : jsval;
  entryType : jsval;
  entryPrimary : jsval
}.

Definition entryObj (en : Entry) : jsval :=
  VObj [("value", VStr (entryValue en));
        ("operation", VStr (entryOperation en));
        ("display", entryDisplay en);
        ("type", entryType en);
        ("primary", entryPrimary en)].

(** The grant that an add entry appends. *)
Definition grantOf (en : Entry) : jsval :=
  VObj [("value", VStr (entryValue en));
        ("display", js_or (entryDisplay en) (VStr (entryValue en)));
        ("type", js_or (entryType en) (VStr "License"));
        ("primary", js_or (entryPrimary en) (VBool false))].

(** The grants a user document holds. *)
Definition grantsOf (user : doc) : list jsval :=
  match obj_get user "entitlements" with
  | VArr granted => granted
  | _ => []
  end.

Definition is_object (v : jsval) : bool :=
  match v with
  | VObj _ => true
  | _ => false
  end.

(** Whether a grant is for the entitlement value [v]. *)
Definition grants_value (v : string) (grant : jsval) : bool :=
  match grant with
  | VObj o => strict_eq (obj_get o "value") (VStr v)
  | _ => false
  end.

Definition has_grant (v : string) (granted : list jsval) : bool :=
  existsb (grants_value v) granted.

Definition count_grants (v : string) (granted : list jsval) : nat :=
  length (List.filter (grants_value v) granted).

(** A user document whose entitlements property is absent or a list of
    objects. *)
Definition grants_wf (user : doc) : Prop :=
  (obj_get user "entitlements" = VUndefined
   \/ exists granted, obj_get user "entitlements" = VArr granted)
  /\ Forall (fun g => is_object g = true) (grantsOf user).

(** What one entry makes of a list of grants. *)
Definition stepGrants (granted : list jsval) (en : Entry) : list jsval :=
  if String.eqb (entryOperation en) "add" then
    if has_grant (entryValue en) granted then granted else granted ++ [grantOf en]
  else if String.eqb (entryOperation en) "remove" then
    List.filter (fun g => negb (grants_value (entryValue en) g)) granted
  else granted.

(** ** Concrete tenants and requests *)

(** The tenant key of a gateway with a single tenant. *)
Definition theTenant : string := "undefined".

Definition configOf (userDocs groupDocs : list doc) : Config :=
  {[ theTenant := tenant userDocs groupDocs ]}.

(** A test-mode user of the gateway, reduced to its identifying
    attributes. *)
Definition testUser (id login : string) : doc :=
  [("id", VStr id); ("userName", VStr login)].

Definition bjensen : doc := testUser "u1" "bjensen".
Definition jsmith : doc := testUser "u2" "jsmith".
Definition mmiller : doc := testUser "u3" "mmiller".

Definition usersOf (config : Config) : list doc :=
  match config !! theTenant with
  | Some entity => data (users entity)
  | None => []
  end.

(** The stored user at position [i]. *)
Definition userAt (config : Config) (i : nat) : doc :=
  default [] (usersOf config !! i).

(** The clock of the store at the creations below. *)
Definition createTime : Z := 1704153600000.

(** The record of a user that [createUser] has stored under [$loki]
    [loki] at the clock readings below. *)
Definition storedUser (loki : Z) (id login : string) : doc :=
  [("userName", VStr login); ("id", VStr id);
   ("meta", VObj [("resourceType", VStr "User"); ("created", VNum createTime);
                  ("lastModified", VStr "2024-01-02T00:00:00.000Z");
                  ("version", VNum 0); ("revision", VNum 0)]);
   ("$loki", VNum loki)].

(** Two creations in a row on an empty tenant, the login names differing
    in case only. *)
Definition afterBob : result doc * Config :=
  createUser (configOf [] []) theTenant [("userName", VStr "bob")]
    "id-1" "2024-01-02T00:00:00.000Z" "2024-01-02T00:00:00.000Z" createTime.

Definition afterBobs : result doc * Config :=
  createUser (snd afterBob) theTenant [("userName", VStr "Bob")]
    "id-2" "2024-01-02T00:00:00.000Z" "2024-01-02T00:00:00.000Z" createTime.

(** ** Invariants of a collection *)

(** No two documents hold the same value of [field], documents without
    the field (or with [null] there) apart. *)
Fixpoint distinct_on (field : string) (docs : list doc) : Prop :=
  match docs with
  | [] => True
  | d :: rest =>
      (keyed (obj_get d field) = true ->
       Forall (fun d' => strict_eq (obj_get d field) (obj_get d' field) = false) rest)
      /\ distinct_on field rest
  end.

(** The identifiers of the documents, in store order. *)
Definition ids_of (docs : list doc) : list jsval := map (fun d => obj_get d "id") docs.

(** The entitlement values of a list of grants, in order. *)
Definition granted_values (granted : list jsval) : list jsval :=
  map (fun g => match g with
                | VObj o => obj_get o "value"
                | _ => VUndefined
                end) granted.

(** ** The documents and the index of the unique fields *)

(** A document whose metadata are an object with a number as version,
    as the insert of the store leaves every document. *)
Definition stamped (d : doc) : Prop :=
  exists m n, obj_get d "meta" = VObj m /\ obj_get m "version" = VNum n.

(** The index holds the key of the value that [d] has in [field], if it
    has one. *)
Definition key_held (c : Collection) (field : string) (d : doc) : Prop :=
  keyed (obj_get d field) = true ->
  is_Some (keyMap c !! (field, toString (obj_get d field))).

(** The index holds the keys of [d] for every unique field. *)
Definition index_holds (c : Collection) (d : doc) : Prop :=
  Forall (fun field => key_held c field d) (uniqueNames c).

(** The index holds the keys of every document for [field]. *)
Definition index_covers (c : Collection) (field : string) : Prop :=
  Forall (key_held c field) (data c).


(** The documents of [c'] and the way they are filed are those of [c]:
    the two collections differ in the index of the unique fields at
    most. *)
Definition same_documents (c c' : Collection) : Prop :=
  data c' = data c /\ idIndex c' = idIndex c /\ maxId c' = maxId c
  /\ uniqueNames c' = uniqueNames c /\ binaryIndices c' = binaryIndices c.

(** The document [d] at position [i] is filed under its [$loki]. *)
Definition filed (c : Collection) (i : nat) (d : doc) : Prop :=
  exists loki, obj_get d "$loki" = VNum loki /\ idIndex c !! i = Some loki.

(** The index lacks the key of the value that [d] has in [field]. *)
Definition key_missing (c : Collection) (field : string) (d : doc) : Prop :=
  keyed (obj_get d field) = true
  /\ keyMap c !! (field, toString (obj_get d field)) = None.

(** Every user and every group of the tenant is stamped. *)
Definition all_stamped (e : Entity) : Prop :=
  Forall stamped (data (users e)) /\ Forall stamped (data (groups e)).

(** Every tenant of the configuration has stamped users and groups. *)
Definition config_stamped (config : Config) : Prop :=
  forall baseEntity entity, config !! baseEntity = Some entity -> all_stamped entity.

(** ** The runs of the plugin

    One call of an operation that can write: from the configuration
    before the call to the one after, whatever the call answers. *)
Inductive step (config : Config) : Config -> Prop :=
| step_createUser baseEntity scimdata uuid created lastModified stamp :
    step config (snd (createUser config baseEntity scimdata uuid created lastModified stamp))
| step_createGroup baseEntity scimdata uuid created lastModified stamp :
    step config (snd (createGroup config baseEntity scimdata uuid created lastModified stamp))
| step_deleteUser baseEntity id :
    step config (snd (deleteUser config baseEntity id))
| step_deleteGroup baseEntity id :
    step config (snd (deleteGroup config baseEntity id))
| step_modifyUser baseEntity id scimdata now stamp :
    step config (snd (modifyUser config baseEntity id scimdata now stamp))
| step_modifyGroup baseEntity id scimdata now stamp :
    step config (snd (modifyGroup config baseEntity id scimdata now stamp))
| step_modifyEntitlement baseEntity id scimdata stamp :
    step config (snd (modifyEntitlement config baseEntity id scimdata stamp)).

(** The configurations that calls of the operations reach from a gateway
    with one tenant, set up without persistence. *)
Definition reachable (userDocs groupDocs : list doc) (config : Config) : Prop :=
  rtc step (configOf userDocs groupDocs) config.

(** ** Concrete runs *)

(** Three test users. *)
Definition threeUsers : Config := configOf [bjensen; jsmith; mmiller] [].

(** The test user bjensen alone. *)
Definition oneUser : Config := configOf [bjensen] [].

(** The clock readings of the runs below. *)
Definition later : string := "2024-01-03T00:00:00.000Z".
Definition laterTime : Z := 1704240000000.

(** A rename of bjensen, which the update leaves half done. *)
Definition afterRename : result doc * Config :=
  modifyUser oneUser theTenant "u1" [("userName", VStr "barbara")] later laterTime.

(** alice created beside bjensen. *)
Definition afterAlice : result doc * Config :=
  createUser oneUser theTenant [("userName", VStr "alice"); ("active", VBool true)]
    "id-9" later later laterTime.

(** The one tenant of a configuration, and its stored entitlement at
    position [i]. *)
Definition tenantOf (config : Config) : Entity :=
  default (tenant [] []) (config !! theTenant).

Definition entitlementAt (config : Config) (i : nat) : doc :=
  default [] (data (entitlements (tenantOf config)) !! i).

(** The conditions on the index and on a collection can be decided, and
    so be settled on a concrete run by evaluation. *)
#[global] Instance key_held_dec (c : Collection) (field : string) (d : doc) :
  Decision (key_held c field d).
Proof. unfold key_held. apply _. Defined.

#[global] Instance key_missing_dec (c : Collection) (field : string) (d : doc) :
  Decision (key_missing c field d).
Proof. unfold key_missing. apply _. Defined.

#[global] Instance index_holds_dec (c : Collection) (d : doc) : Decision (index_holds c d).
Proof. unfold index_holds. apply _. Defined.

#[global] Instance index_covers_dec (c : Collection) (field : string) :
  Decision (index_covers c field).
Proof. unfold index_covers. apply _. Defined.

#[global] Instance distinct_on_dec (field : string) (docs : list doc) :
  Decision (distinct_on field docs).
Proof. induction docs as [|d docs IH]; simpl; apply _. Defined.

(** * Properties *)

(** ** Objects *)

Lemma obj_get_set_eq (o : doc) (k : string) (v : jsval) :
  obj_get (obj_set o k v) k = v.
Proof.
  induction o as [|[k' v'] o IH]; simpl.
  - now rewrite String.eqb_refl.
  - destruct (String.eqb k' k) eqn:E; simpl.
    + now rewrite String.eqb_refl.
    + now rewrite E.
Qed.

Lemma obj_get_set_ne (o : doc) (k k' : string) (v : jsval) :
  k <> k' -> obj_get (obj_set o k v) k' = obj_get o k'.
Proof.
  intros Hne. induction o as [|[k0 v0] o IH]; simpl.
  - apply String.eqb_neq in Hne. now rewrite Hne.
  - destruct (String.eqb k0 k) eqn:E; simpl.
    + apply String.eqb_eq in E. subst k0.
      apply String.eqb_neq in Hne. now rewrite Hne.
    + destruct (String.eqb k0 k'); [reflexivity | exact IH].
Qed.

Lemma obj_set_same (o : doc) (k : string) (v : jsval) :
  obj_get o k = v -> v <> VUndefined -> obj_set o k v = o.
Proof.
  induction o as [|[k0 v0] o IH]; simpl; intros Hget Hv.
  - congruence.
  - destruct (String.eqb k0 k) eqn:E.
    + apply String.eqb_eq in E. now subst.
    + f_equal. now apply IH.
Qed.

Lemma obj_set_set (o : doc) (k : string) (v w : jsval) :
  obj_set (obj_set o k v) k w = obj_set o k w.
Proof.
  induction o as [|[k0 v0] o IH]; simpl.
  - now rewrite String.eqb_refl.
  - destruct (String.eqb k0 k) eqn:E; simpl.
    + now rewrite String.eqb_refl.
    + rewrite E. now f_equal.
Qed.

(** ** Paging *)

Lemma js_slice_window {A : Type} (l : list A) (start len : Z) :
  0 <= start -> 0 <= len ->
  js_slice l start (start + len) = take (Z.to_nat len) (drop (Z.to_nat start) l).
Proof.
  intros Hs Hl. unfold js_slice.
  destruct (start <? 0) eqn:E1; [lia|].
  destruct (start + len <? 0) eqn:E2; [lia|].
  set (n := Z.of_nat (length l)).
  destruct (Z.le_gt_cases n start) as [Hge | Hlt].
  - rewrite (drop_ge l (Z.to_nat (Z.min start n))) by lia.
    rewrite (drop_ge l (Z.to_nat start)) by lia.
    now rewrite !take_nil.
  - replace (Z.min start n) with start by lia.
    destruct (Z.le_gt_cases (start + len) n) as [Hin | Hout].
    + replace (Z.min (start + len) n - start) with len by lia. reflexivity.
    + replace (Z.min (start + len) n) with n by lia.
      rewrite !take_ge; [reflexivity | |]; rewrite length_drop; lia.
Qed.

(** A negative end counts from the tail of the array. *)
Example js_slice_negative_end : js_slice [1; 2; 3] 0 (-1) = [1; 2].
Proof. reflexivity. Qed.

Lemma paginate_window (g : GetObj) (arr : list doc) :
  0 <= num_or (count g) 100 ->
  paginate g arr = mkQueryResult (window_of g arr) (Z.of_nat (length arr)).
Proof.
  intros Hc. unfold paginate, window_of. f_equal.
  apply js_slice_window; lia.
Qed.

Lemma paginate_past_end (g : GetObj) (arr : list doc) :
  Z.of_nat (length arr) <= Z.max 0 (num_or (startIndex g) 1 - 1) ->
  paginate g arr = mkQueryResult [] (Z.of_nat (length arr)).
Proof.
  intros Hs. unfold paginate, js_slice. f_equal.
  set (start := Z.max 0 (num_or (startIndex g) 1 - 1)) in *.
  destruct (start <? 0) eqn:E; [lia|].
  rewrite drop_ge by lia. apply take_nil.
Qed.


(** ** The query operations *)

Section QueryFacts.

Variable regExp : string -> string -> result (string -> bool).
Variable otherOps : string -> jsval -> jsval -> bool.
Variable dotted : (jsval -> bool) -> string -> doc -> bool.
Variable indexSearch : string -> string -> jsval -> list doc -> list nat.

Ltac split_ifs :=
  repeat match goal with
         | |- context [if ?b then _ else _] => destruct b eqn:?
         | |- context [match regExp ?s ?f with _ => _ end] => destruct (regExp s f) eqn:?
         end.

(** The switch reads and writes the operator and the value only. *)
Lemma convertOperator_paging (action : string) (g : GetObj) (si cnt : option Z) :
  convertOperator regExp action (with_paging g si cnt)
  = (fst (convertOperator regExp action g),
     with_paging (snd (convertOperator regExp action g)) si cnt).
Proof.
  unfold convertOperator. simpl.
  destruct (operator g) as [op|]; [|reflexivity].
  split_ifs; reflexivity.
Qed.

Lemma convertOperator_not_given (action : string) (g : GetObj) :
  given (operator g) = false -> convertOperator regExp action g = (Ok tt, g).
Proof.
  unfold convertOperator, given.
  destruct (operator g) as [op|]; [|reflexivity].
  destruct (String.eqb op ""); [reflexivity | discriminate].
Qed.

Lemma selectDocs_paging action identifying reference c (g : GetObj) (si cnt : option Z) :
  selectDocs regExp otherOps dotted indexSearch action identifying reference c (with_paging g si cnt)
  = selectDocs regExp otherOps dotted indexSearch action identifying reference c g.
Proof. reflexivity. Qed.

Lemma with_paging_id (g : GetObj) : with_paging g (startIndex g) (count g) = g.
Proof. now destruct g. Qed.

Lemma convertOperator_keeps_paging (action : string) (g : GetObj) :
  startIndex (snd (convertOperator regExp action g)) = startIndex g
  /\ count (snd (convertOperator regExp action g)) = count g.
Proof.
  rewrite <- (with_paging_id g) at 1 3.
  rewrite convertOperator_paging. simpl. auto.
Qed.

(** A query returns the page of what the filter matched. *)
Lemma query_matched action identifying reference (collection : Entity -> Collection)
    (config : Config) (baseEntity : string) (entity : Entity) (g : GetObj) (arr : list doc) :
  config !! baseEntity = Some entity ->
  matched regExp otherOps dotted indexSearch action identifying reference (collection entity) g = Ok arr ->
  fst (query regExp otherOps dotted indexSearch action identifying reference collection config baseEntity g)
  = Ok (paginate g arr).
Proof.
  intros Hcfg Hm. unfold query, matched in *. rewrite Hcfg.
  pose proof (convertOperator_keeps_paging action g) as [Hsi Hcnt].
  destruct (convertOperator regExp action g) as [converted g'] eqn:Hconv.
  simpl in *. destruct converted as [[]|e]; simpl in *; [|discriminate].
  rewrite Hm. simpl. unfold paginate. now rewrite Hsi, Hcnt.
Qed.


(** C2, for a count that is not negative: when the filter of a query
    matches the documents [arr], [totalResults] is the number of matches
    before paging and, the count not being negative, [Resources] is the
    page of the matches from the zero-based position
    [max 0 (startIndex - 1)], [count] long, [startIndex] defaulting to 1 and
    [count] to 100; a page that starts at or past the end is empty,
    whatever the count, while [totalResults] still is the number of
    matches. The three query operations share this. *)
Theorem query_totalResults_and_page
    (config : Config) (baseEntity : string) (entity : Entity) (g : GetObj) :
  config !! baseEntity = Some entity ->
  (forall arr,
      matched regExp otherOps dotted indexSearch "getUsers" ["id"; "userName"; "externalId"]
        (Some "group.value") (users entity) g = Ok arr ->
      exists r, fst (getUsers regExp otherOps dotted indexSearch config baseEntity g) = Ok r
        /\ totalResults r = Z.of_nat (length arr)
        /\ (0 <= num_or (count g) 100 -> Resources r = window_of g arr)
        /\ (Z.of_nat (length arr) <= Z.max 0 (num_or (startIndex g) 1 - 1) ->
            Resources r = []))
  /\ (forall arr,
      matched regExp otherOps dotted indexSearch "getGroups" ["id"; "displayName"; "externalId"]
        (Some "members.value") (groups entity) g = Ok arr ->
      exists r, fst (getGroups regExp otherOps dotted indexSearch config baseEntity g) = Ok r
        /\ totalResults r = Z.of_nat (length arr)
        /\ (0 <= num_or (count g) 100 -> Resources r = window_of g arr)
        /\ (Z.of_nat (length arr) <= Z.max 0 (num_or (startIndex g) 1 - 1) ->
            Resources r = []))
  /\ (forall arr,
      matched regExp otherOps dotted indexSearch "getEntitlements" ["id"; "displayName"; "type"]
        None (entitlements entity) g = Ok arr ->
      exists r, fst (getEntitlements regExp otherOps dotted indexSearch config baseEntity g) = Ok r
        /\ totalResults r = Z.of_nat (length arr)
        /\ (0 <= num_or (count g) 100 -> Resources r = window_of g arr)
        /\ (Z.of_nat (length arr) <= Z.max 0 (num_or (startIndex g) 1 - 1) ->
            Resources r = [])).
Proof.
  intros Hcfg.
  assert (Hpage : forall arr,
             totalResults (paginate g arr) = Z.of_nat (length arr)
             /\ (0 <= num_or (count g) 100 -> Resources (paginate g arr) = window_of g arr)
             /\ (Z.of_nat (length arr) <= Z.max 0 (num_or (startIndex g) 1 - 1) ->
                 Resources (paginate g arr) = [])).
  { intros arr. split; [reflexivity|]. split; intros H.
    - now rewrite paginate_window.
    - now rewrite paginate_past_end. }
  repeat split; intros arr Hm; exists (paginate g arr);
    (split; [eapply query_matched; eassumption | apply Hpage]).
Qed.

(** C7: a query that carries a rawFilter and no filter operator fails
    with the error that says advanced filtering is not supported; nothing
    of the filter is evaluated (the filter object comes back as it was),
    and a query operation has no collection among its results. *)
Theorem rawFilter_rejected
    (config : Config) (baseEntity raw : string) (entity : Entity) (g : GetObj) :
  config !! baseEntity = Some entity ->
  given (operator g) = false ->
  rawFilter g = Some raw -> raw <> "" ->
  getUsers regExp otherOps dotted indexSearch config baseEntity g
  = (Throw (advancedFilterError "getUsers" raw), g)
  /\ getGroups regExp otherOps dotted indexSearch config baseEntity g
     = (Throw (advancedFilterError "getGroups" raw), g)
  /\ getEntitlements regExp otherOps dotted indexSearch config baseEntity g
     = (Throw (advancedFilterError "getEntitlements" raw), g).
Proof.
  intros Hcfg Hop Hraw Hne.
  assert (Hgiven : given (rawFilter g) = true).
  { rewrite Hraw. simpl. apply String.eqb_neq in Hne. now rewrite Hne. }
  unfold getUsers, getGroups, getEntitlements, query. rewrite Hcfg.
  rewrite !convertOperator_not_given by exact Hop.
  unfold selectDocs. rewrite Hop, Hgiven, Hraw. simpl. auto.
Qed.


Lemma query_filter_object action identifying reference (collection : Entity -> Collection)
    (config : Config) (baseEntity : string) (entity : Entity) (g : GetObj) :
  config !! baseEntity = Some entity ->
  snd (query regExp otherOps dotted indexSearch action identifying reference collection config baseEntity g)
  = snd (convertOperator regExp action g).
Proof.
  intros Hcfg. unfold query. rewrite Hcfg.
  now destruct (convertOperator regExp action g).
Qed.

(** C8, as the code has it: the translation writes into the filter object
    it is given. The operator is replaced by its native form (co, ge, le,
    sw and ew by name, an accepted operator by itself after a dollar). For
    sw and ew the value is replaced by the pattern built from it when the
    engine accepts that pattern; when the engine refuses it, the
    translation throws the error of the engine and leaves the object with
    the operator $regex and the value it had. The attribute, rawFilter,
    startIndex and count keep their values, and an object with no
    operator, or with a rejected one, stays as it was. The object a query
    operation leaves behind is the one the translation left. *)
Theorem translation_rewrites_filter_object
    (action : string) (config : Config) (baseEntity : string) (entity : Entity)
    (g : GetObj) :
  config !! baseEntity = Some entity ->
  let g' := snd (convertOperator regExp action g) in
  snd (getUsers regExp otherOps dotted indexSearch config baseEntity g)
    = snd (convertOperator regExp "getUsers" g)
  /\ snd (getGroups regExp otherOps dotted indexSearch config baseEntity g)
     = snd (convertOperator regExp "getGroups" g)
  /\ snd (getEntitlements regExp otherOps dotted indexSearch config baseEntity g)
     = snd (convertOperator regExp "getEntitlements" g)
  /\ (attribute g' = attribute g /\ rawFilter g' = rawFilter g
      /\ startIndex g' = startIndex g /\ count g' = count g)
  /\ (given (operator g) = false -> g' = g)
  /\ (operator g = Some "co" -> operator g' = Some "$contains" /\ value g' = value g)
  /\ (operator g = Some "ge" -> operator g' = Some "$gte" /\ value g' = value g)
  /\ (operator g = Some "le" -> operator g' = Some "$lte" /\ value g' = value g)
  /\ (operator g = Some "sw" ->
      operator g' = Some "$regex"
      /\ (forall test, regExp ("^" +:+ toString (value g) +:+ ".*") "" = Ok test ->
          fst (convertOperator regExp action g) = Ok tt
          /\ value g' = VRegExp ("^" +:+ toString (value g) +:+ ".*") "")
      /\ (forall e, regExp ("^" +:+ toString (value g) +:+ ".*") "" = Throw e ->
          fst (convertOperator regExp action g) = Throw e /\ value g' = value g))
  /\ (operator g = Some "ew" ->
      operator g' = Some "$regex"
      /\ (forall test, regExp (".*" +:+ toString (value g) +:+ "$") "" = Ok test ->
          fst (convertOperator regExp action g) = Ok tt
          /\ value g' = VRegExp (".*" +:+ toString (value g) +:+ "$") "")
      /\ (forall e, regExp (".*" +:+ toString (value g) +:+ "$") "" = Throw e ->
          fst (convertOperator regExp action g) = Throw e /\ value g' = value g))
  /\ (forall op, operator g = Some op -> includes validFilterOperators op = true ->
      operator g' = Some ("$" +:+ op) /\ value g' = value g)
  /\ (forall op, operator g = Some op ->
      includes ("co" :: "ge" :: "le" :: "sw" :: "ew" :: validFilterOperators) op = false ->
      g' = g).
Proof.
  intros Hcfg g'. subst g'.
  split; [now apply query_filter_object with (entity := entity)|].
  split; [now apply query_filter_object with (entity := entity)|].
  split; [now apply query_filter_object with (entity := entity)|].
  split.
  { unfold convertOperator. destruct (operator g) as [op|]; [|auto].
    split_ifs; simpl; auto. }
  split.
  { intros Hop. now rewrite convertOperator_not_given. }
  unfold convertOperator.
  split; [intros Hop; rewrite Hop; simpl; auto|].
  split; [intros Hop; rewrite Hop; simpl; auto|].
  split; [intros Hop; rewrite Hop; simpl; auto|].
  split.
  { intros Hop. rewrite Hop. simpl. split; [|split].
    - destruct (regExp _ _); reflexivity.
    - intros t Ht. now rewrite Ht.
    - intros e He. now rewrite He. }
  split.
  { intros Hop. rewrite Hop. simpl. split; [|split].
    - destruct (regExp _ _); reflexivity.
    - intros t Ht. now rewrite Ht.
    - intros e He. now rewrite He. }
  split.
  - intros op Hop Hvalid. rewrite Hop.
    destruct (String.eqb op "") eqn:E0.
    { apply String.eqb_eq in E0. subst op. discriminate. }
    rewrite Hvalid.
    split_ifs;
      repeat match goal with
             | H : String.eqb op _ = true |- _ => apply String.eqb_eq in H; subst op
             end; try discriminate; auto.
  - intros op Hop Hnone. rewrite Hop.
    destruct (String.eqb op "") eqn:E0; [reflexivity|].
    simpl in Hnone.
    apply orb_false_elim in Hnone as [E1 Hnone].
    apply orb_false_elim in Hnone as [E2 Hnone].
    apply orb_false_elim in Hnone as [E3 Hnone].
    apply orb_false_elim in Hnone as [E4 Hnone].
    apply orb_false_elim in Hnone as [E5 Hnone].
    rewrite E1, E2, E3, E4, E5.
    unfold includes, validFilterOperators. simpl. rewrite Hnone. reflexivity.
Qed.

End QueryFacts.

(** ** The collection *)

Lemma find_index_none (p : doc -> bool) (l : list doc) :
  Forall (fun d => p d = false) l -> find_index p l = None.
Proof.
  induction 1 as [|d l Hd _ IH]; simpl; [reflexivity|].
  now rewrite Hd, IH.
Qed.

Lemma find_index_some (p : doc -> bool) (l : list doc) :
  Exists (fun d => p d = true) l -> is_Some (find_index p l).
Proof.
  induction 1 as [d l Hd | d l _ IH]; simpl.
  - rewrite Hd. eauto.
  - destruct (p d); [eauto|]. destruct IH as [[i d'] ->]. simpl. eauto.
Qed.

Lemma find_index_lookup (p : doc -> bool) (l : list doc) (i : nat) (d : doc) :
  find_index p l = Some (i, d) -> l !! i = Some d /\ p d = true.
Proof.
  revert i. induction l as [|d0 l IH]; simpl; intros i H; [discriminate|].
  destruct (p d0) eqn:E.
  - inversion H; subst. auto.
  - destruct (find_index p l) as [[j d']|]; simpl in H; [|discriminate].
    inversion H; subst. simpl. now apply IH.
Qed.

(** The rows of a list of documents are its documents at their
    positions. *)
Lemma rows_from_In (n : nat) (l : list doc) (i : nat) (d : doc) :
  In (i, d) (rows_from n l) <-> (n <= i)%nat /\ l !! (i - n)%nat = Some d.
Proof.
  revert n. induction l as [|d0 l IH]; intros n; simpl.
  - split; [tauto | intros [_ H]; discriminate].
  - rewrite IH. split.
    + intros [H | [Hle Hl]].
      * inversion H; subst. split; [lia|]. now rewrite Nat.sub_diag.
      * split; [lia|]. replace (i - n)%nat with (S (i - S n)) by lia. exact Hl.
    + intros [Hle Hl]. destruct (i - n)%nat as [|k] eqn:E.
      * left. inversion Hl; subst. f_equal. lia.
      * right. split; [lia|]. replace (i - S n)%nat with k by lia. exact Hl.
Qed.

Lemma rows_from_find (p : doc -> bool) (n : nat) (l : list doc) :
  head (List.filter (fun r => p (snd r)) (rows_from n l))
  = (fun '(i, d) => ((n + i)%nat, d)) <$> find_index p l.
Proof.
  revert n. induction l as [|d0 l IH]; intros n; simpl; [reflexivity|].
  destruct (p d0); simpl.
  - now rewrite Nat.add_0_r.
  - rewrite IH. destruct (find_index p l) as [[i d]|]; simpl; [|reflexivity].
    f_equal. f_equal. lia.
Qed.

Lemma rows_from_snd (n : nat) (l : list doc) : map snd (rows_from n l) = l.
Proof. revert n. induction l as [|d l IH]; intros n; simpl; [reflexivity|]. now rewrite IH. Qed.

Lemma insert_by_Permutation {A : Type} (leb : A -> A -> bool) (x : A) (l : list A) :
  insert_by leb x l ≡ₚ x :: l.
Proof.
  induction l as [|y l IH]; simpl; [reflexivity|].
  destruct (leb x y); [reflexivity|].
  rewrite IH. apply Permutation_swap.
Qed.

(** Sorting rearranges and nothing else. *)
Lemma sort_by_Permutation {A : Type} (leb : A -> A -> bool) (l : list A) :
  sort_by leb l ≡ₚ l.
Proof.
  induction l as [|x l IH]; simpl; [reflexivity|].
  rewrite insert_by_Permutation. now rewrite IH.
Qed.

Lemma rows_for_Permutation (c : Collection) (property : string) :
  rows_for c property ≡ₚ rows_from 0 (data c).
Proof.
  unfold rows_for. destruct (index_of c property); [apply sort_by_Permutation | reflexivity].
Qed.

Lemma list_filter_Permutation {A : Type} (f : A -> bool) (l l' : list A) :
  l ≡ₚ l' -> List.filter f l ≡ₚ List.filter f l'.
Proof.
  induction 1 as [|x l l' _ IH|x y l|l l' l'' _ IH1 _ IH2]; simpl.
  - reflexivity.
  - destruct (f x); [now constructor | exact IH].
  - destruct (f x), (f y); try reflexivity. apply Permutation_swap.
  - now rewrite IH1.
Qed.

Lemma rows_for_In (c : Collection) (property : string) (i : nat) (d : doc) :
  In (i, d) (rows_for c property) <-> data c !! i = Some d.
Proof.
  rewrite <- !list_elem_of_In.
  rewrite (rows_for_Permutation c property), list_elem_of_In, rows_from_In.
  rewrite Nat.sub_0_r. split; [tauto | split; [lia | assumption]].
Qed.

Lemma head_In {A : Type} (l : list A) (x : A) : head l = Some x -> In x l.
Proof. destruct l; simpl; [discriminate|]. intros H. inversion H. now left. Qed.

(** What [findOne] finds is a document of the collection, at its
    position, holding the value asked for. *)
Lemma findOne_lookup (c : Collection) (field : string) (v : jsval) (i : nat) (d : doc) :
  findOne c field v = Ok (Some (i, d)) ->
  data c !! i = Some d /\ strict_eq (obj_get d field) v = true.
Proof.
  unfold findOne. destruct (is_primitive v); [|discriminate].
  intros H. inversion H as [Hhead]. apply head_In in Hhead.
  apply List.filter_In in Hhead as [Hin Htest]. simpl in Htest.
  split; [now apply rows_for_In in Hin | exact Htest].
Qed.

Lemma findOne_none (c : Collection) (field : string) (v : jsval) :
  is_primitive v = true ->
  Forall (fun d => strict_eq (obj_get d field) v = false) (data c) ->
  findOne c field v = Ok None.
Proof.
  intros Hprim Hnone. unfold findOne. rewrite Hprim. f_equal.
  destruct (List.filter _ _) as [|[i d] rest] eqn:Hfilter; [reflexivity|].
  assert (Hin : In (i, d) (List.filter (fun r => strict_eq (obj_get (snd r) field) v)
                             (rows_for c field))) by (rewrite Hfilter; now left).
  apply List.filter_In in Hin as [Hin Htest]. simpl in Htest.
  apply rows_for_In in Hin. rewrite Forall_forall in Hnone.
  apply list_elem_of_lookup_2, list_elem_of_In in Hin.
  rewrite <- list_elem_of_In in Hin. rewrite (Hnone d) in Htest by exact Hin. discriminate.
Qed.

Lemma findOne_some (c : Collection) (field : string) (v : jsval) :
  is_primitive v = true ->
  Exists (fun d => strict_eq (obj_get d field) v = true) (data c) ->
  exists found, findOne c field v = Ok (Some found).
Proof.
  intros Hprim Hsome. unfold findOne. rewrite Hprim.
  apply Exists_exists in Hsome as (d & Hin & Htest).
  apply list_elem_of_lookup_1 in Hin as [i Hi].
  assert (Hrow : In (i, d) (List.filter (fun r => strict_eq (obj_get (snd r) field) v)
                              (rows_for c field))).
  { apply List.filter_In. split; [now apply rows_for_In | exact Htest]. }
  destruct (List.filter _ _) as [|found rest]; [destruct Hrow|]. simpl. eauto.
Qed.

(** On a collection that declares no sorted index on the field, [findOne]
    scans the documents in their order. *)
Lemma findOne_scan (c : Collection) (field : string) (v : jsval) :
  index_of c field = None -> is_primitive v = true ->
  findOne c field v = Ok (find_index (fun d => strict_eq (obj_get d field) v) (data c)).
Proof.
  intros Hindex Hprim. unfold findOne, rows_for. rewrite Hprim, Hindex.
  rewrite (rows_from_find (fun d => strict_eq (obj_get d field) v)).
  f_equal. destruct (find_index _ _) as [[i d]|]; reflexivity.
Qed.

(** ** Updates of an unknown identifier *)

(** C5: an update under an identifier that no document of the collection
    carries fails with the notFound error, whose message names the
    identifier, and the configuration (every collection of every tenant)
    is the one before the call. *)
Theorem modify_unknown_id_fails
    (config : Config) (baseEntity id : string) (entity : Entity)
    (scimdata : doc) (now : string) (stamp : Z) :
  config !! baseEntity = Some entity ->
  (Forall (fun d => has_id id d = false) (data (users entity)) ->
   modifyUser config baseEntity id scimdata now stamp
   = (Throw (mkError "notFound" ("modifyUser error: user id=" +:+ id +:+ " does not exist")),
      config))
  /\ (Forall (fun d => has_id id d = false) (data (groups entity)) ->
      modifyGroup config baseEntity id scimdata now stamp
      = (Throw (mkError "notFound" ("modifyGroup error: group id=" +:+ id +:+ " does not exist")),
         config))
  /\ (Forall (fun d => has_id id d = false) (data (entitlements entity)) ->
      modifyEntitlement config baseEntity id scimdata stamp
      = (Throw (mkError "notFound"
                  ("modifyEntitlement error: entitlement id=" +:+ id +:+ " does not exist")),
         config)).
Proof.
  intros Hcfg.
  unfold modifyUser, modifyGroup, modifyEntitlement. rewrite Hcfg.
  repeat split; intros Hnone; now rewrite (findOne_none _ "id" (VStr id) eq_refl Hnone).
Qed.

(** ** The index of the unique fields *)

Lemma same_documents_refl (c : Collection) : same_documents c c.
Proof. repeat split. Qed.

Lemma same_documents_trans (c1 c2 c3 : Collection) :
  same_documents c1 c2 -> same_documents c2 c3 -> same_documents c1 c3.
Proof.
  intros (H1 & H2 & H3 & H4 & H5) (G1 & G2 & G3 & G4 & G5).
  repeat split; congruence.
Qed.

Lemma with_index_same (c : Collection) keys values : same_documents c (with_index c keys values).
Proof. repeat split. Qed.

Lemma unique_set_frame (c c' : Collection) (field : string) (loki : Z) (obj : doc) :
  unique_set c field loki obj = Ok c' -> same_documents c c'.
Proof.
  unfold unique_set. destruct (keyed _).
  - destruct (keyMap c !! _); [discriminate|]. intros H. inversion H. apply with_index_same.
  - intros H. inversion H. apply same_documents_refl.
Qed.

Lemma unique_update_frame (c c' : Collection) (field : string) (loki : Z) (obj : doc) :
  unique_update c field loki obj = Ok c' -> same_documents c c'.
Proof.
  unfold unique_update. destruct (negb (_ && _)); [discriminate|].
  destruct (negb (strict_eq _ _)).
  - destruct (unique_set c field loki obj) as [c1|e] eqn:Hset; simpl; [|discriminate].
    intros H. inversion H. apply unique_set_frame in Hset.
    eapply same_documents_trans; [exact Hset | apply with_index_same].
  - intros H. inversion H. apply with_index_same.
Qed.

Lemma unique_remove_frame (c c' : Collection) (field : string) (obj : doc) :
  unique_remove c field obj = Ok c' -> same_documents c c'.
Proof.
  unfold unique_remove. destruct (keyed _).
  - destruct (keyMap c !! _); [|discriminate]. intros H. inversion H. apply with_index_same.
  - intros H. inversion H. apply same_documents_refl.
Qed.

(** The loops over the unique fields write to the index only. *)
Lemma unique_each_frame (step : Collection -> string -> result Collection)
    (fields : list string) (c : Collection) :
  (forall c0 field c1, step c0 field = Ok c1 -> same_documents c0 c1) ->
  same_documents c (snd (unique_each step c fields)).
Proof.
  intros Hstep. revert c. induction fields as [|field fields IH]; intros c; simpl.
  - apply same_documents_refl.
  - destruct (step c field) as [c1|e] eqn:E; simpl; [|apply same_documents_refl].
    eapply same_documents_trans; [eapply Hstep; exact E | apply IH].
Qed.

(** A key that the index holds before an entry is set is held after. *)
Lemma unique_set_keeps (c c' : Collection) (field : string) (loki : Z) (obj : doc)
    (key : string * string) :
  unique_set c field loki obj = Ok c' ->
  is_Some (keyMap c !! key) -> is_Some (keyMap c' !! key).
Proof.
  unfold unique_set. destruct (keyed _).
  - destruct (keyMap c !! (field, _)) eqn:E; [discriminate|].
    intros H Hkey. inversion H. simpl.
    destruct (decide ((field, toString (obj_get obj field)) = key)) as [<- | Hne].
    + rewrite lookup_insert_eq. eauto.
    + now rewrite lookup_insert_ne.
  - intros H. now inversion H.
Qed.

(** On fields whose keys are free, the loop of insert enters every key
    and keeps those it found. *)
Lemma unique_each_set_free (loki : Z) (obj : doc) (fields : list string) (c : Collection) :
  NoDup fields ->
  Forall (fun field => keyMap c !! (field, toString (obj_get obj field)) = None) fields ->
  exists c',
    unique_each (fun c0 field => unique_set c0 field loki obj) c fields = (Ok tt, c')
    /\ same_documents c c'
    /\ (forall key, is_Some (keyMap c !! key) -> is_Some (keyMap c' !! key))
    /\ Forall (fun field => key_held c' field obj) fields.
Proof.
  intros Hnodup. revert c.
  induction Hnodup as [|field fields Hnotin Hnodup IH]; intros c Hfree.
  - exists c. simpl. split; [reflexivity|]. split; [apply same_documents_refl|].
    split; [auto | constructor].
  - inversion Hfree as [|? ? Hfield Hrest]; subst.
    simpl. destruct (unique_set c field loki obj) as [c1|e] eqn:Hset.
    2: { unfold unique_set in Hset. rewrite Hfield in Hset.
         destruct (keyed _); discriminate. }
    assert (Hfree1 : Forall (fun f => keyMap c1 !! (f, toString (obj_get obj f)) = None) fields).
    { rewrite Forall_forall in Hrest |- *. intros f Hf.
      unfold unique_set in Hset. destruct (keyed (obj_get obj field)).
      - rewrite Hfield in Hset. inversion Hset. simpl.
        rewrite lookup_insert_ne; [now apply Hrest|].
        intros Heq. inversion Heq. subst. now apply Hnotin.
      - inversion Hset. subst. now apply Hrest. }
    destruct (IH c1 Hfree1) as (c' & Heach & Hsame & Hkeeps & Hheld).
    exists c'. split; [exact Heach|].
    split; [eapply same_documents_trans; [eapply unique_set_frame; exact Hset | exact Hsame]|].
    split.
    + intros key Hkey. apply Hkeeps. eapply unique_set_keeps; eassumption.
    + constructor; [|exact Hheld].
      intros Hkeyed. apply Hkeeps.
      unfold unique_set in Hset. rewrite Hkeyed, Hfield in Hset. inversion Hset. simpl.
      rewrite lookup_insert_eq. eauto.
Qed.

(** ** The documents as the store writes them *)

Lemma set_meta_other (d : doc) (k key : string) (v : jsval) :
  key <> "meta" -> obj_get (set_meta d k v) key = obj_get d key.
Proof.
  intros Hne. unfold set_meta. destruct (obj_get d "meta"); try reflexivity.
  apply obj_get_set_ne. congruence.
Qed.

Lemma set_meta_meta (d m : doc) (k : string) (v : jsval) :
  obj_get d "meta" = VObj m ->
  obj_get (set_meta d k v) "meta" = VObj (obj_set m k v).
Proof. intros H. unfold set_meta. rewrite H. apply obj_get_set_eq. Qed.

(** What the insert of the store makes of a document that carries
    metadata: it is filed under [newId], its metadata get the version 0,
    the clock of the store as [created] and the revision 0, and nothing
    else is written. *)
Lemma inserted_document (d m : doc) (newId stamp : Z) :
  obj_get d "meta" = VObj m ->
  obj_get (inserted d newId stamp) "meta"
  = VObj (obj_set (obj_set (obj_set m "version" (VNum 0)) "created" (VNum stamp))
            "revision" (VNum 0))
  /\ obj_get (inserted d newId stamp) "$loki" = VNum newId
  /\ (forall k, k <> "meta" -> k <> "$loki" ->
                obj_get (inserted d newId stamp) k = obj_get d k).
Proof.
  intros Hmeta. unfold inserted, identified. rewrite Hmeta.
  assert (H1 : obj_get (obj_set d "$loki" (VNum newId)) "meta" = VObj m)
    by (rewrite obj_get_set_ne by discriminate; exact Hmeta).
  pose proof (set_meta_meta _ _ "version" (VNum 0) H1) as H2.
  pose proof (set_meta_meta _ _ "created" (VNum stamp) H2) as H3.
  split; [now apply set_meta_meta|].
  split.
  - rewrite !set_meta_other by discriminate. apply obj_get_set_eq.
  - intros k Hk Hloki. rewrite !set_meta_other by exact Hk.
    apply obj_get_set_ne. congruence.
Qed.

(** The same for a document without metadata. *)
Lemma inserted_bare_document (d : doc) (newId stamp : Z) :
  obj_get d "meta" = VUndefined ->
  obj_get (inserted d newId stamp) "meta"
  = VObj [("revision", VNum 0); ("created", VNum stamp); ("version", VNum 0)]
  /\ obj_get (inserted d newId stamp) "$loki" = VNum newId
  /\ (forall k, k <> "meta" -> k <> "$loki" ->
                obj_get (inserted d newId stamp) k = obj_get d k).
Proof.
  intros Hmeta. unfold inserted, identified. rewrite Hmeta.
  set (d1 := obj_set d "meta" (VObj [("revision", VNum 0); ("created", VNum 0)])).
  assert (H1 : obj_get (obj_set d1 "$loki" (VNum newId)) "meta"
               = VObj [("revision", VNum 0); ("created", VNum 0)]).
  { rewrite obj_get_set_ne by discriminate. apply obj_get_set_eq. }
  pose proof (set_meta_meta _ _ "version" (VNum 0) H1) as H2.
  pose proof (set_meta_meta _ _ "created" (VNum stamp) H2) as H3.
  split; [rewrite (set_meta_meta _ _ "revision" (VNum 0) H3); reflexivity|].
  split.
  - rewrite !set_meta_other by discriminate. apply obj_get_set_eq.
  - intros k Hk Hloki. rewrite !set_meta_other by exact Hk.
    rewrite obj_get_set_ne by congruence. apply obj_get_set_ne. congruence.
Qed.

Lemma identified_other (d : doc) (newId : Z) (k : string) :
  k <> "meta" -> k <> "$loki" -> obj_get (identified d newId) k = obj_get d k.
Proof.
  intros Hk Hloki. unfold identified. rewrite set_meta_other by exact Hk.
  rewrite obj_get_set_ne by congruence.
  destruct (obj_get d "meta"); try reflexivity. apply obj_get_set_ne. congruence.
Qed.

(** Every document that insert has written is stamped with a number as
    version. *)
Lemma inserted_stamped (d : doc) (newId stamp : Z) :
  obj_get d "meta" = VUndefined \/ (exists m, obj_get d "meta" = VObj m) ->
  stamped (inserted d newId stamp).
Proof.
  intros [Hbare | [m Hmeta]].
  - destruct (inserted_bare_document d newId stamp Hbare) as [H _].
    eexists _, 0. split; [exact H | reflexivity].
  - destruct (inserted_document d m newId stamp Hmeta) as [H _].
    eexists _, 0. split; [exact H|].
    rewrite !obj_get_set_ne by discriminate. apply obj_get_set_eq.
Qed.

(** ** Insert *)

(** What insert answers and leaves: a refusal leaves the documents as
    they were (the index and the last [$loki] issued apart), an acceptance
    appends the stored document. *)
Lemma coll_insert_outcome (c c' : Collection) (stamp : Z) (d : doc) (r : result doc) :
  coll_insert c stamp d = (r, c') ->
  ((exists e, r = Throw e) /\ data c' = data c /\ idIndex c' = idIndex c)
  \/ (r = Ok (inserted d (maxId c + 1) stamp)
      /\ data c' = data c ++ [inserted d (maxId c + 1) stamp]
      /\ idIndex c' = idIndex c ++ [maxId c + 1]
      /\ maxId c' = maxId c + 1
      /\ (obj_get d "meta" = VUndefined \/ exists m, obj_get d "meta" = VObj m)).
Proof.
  unfold coll_insert. intros H.
  assert (Hrefused : forall e, (Throw e, c) = (r, c') ->
            ((exists e, r = Throw e) /\ data c' = data c /\ idIndex c' = idIndex c)
            \/ (r = Ok (inserted d (maxId c + 1) stamp)
                /\ data c' = data c ++ [inserted d (maxId c + 1) stamp]
                /\ idIndex c' = idIndex c ++ [maxId c + 1]
                /\ maxId c' = maxId c + 1
                /\ (obj_get d "meta" = VUndefined \/ exists m, obj_get d "meta" = VObj m))).
  { intros e He. inversion He; subst. left. eauto. }
  destruct (obj_get d "meta") eqn:Hmeta; try (eapply Hrefused; exact H).
  all: destruct (negb (strict_eq (obj_get d "$loki") VUndefined));
    [eapply Hrefused; exact H|].
  all: match type of H with
       | (let (_, _) := unique_each ?step ?start ?fields in _) = _ =>
           pose proof (unique_each_frame step fields start
                         (fun x f y => unique_set_frame x y f _ _)) as Hframe;
           destruct (unique_each step start fields) as [[[]|e] c2]
       end.
  all: simpl in Hframe; destruct Hframe as (Hd & Hi & Hm & Hu & Hb).
  all: inversion H; subst; simpl.
  all: first [ left; split; [eauto|]; split; assumption
             | right; rewrite ?Hm; repeat split; eauto ].
Qed.

Lemma coll_insert_names (c c' : Collection) (stamp : Z) (d : doc) (r : result doc) :
  coll_insert c stamp d = (r, c') ->
  uniqueNames c' = uniqueNames c /\ binaryIndices c' = binaryIndices c.
Proof.
  unfold coll_insert. intros H.
  destruct (obj_get d "meta"); try (inversion H; subst; tauto).
  all: destruct (negb (strict_eq (obj_get d "$loki") VUndefined));
    [inversion H; subst; tauto|].
  all: match type of H with
       | (let (_, _) := unique_each ?step ?start ?fields in _) = _ =>
           pose proof (unique_each_frame step fields start
                         (fun x f y => unique_set_frame x y f _ _)) as Hframe;
           destruct (unique_each step start fields) as [[[]|e] c2]
       end.
  all: simpl in Hframe; destruct Hframe as (Hd & Hi & Hm & Hu & Hb).
  all: inversion H; subst; simpl; tauto.
Qed.

(** A document that is not yet filed, on fields whose keys are free, is
    accepted; the index then holds its keys and those it held. *)
Lemma coll_insert_free (c : Collection) (stamp : Z) (d : doc) :
  obj_get d "meta" = VUndefined \/ (exists m, obj_get d "meta" = VObj m) ->
  obj_get d "$loki" = VUndefined ->
  NoDup (uniqueNames c) ->
  Forall (fun field =>
            keyMap c !! (field, toString (obj_get (identified d (maxId c + 1)) field)) = None)
         (uniqueNames c) ->
  exists c',
    coll_insert c stamp d = (Ok (inserted d (maxId c + 1) stamp), c')
    /\ data c' = data c ++ [inserted d (maxId c + 1) stamp]
    /\ (forall key, is_Some (keyMap c !! key) -> is_Some (keyMap c' !! key))
    /\ Forall (fun field => key_held c' field (identified d (maxId c + 1))) (uniqueNames c).
Proof.
  intros Hmeta Hloki Hnodup Hfree. unfold coll_insert. rewrite Hloki. simpl.
  set (c1 := mkCollection (data c) (idIndex c) (maxId c + 1) (uniqueNames c)
               (keyMap c) (lokiMap c) (binaryIndices c)).
  destruct (unique_each_set_free (maxId c + 1) (identified d (maxId c + 1))
              (uniqueNames c) c1 Hnodup Hfree) as (c2 & Heach & Hsame & Hkeeps & Hheld).
  exists (with_data c2 (data c ++ [inserted d (maxId c + 1) stamp])
            (idIndex c ++ [maxId c + 1])).
  destruct Hmeta as [-> | [m ->]]; rewrite Heach; repeat split; try assumption.
Qed.

(** ** Creation *)

(** A creation that succeeds has found the tenant and no document with
    the value of the mandatory attribute, and returns what the insert of
    the store has made of the payload with its identifier and metadata. *)
Lemma create_succeeds action noun field resourceType collection set
    (config config' : Config) (baseEntity : string) (scimdata record : doc)
    (uuid created lastModified : string) (stamp : Z) :
  create action noun field resourceType collection set config baseEntity scimdata
    uuid created lastModified stamp = (Ok record, config') ->
  exists entity c',
    config !! baseEntity = Some entity
    /\ findOne (collection entity) field (obj_get scimdata field) = Ok None
    /\ coll_insert (collection entity) stamp
         (obj_set (obj_set scimdata "id" (VStr uuid)) "meta"
            (freshMeta resourceType created lastModified)) = (Ok record, c')
    /\ config' = <[baseEntity := set entity c']> config.
Proof.
  unfold create. intros H.
  destruct (config !! baseEntity) as [entity|]; [|discriminate].
  destruct (negb (truthy (obj_get scimdata field))); [discriminate|].
  destruct (findOne _ _ _) as [[found|]|e] eqn:Hfind; try discriminate.
  destruct (coll_insert _ _ _) as [stored c'] eqn:Hinsert.
  inversion H; subst. exists entity, c'. auto.
Qed.

(** The metadata of a record that a creation returns: the resource type
    and [lastModified] of the object literal, and the version and
    [created] that the insert of the store has written over those of the
    literal. *)
Lemma create_metadata action noun field resourceType collection set
    (config config' : Config) (baseEntity : string) (scimdata record : doc)
    (uuid created lastModified : string) (stamp : Z) :
  create action noun field resourceType collection set config baseEntity scimdata
    uuid created lastModified stamp = (Ok record, config') ->
  exists entity c' meta,
    config !! baseEntity = Some entity
    /\ config' = <[baseEntity := set entity c']> config
    /\ data c' = data (collection entity) ++ [record]
    /\ uniqueNames c' = uniqueNames (collection entity)
    /\ binaryIndices c' = binaryIndices (collection entity)
    /\ obj_get record "id" = VStr uuid
    /\ (forall k, k <> "id" -> k <> "meta" -> k <> "$loki" ->
                  obj_get record k = obj_get scimdata k)
    /\ obj_get record "meta" = VObj meta
    /\ obj_get meta "resourceType" = VStr resourceType
    /\ obj_get meta "lastModified" = VStr lastModified
    /\ obj_get meta "created" = VNum stamp
    /\ obj_get meta "version" = VNum 0.
Proof.
  intros H. apply create_succeeds in H as (entity & c' & Hcfg & _ & Hinsert & ->).
  set (payload := obj_set (obj_set scimdata "id" (VStr uuid)) "meta"
                    (freshMeta resourceType created lastModified)) in *.
  assert (Hmeta : obj_get payload "meta" = freshMeta resourceType created lastModified)
    by apply obj_get_set_eq.
  destruct (coll_insert_names _ _ _ _ _ Hinsert) as [Hnames Hindices].
  apply coll_insert_outcome in Hinsert as [[[e He] _] | (Hrecord & Hdata & _)];
    [discriminate|].
  inversion Hrecord; subst record.
  destruct (inserted_document payload _ (maxId (collection entity) + 1) stamp Hmeta)
    as (Hm & _ & Hother).
  exists entity, c'. eexists. split; [exact Hcfg|]. split; [reflexivity|].
  split; [exact Hdata|]. split; [exact Hnames|]. split; [exact Hindices|].
  split.
  { rewrite Hother by discriminate. unfold payload.
    rewrite obj_get_set_ne by discriminate. apply obj_get_set_eq. }
  split.
  { intros k Hid Hk Hloki. rewrite Hother by assumption. unfold payload.
    rewrite !obj_get_set_ne by congruence. reflexivity. }
  split; [exact Hm|]. repeat split.
Qed.

(** C6: when some stored user has the login name of the payload (the
    same string, not empty), [createUser] fails with the uniqueness error,
    whose message names that login name, and the configuration is the one
    before the call. When no stored user has it, the payload is not yet a
    document of the store and the index of the unique fields holds no key
    for the new identifier nor for the login name, [createUser] succeeds.
    A [createUser] that succeeds stores the record it returns behind the
    users there were, with the login name of the payload and the new
    identifier; its metadata hold the second clock reading as
    lastModified, but the clock of the store, a number, as created and the
    number 0 as version: the insert of the store has written over the
    created and the version tag numbered 1 of the object literal. *)
Theorem createUser_existing_userName
    (config : Config) (baseEntity : string) (entity : Entity) (scimdata : doc)
    (login uuid created lastModified : string) (stamp : Z) :
  config !! baseEntity = Some entity ->
  obj_get scimdata "userName" = VStr login ->
  login <> "" ->
  (Exists (fun d => obj_get d "userName" = VStr login) (data (users entity)) ->
   createUser config baseEntity scimdata uuid created lastModified stamp
   = (Throw (mkError "uniqueness"
               ("createUser error: user with userName '" +:+ login +:+ "' already exists")),
      config))
  /\ (Forall (fun d => strict_eq (obj_get d "userName") (VStr login) = false)
        (data (users entity)) ->
      obj_get scimdata "$loki" = VUndefined ->
      uniqueNames (users entity) = ["id"; "userName"] ->
      keyMap (users entity) !! ("id", uuid) = None ->
      keyMap (users entity) !! ("userName", login) = None ->
      exists record config',
        createUser config baseEntity scimdata uuid created lastModified stamp
        = (Ok record, config'))
  /\ (forall record config',
         createUser config baseEntity scimdata uuid created lastModified stamp
         = (Ok record, config') ->
         exists meta users',
           config' = <[baseEntity := set_users entity users']> config
           /\ data users' = data (users entity) ++ [record]
           /\ obj_get record "userName" = VStr login
           /\ obj_get record "id" = VStr uuid
           /\ obj_get record "meta" = VObj meta
           /\ obj_get meta "resourceType" = VStr "User"
           /\ obj_get meta "lastModified" = VStr lastModified
           /\ obj_get meta "created" = VNum stamp
           /\ obj_get meta "version" = VNum 0).
Proof.
  intros Hcfg Hname Hne.
  assert (Htruthy : negb (truthy (VStr login)) = false).
  { apply String.eqb_neq in Hne. simpl. now rewrite Hne. }
  split; [|split].
  - intros Hex. unfold createUser, create. rewrite Hcfg, Hname, Htruthy.
    destruct (findOne_some (users entity) "userName" (VStr login) eq_refl) as [found ->].
    { eapply Exists_impl; [exact Hex|]. simpl. intros d ->. simpl.
      apply String.eqb_refl. }
    reflexivity.
  - intros Hnone Hloki Hunique Hid Hlogin.
    unfold createUser, create. rewrite Hcfg, Hname, Htruthy.
    rewrite (findOne_none _ "userName" (VStr login) eq_refl Hnone).
    set (payload := obj_set (obj_set scimdata "id" (VStr uuid)) "meta"
                      (freshMeta "User" created lastModified)).
    destruct (coll_insert_free (users entity) stamp payload) as (c' & Hinsert & _).
    + right. eexists. apply obj_get_set_eq.
    + unfold payload. rewrite !obj_get_set_ne by discriminate. exact Hloki.
    + rewrite Hunique. apply (bool_decide_unpack _). reflexivity.
    + rewrite Hunique. repeat constructor.
      * rewrite identified_other by discriminate. unfold payload.
        rewrite obj_get_set_ne by discriminate. rewrite obj_get_set_eq. exact Hid.
      * rewrite identified_other by discriminate. unfold payload.
        rewrite !obj_get_set_ne by discriminate. rewrite Hname. exact Hlogin.
    + rewrite Hinsert. eauto.
  - intros record config' Hcreate.
    apply create_metadata in Hcreate
      as (entity' & c' & meta & Hcfg' & -> & Hdata & _ & _ & Hid & Hother & Hmeta & Hrest).
    rewrite Hcfg in Hcfg'. inversion Hcfg'; subst entity'.
    exists meta, c'. split; [reflexivity|]. split; [exact Hdata|].
    split; [rewrite Hother by discriminate; exact Hname|].
    split; [exact Hid|]. split; [exact Hmeta|]. exact Hrest.
Qed.
(** ** Entitlement grants under a patch *)

Lemma arr_find_grants (v : string) (cb : jsval -> result bool) (granted : list jsval) :
  (forall o, cb (VObj o) = Ok (strict_eq (obj_get o "value") (VStr v))) ->
  Forall (fun g => is_object g = true) granted ->
  arr_find cb granted = Ok (List.find (grants_value v) granted).
Proof.
  intros Hcb. induction 1 as [|g granted Hg _ IH]; simpl; [reflexivity|].
  destruct g; try discriminate. rewrite Hcb. simpl.
  destruct (strict_eq (obj_get props "value") (VStr v)); [reflexivity | exact IH].
Qed.

Lemma arr_filter_grants (v : string) (cb : jsval -> result bool) (granted : list jsval) :
  (forall o, cb (VObj o) = Ok (negb (strict_eq (obj_get o "value") (VStr v)))) ->
  Forall (fun g => is_object g = true) granted ->
  arr_filter cb granted = Ok (List.filter (fun g => negb (grants_value v g)) granted).
Proof.
  intros Hcb. induction 1 as [|g granted Hg _ IH]; simpl; [reflexivity|].
  destruct g; try discriminate. rewrite Hcb, IH. simpl.
  destruct (strict_eq (obj_get props "value") (VStr v)); reflexivity.
Qed.

Lemma find_has_grant (v : string) (granted : list jsval) :
  Forall (fun g => is_object g = true) granted ->
  truthy (default VUndefined (List.find (grants_value v) granted)) = has_grant v granted.
Proof.
  unfold has_grant. induction 1 as [|g granted Hg _ IH]; simpl; [reflexivity|].
  destruct (grants_value v g) eqn:E; simpl; [|exact IH].
  destruct g; try discriminate. reflexivity.
Qed.

Lemma Forall_list_filter {A : Type} (P : A -> Prop) (f : A -> bool) (l : list A) :
  Forall P l -> Forall P (List.filter f l).
Proof.
  induction 1 as [|x l Hx _ IH]; simpl; [constructor|].
  destruct (f x); [constructor|]; assumption.
Qed.

Lemma grantsOf_set (user : doc) (granted : list jsval) :
  grantsOf (obj_set user "entitlements" (VArr granted)) = granted.
Proof. unfold grantsOf. now rewrite obj_get_set_eq. Qed.

Lemma filter_no_grant (v : string) (granted : list jsval) :
  has_grant v granted = false ->
  List.filter (fun g => negb (grants_value v g)) granted = granted.
Proof.
  unfold has_grant. induction granted as [|g granted IH]; simpl; [reflexivity|].
  intros H. apply orb_false_elim in H as [Hg Hrest].
  rewrite Hg. simpl. f_equal. now apply IH.
Qed.

(** One well-formed entry on a well-formed user: the step succeeds, writes
    to the entitlements property only and makes [stepGrants] of the grants;
    it returns the user as it was when the entry is an add of a value
    already granted, a remove of a value not granted, or another
    operation. *)
Lemma entitlementStep_entry (user : doc) (en : Entry) :
  grants_wf user ->
  exists user',
    entitlementStep user (entryObj en) = Ok user'
    /\ grants_wf user'
    /\ grantsOf user' = stepGrants (grantsOf user) en
    /\ (forall k, k <> "entitlements" -> obj_get user' k = obj_get user k)
    /\ (has_grant (entryValue en) (grantsOf user) = true ->
        String.eqb (entryOperation en) "remove" = false -> user' = user)
    /\ (has_grant (entryValue en) (grantsOf user) = false ->
        String.eqb (entryOperation en) "add" = false -> user' = user)
    /\ (has_grant (entryValue en) (grantsOf user) = false ->
        String.eqb (entryOperation en) "add" = true ->
        user' = obj_set user "entitlements" (VArr (grantsOf user ++ [grantOf en]))).
Proof.
  intros [Hshape Hobjs].
  unfold entitlementStep, stepGrants.
  cbn [entryObj getProp obj_get String.eqb Ascii.eqb Bool.eqb bind strict_eq].
  destruct (String.eqb (entryOperation en) "add") eqn:Eadd.
  - (* add *)
    destruct Hshape as [Habsent | [granted Harr]].
    + assert (Hg : grantsOf user = []) by (unfold grantsOf; now rewrite Habsent).
      rewrite Habsent in *. cbn [truthy]. rewrite obj_get_set_eq. simpl.
      rewrite Hg. simpl.
      exists (obj_set user "entitlements" (VArr [grantOf en])).
      rewrite obj_set_set. split; [reflexivity|].
      split.
      { split; [right; eexists; apply obj_get_set_eq|].
        rewrite grantsOf_set. repeat constructor. }
      split; [apply grantsOf_set|].
      split; [intros k Hk; now apply obj_get_set_ne|].
      repeat split; try discriminate; reflexivity.
    + assert (Hg : grantsOf user = granted) by (unfold grantsOf; now rewrite Harr).
      rewrite Hg in *. rewrite Harr. cbn [truthy].
      rewrite Harr.
      rewrite (arr_find_grants (entryValue en)) by (intros; reflexivity || assumption).
      cbn [bind]. rewrite find_has_grant by assumption.
      destruct (has_grant (entryValue en) granted) eqn:Ehas.
      * exists user. split; [reflexivity|].
        split; [split; [right; eauto | now rewrite Hg]|].
        split; [exact Hg|]. split; [reflexivity|].
        repeat split; try discriminate; reflexivity.
      * exists (obj_set user "entitlements" (VArr (granted ++ [grantOf en]))).
        split; [reflexivity|].
        split.
        { split; [right; eexists; apply obj_get_set_eq|].
          rewrite grantsOf_set. apply Forall_app. split; [assumption|].
          repeat constructor. }
        split; [apply grantsOf_set|].
        split; [intros k Hk; now apply obj_get_set_ne|].
        repeat split; try discriminate; reflexivity.
  - (* not add *)
    destruct (String.eqb (entryOperation en) "remove") eqn:Eremove.
    + destruct Hshape as [Habsent | [granted Harr]].
      * assert (Hg : grantsOf user = []) by (unfold grantsOf; now rewrite Habsent).
        rewrite Habsent. cbn [truthy]. exists user. rewrite Hg. simpl.
        split; [reflexivity|].
        split; [split; [now left | now rewrite Hg]|].
        repeat split; try discriminate; reflexivity.
      * assert (Hg : grantsOf user = granted) by (unfold grantsOf; now rewrite Harr).
        rewrite Hg in *. rewrite Harr. cbn [truthy].
        rewrite (arr_filter_grants (entryValue en)) by (intros; reflexivity || assumption).
        cbn [bind].
        eexists. split; [reflexivity|].
        split.
        { split; [right; eexists; apply obj_get_set_eq|].
          rewrite grantsOf_set. now apply Forall_list_filter. }
        split; [apply grantsOf_set|].
        split; [intros k Hk; now apply obj_get_set_ne|].
        repeat split; try discriminate.
        intros Hnone _. rewrite filter_no_grant by assumption.
        now apply obj_set_same.
    + exists user. split; [reflexivity|].
      split; [split; assumption|].
      repeat split; try discriminate; reflexivity.
Qed.

Lemma entitlementLoop_entries (entries : list Entry) (user : doc) :
  grants_wf user ->
  exists user',
    entitlementLoop user (map entryObj entries) = (Ok tt, user')
    /\ grants_wf user'
    /\ grantsOf user' = fold_left stepGrants entries (grantsOf user)
    /\ (forall k, k <> "entitlements" -> obj_get user' k = obj_get user k).
Proof.
  revert user. induction entries as [|en entries IH]; intros user Hwf.
  - exists user. simpl. auto.
  - destruct (entitlementStep_entry user en Hwf)
      as (user1 & Hstep & Hwf1 & Hgrants & Hother & _).
    destruct (IH user1 Hwf1) as (user' & Hloop & Hwf' & Hgrants' & Hother').
    exists user'. cbn [map entitlementLoop]. rewrite Hstep.
    split; [exact Hloop|]. split; [exact Hwf'|].
    split; [simpl; now rewrite <- Hgrants|].
    intros k Hk. rewrite Hother' by exact Hk. now apply Hother.
Qed.

Lemma strict_eq_VStr (x : jsval) (s : string) :
  strict_eq x (VStr s) = true -> x = VStr s.
Proof.
  destruct x; simpl; try discriminate.
  intros H. apply String.eqb_eq in H. now subst.
Qed.

Lemma grants_value_distinct (v w : string) (g : jsval) :
  v <> w -> grants_value w g = true -> grants_value v g = false.
Proof.
  intros Hne. destruct g; simpl; try discriminate.
  intros H. apply strict_eq_VStr in H. rewrite H. simpl.
  apply String.eqb_neq. congruence.
Qed.

Lemma has_grant_app (v : string) (l1 l2 : list jsval) :
  has_grant v (l1 ++ l2) = has_grant v l1 || has_grant v l2.
Proof. apply existsb_app. Qed.

Lemma has_grant_filter_same (v : string) (granted : list jsval) :
  has_grant v (List.filter (fun g => negb (grants_value v g)) granted) = false.
Proof.
  induction granted as [|g granted IH]; simpl; [reflexivity|].
  destruct (grants_value v g) eqn:E; simpl; [exact IH|].
  now rewrite E.
Qed.

Lemma has_grant_filter_other (v w : string) (granted : list jsval) :
  v <> w ->
  has_grant v (List.filter (fun g => negb (grants_value w g)) granted) = has_grant v granted.
Proof.
  intros Hne. induction granted as [|g granted IH]; simpl; [reflexivity|].
  destruct (grants_value w g) eqn:E; simpl.
  - rewrite (grants_value_distinct v w g Hne E). exact IH.
  - now rewrite IH.
Qed.

(** A step decides whether [v] is granted when it is an add or a remove
    of [v], and leaves that as it was otherwise. *)
Lemma has_grant_step (v : string) (granted : list jsval) (en : Entry) :
  has_grant v (stepGrants granted en)
  = if String.eqb (entryValue en) v
    then if String.eqb (entryOperation en) "add" then true
         else if String.eqb (entryOperation en) "remove" then false
              else has_grant v granted
    else has_grant v granted.
Proof.
  unfold stepGrants.
  destruct (String.eqb (entryValue en) v) eqn:Ev.
  - apply String.eqb_eq in Ev. subst v.
    destruct (String.eqb (entryOperation en) "add").
    + destruct (has_grant (entryValue en) granted) eqn:Eh; [exact Eh|].
      rewrite has_grant_app, Eh. simpl. now rewrite String.eqb_refl.
    + destruct (String.eqb (entryOperation en) "remove"); [|reflexivity].
      apply has_grant_filter_same.
  - apply String.eqb_neq in Ev.
    destruct (String.eqb (entryOperation en) "add").
    + destruct (has_grant (entryValue en) granted); [reflexivity|].
      rewrite has_grant_app. simpl.
      apply String.eqb_neq in Ev. rewrite Ev. simpl. now rewrite orb_false_r.
    + destruct (String.eqb (entryOperation en) "remove"); [|reflexivity].
      apply has_grant_filter_other. congruence.
Qed.

Lemma has_grant_fold_other (v : string) (entries : list Entry) (granted : list jsval) :
  Forall (fun e => entryValue e <> v) entries ->
  has_grant v (fold_left stepGrants entries granted) = has_grant v granted.
Proof.
  intros H. revert granted. induction H as [|en entries Hen _ IH]; intros granted.
  - reflexivity.
  - simpl. rewrite IH, has_grant_step.
    apply String.eqb_neq in Hen. now rewrite Hen.
Qed.

Lemma count_grants_none (v : string) (granted : list jsval) :
  has_grant v granted = false -> count_grants v granted = 0%nat.
Proof.
  unfold has_grant, count_grants.
  induction granted as [|g granted IH]; simpl; [reflexivity|].
  intros H. apply orb_false_elim in H as [Hg Hrest]. rewrite Hg. now apply IH.
Qed.


(** ** Version tags *)

(** ** Version tags *)

Example nextVersion_1 : nextVersion (VStr (weakTag "1")) = Ok (weakTag "2").
Proof. reflexivity. Qed.
Example nextVersion_absent : nextVersion VUndefined = Ok (weakTag "1").
Proof. reflexivity. Qed.
Example nextVersion_abc : nextVersion (VStr (weakTag "abc")) = Ok (weakTag "NaN").
Proof. reflexivity. Qed.
Example nextVersion_hex : nextVersion (VStr (weakTag "0x1f")) = Ok (weakTag "32").
Proof. reflexivity. Qed.
Example nextVersion_neg : nextVersion (VStr "-3") = Ok (weakTag "-2").
Proof. reflexivity. Qed.
Example nextVersion_stored : nextVersion (VNum 0) = Throw (typeError "version.replace is not a function").
Proof. reflexivity. Qed.

Lemma dec_prefix_digits (u : Decimal.uint) :
  dec_prefix (DecimalString.NilEmpty.string_of_uint u) = u.
Proof. induction u; simpl; congruence. Qed.

Lemma strip_quote_digits (u : Decimal.uint) :
  replace_first dq "" (DecimalString.NilEmpty.string_of_uint u +:+ dq)
  = DecimalString.NilEmpty.string_of_uint u.
Proof. induction u; simpl; [reflexivity | congruence ..]. Qed.

Lemma strip_opening (s : string) :
  replace_first ("W/" +:+ dq) "" (weakTag s) = s +:+ dq.
Proof. reflexivity. Qed.

Lemma digits_not_empty (u : Decimal.uint) :
  u <> Decimal.Nil -> String.eqb (DecimalString.NilEmpty.string_of_uint u) "" = false.
Proof. destruct u; simpl; congruence. Qed.

Ltac eval_is_space :=
  repeat match goal with
         | |- context [is_space ?c] =>
             let b := eval vm_compute in (is_space c) in change (is_space c) with b
         end.

Lemma parseInt_digits (u : Decimal.uint) :
  u <> Decimal.Nil ->
  parseInt (DecimalString.NilEmpty.string_of_uint u) = Some (Z.of_uint u).
Proof.
  intros Hu. unfold parseInt.
  destruct u as [|u|u|u|u|u|u|u|u|u|u]; [congruence|..];
    cbn [DecimalString.NilEmpty.string_of_uint trim_start]; eval_is_space; cbn iota;
    cbn [starts_with drop_chars Ascii.eqb Bool.eqb orb andb];
    try (cbn [dec_prefix dec_digit]; rewrite dec_prefix_digits; reflexivity).
  destruct u; cbn [DecimalString.NilEmpty.string_of_uint starts_with Ascii.eqb Bool.eqb orb andb];
    cbn [dec_prefix dec_digit]; rewrite ?dec_prefix_digits; reflexivity.
Qed.

Lemma nextVersion_digits (u : Decimal.uint) :
  u <> Decimal.Nil ->
  Z.of_uint u < 2 ^ 53 ->
  nextVersion (VStr (weakTag (DecimalString.NilEmpty.string_of_uint u)))
  = Ok (weakTag (string_of_Z (Z.of_uint u + 1))).
Proof.
  intros Hu Hbound. unfold nextVersion. cbn [bind].
  rewrite strip_opening, strip_quote_digits.
  unfold js_or. cbn [truthy]. rewrite digits_not_empty by exact Hu.
  cbn [negb toString]. rewrite parseInt_digits by exact Hu.
  assert (Hpos : 0 <= Z.of_uint u) by (unfold Z.of_uint; lia).
  destruct (Z.ltb_spec (- 2 ^ 53) (Z.of_uint u)); [|lia].
  destruct (Z.ltb_spec (Z.of_uint u) (2 ^ 53)); [reflexivity | lia].
Qed.

(** The tag numbered [n] becomes the tag numbered [n + 1], as far as
    numbers are followed. *)
Lemma nextVersion_number (n : Z) :
  0 <= n < 2 ^ 53 ->
  nextVersion (VStr (weakTag (string_of_Z n))) = Ok (weakTag (string_of_Z (n + 1))).
Proof.
  intros Hn. destruct n as [|p|p]; [reflexivity| |lia].
  unfold string_of_Z at 1. cbn [Z.to_int DecimalString.NilZero.string_of_int].
  pose proof (DecimalPos.Unsigned.to_uint_nonnil p) as Hnil.
  replace (DecimalString.NilZero.string_of_uint (Pos.to_uint p))
    with (DecimalString.NilEmpty.string_of_uint (Pos.to_uint p))
    by (destruct (Pos.to_uint p); [congruence | reflexivity ..]).
  assert (Hof : Z.of_uint (Pos.to_uint p) = Z.pos p).
  { unfold Z.of_uint. now rewrite DecimalPos.Unsigned.of_to. }
  rewrite nextVersion_digits; [now rewrite Hof | exact Hnil | rewrite Hof; lia].
Qed.

(** ** Updates *)

Lemma assignKeys_keeps (target scimdata : doc) (k : string) :
  k = "id" \/ k = "meta" ->
  obj_get (assignKeys target scimdata) k = obj_get target k.
Proof.
  intros Hk. unfold assignKeys.
  generalize (obj_keys scimdata) as keys. intros keys. revert target.
  induction keys as [|key keys IH]; intros target; simpl; [reflexivity|].
  rewrite IH.
  destruct (String.eqb key "id") eqn:Eid; simpl; [reflexivity|].
  destruct (String.eqb key "meta") eqn:Emeta; simpl; [reflexivity|].
  apply obj_get_set_ne.
  apply String.eqb_neq in Eid, Emeta. destruct Hk; congruence.
Qed.

Lemma entitlementStep_other_keys (user user' : doc) (entry : jsval) (k : string) :
  entitlementStep user entry = Ok user' ->
  k <> "entitlements" -> obj_get user' k = obj_get user k.
Proof.
  intros Hstep Hk. unfold entitlementStep in Hstep.
  assert (Hset : forall u v, obj_get (obj_set u "entitlements" v) k = obj_get u k).
  { intros. apply obj_get_set_ne. congruence. }
  destruct (getProp entry "operation") as [operation|]; simpl in Hstep; [|discriminate].
  destruct (strict_eq operation (VStr "add")).
  - destruct (truthy (obj_get user "entitlements")).
    + destruct (obj_get user "entitlements"); try discriminate.
      destruct (arr_find _ _) as [existing|]; simpl in Hstep; [|discriminate].
      destruct (truthy (default VUndefined existing)).
      * now inversion Hstep.
      * repeat (destruct (getProp entry _); simpl in Hstep; [|discriminate]).
        inversion Hstep. apply Hset.
    + rewrite obj_get_set_eq in Hstep. simpl in Hstep.
      repeat (destruct (getProp entry _); simpl in Hstep; [|discriminate]).
      inversion Hstep. rewrite Hset. apply Hset.
  - destruct (strict_eq operation (VStr "remove")); [|now inversion Hstep].
    destruct (truthy (obj_get user "entitlements")); [|now inversion Hstep].
    destruct (obj_get user "entitlements"); try discriminate.
    destruct (arr_filter _ _) as [kept|]; simpl in Hstep; [|discriminate].
    inversion Hstep. apply Hset.
Qed.

Lemma entitlementLoop_other_keys (entries : list jsval) (user user' : doc)
    (r : result unit) (k : string) :
  entitlementLoop user entries = (r, user') ->
  k <> "entitlements" -> obj_get user' k = obj_get user k.
Proof.
  revert user. induction entries as [|entry entries IH]; intros user Hloop Hk.
  - simpl in Hloop. now inversion Hloop.
  - simpl in Hloop.
    destruct (entitlementStep user entry) as [user1|e] eqn:Hstep.
    + rewrite (IH user1 Hloop Hk). eapply entitlementStep_other_keys; eassumption.
    + now inversion Hloop.
Qed.

Lemma assignKeys_absent (target scimdata : doc) (k : string) :
  ~ In k (obj_keys scimdata) ->
  obj_get (assignKeys target scimdata) k = obj_get target k.
Proof.
  intros Hnot. unfold assignKeys.
  revert target. induction (obj_keys scimdata) as [|key keys IH]; intros target; simpl;
    [reflexivity|].
  rewrite IH by (intros H; apply Hnot; now right).
  destruct (negb (String.eqb key "id") && negb (String.eqb key "meta")); [|reflexivity].
  apply obj_get_set_ne. intros ->. apply Hnot. now left.
Qed.

Lemma obj_delete_keys (o : doc) (k : string) : ~ In k (obj_keys (obj_delete o k)).
Proof.
  unfold obj_keys, obj_delete. induction o as [|[k0 v0] o IH]; simpl; [tauto|].
  destruct (String.eqb k0 k) eqn:E; simpl; [exact IH|].
  intros [H | H]; [|tauto]. apply String.eqb_neq in E. congruence.
Qed.

Lemma stampMeta_other_keys (record record' : doc) (now : string) (r : result unit)
    (k : string) :
  stampMeta record now = (r, record') -> k <> "meta" ->
  obj_get record' k = obj_get record k.
Proof.
  intros Hstamp Hk. unfold stampMeta in Hstamp.
  assert (Hset : forall v, obj_get (obj_set record "meta" v) k = obj_get record k).
  { intros. apply obj_get_set_ne. congruence. }
  destruct (truthy (obj_get record "meta")); [|now inversion Hstamp].
  destruct (obj_get record "meta"); try (now inversion Hstamp).
  destruct (nextVersion _); inversion Hstamp; apply Hset.
Qed.


(** ** The update of the store *)

Lemma updateMeta_other (d d' : doc) (stamp : Z) (k : string) :
  updateMeta d stamp = Ok d' -> k <> "meta" -> obj_get d' k = obj_get d k.
Proof.
  unfold updateMeta. intros H Hk.
  destruct (obj_get d "meta"); try discriminate.
  destruct (obj_get props "revision"); try discriminate.
  inversion H. now rewrite !set_meta_other.
Qed.

(** The bookkeeping of an update: [meta.updated] is the clock of the
    store and [meta.revision] has gone up by one. *)
Lemma updateMeta_meta (d d' : doc) (stamp : Z) :
  updateMeta d stamp = Ok d' ->
  exists m r,
    obj_get d "meta" = VObj m
    /\ obj_get m "revision" = VNum r
    /\ obj_get d' "meta"
       = VObj (obj_set (obj_set m "updated" (VNum stamp)) "revision" (VNum (r + 1))).
Proof.
  unfold updateMeta. intros H.
  destruct (obj_get d "meta") eqn:Hmeta; try discriminate.
  destruct (obj_get props "revision") eqn:Hrev; try discriminate.
  inversion H. exists props, n. split; [reflexivity|]. split; [exact Hrev|].
  apply set_meta_meta. now apply set_meta_meta.
Qed.

(** What an update answers and leaves: position [i] holds the document as
    the store has stamped it when the update succeeds, and the document
    as the caller wrote it when the update throws; no other document is
    touched. *)
Lemma coll_update_outcome (c c' : Collection) (stamp : Z) (i : nat) (d : doc)
    (r : result doc) :
  coll_update c stamp i d = (r, c') ->
  exists d',
    data c' = <[i := d']> (data c)
    /\ idIndex c' = idIndex c /\ maxId c' = maxId c
    /\ uniqueNames c' = uniqueNames c /\ binaryIndices c' = binaryIndices c
    /\ ((r = Ok d' /\ updateMeta d stamp = Ok d') \/ ((exists e, r = Throw e) /\ d' = d)).
Proof.
  unfold coll_update. intros H.
  assert (Hwritten : forall e, (Throw e, with_data c (<[i := d]> (data c)) (idIndex c)) = (r, c') ->
            exists d',
              data c' = <[i := d']> (data c)
              /\ idIndex c' = idIndex c /\ maxId c' = maxId c
              /\ uniqueNames c' = uniqueNames c /\ binaryIndices c' = binaryIndices c
              /\ ((r = Ok d' /\ updateMeta d stamp = Ok d') \/ ((exists e, r = Throw e) /\ d' = d))).
  { intros e He. inversion He; subst. exists d. simpl. repeat split; eauto. }
  destruct (negb (existsb _ _)); [eapply Hwritten; exact H|].
  destruct (obj_get d "$loki") as [| | |loki| | | |]; try (eapply Hwritten; exact H).
  destruct (negb (bool_decide _)); [eapply Hwritten; exact H|].
  match type of H with
  | (let (_, _) := unique_each ?step ?start ?fields in _) = _ =>
      pose proof (unique_each_frame step fields start
                    (fun x f y => unique_update_frame x y f _ _)) as Hframe;
      destruct (unique_each step start fields) as [[[]|e] c1]
  end; destruct Hframe as (Hd & Hi & Hm & Hu & Hb); unfold with_data in Hd, Hi, Hm, Hu, Hb;
    cbn [snd data idIndex maxId uniqueNames binaryIndices] in Hd, Hi, Hm, Hu, Hb.
  - destruct (updateMeta d stamp) as [d'|e] eqn:Hstampd; inversion H; subst;
      unfold with_data; cbn [data idIndex maxId uniqueNames binaryIndices].
    + exists d'. rewrite Hd, list_insert_insert_eq. repeat split; auto.
    + exists d. repeat split; eauto.
  - inversion H; subst. exists d. repeat split; eauto.
Qed.

(** ** Finding a document *)

Lemma rows_from_filter_last (p : doc -> bool) (n : nat) (l : list doc) (d : doc) :
  Forall (fun x => p x = false) l -> p d = true ->
  List.filter (fun r => p (snd r)) (rows_from n (l ++ [d])) = [((n + length l)%nat, d)].
Proof.
  intros Hl Hd. revert n. induction Hl as [|x l Hx _ IH]; intros n; simpl.
  - rewrite Hd. now rewrite Nat.add_0_r.
  - rewrite Hx, IH. do 2 f_equal. lia.
Qed.

(** A document appended to documents of which none holds the value is
    the one that [findOne] finds for it. *)
Lemma findOne_last (c : Collection) (field : string) (v : jsval) (l : list doc) (d : doc) :
  is_primitive v = true ->
  data c = l ++ [d] ->
  Forall (fun x => strict_eq (obj_get x field) v = false) l ->
  strict_eq (obj_get d field) v = true ->
  findOne c field v = Ok (Some (length l, d)).
Proof.
  intros Hprim Hdata Hl Hd. unfold findOne. rewrite Hprim.
  pose proof (list_filter_Permutation (fun r => strict_eq (obj_get (snd r) field) v)
                _ _ (rows_for_Permutation c field)) as Hperm.
  rewrite Hdata in Hperm.
  rewrite (rows_from_filter_last (fun x => strict_eq (obj_get x field) v)) in Hperm
    by assumption.
  apply Permutation_singleton_r in Hperm. now rewrite Hperm.
Qed.

(** ** The metadata block on a stored document *)

(** On a document whose version is a number, as the insert of the store
    leaves it, the metadata block writes lastModified and then throws:
    a number has no [replace]. *)
Lemma stampMeta_stamped (record m : doc) (n : Z) (now : string) :
  obj_get record "meta" = VObj m ->
  obj_get m "version" = VNum n ->
  stampMeta record now
  = (Throw (typeError "version.replace is not a function"),
     obj_set record "meta" (VObj (obj_set m "lastModified" (VStr now)))).
Proof.
  intros Hmeta Hversion. unfold stampMeta. rewrite Hmeta. cbn [truthy].
  rewrite obj_get_set_ne by discriminate. rewrite Hversion. reflexivity.
Qed.

(** On a version tag numbered [n] the block does what it is written for:
    lastModified is the clock reading and the tag is numbered [n + 1]. *)
Lemma stampMeta_numbered_tag (record m : doc) (n : Z) (now : string) :
  obj_get record "meta" = VObj m ->
  obj_get m "version" = VStr (weakTag (string_of_Z n)) ->
  0 <= n < 2 ^ 53 ->
  stampMeta record now
  = (Ok tt,
     obj_set record "meta"
       (VObj (obj_set (obj_set m "lastModified" (VStr now)) "version"
                (VStr (weakTag (string_of_Z (n + 1))))))).
Proof.
  intros Hmeta Hversion Hn. unfold stampMeta. rewrite Hmeta. cbn [truthy].
  rewrite obj_get_set_ne by discriminate. rewrite Hversion.
  now rewrite nextVersion_number.
Qed.

(** [modifyUser] under the id of a stored user whose version is a number
    throws, and leaves the user rewritten in place: by the entries of the
    patch as far as they went when one of them threw, and otherwise by
    the whole payload and the new lastModified, the version being the
    number it was. *)
Lemma modifyUser_stamped (config : Config) (baseEntity id : string) (entity : Entity)
    (i : nat) (user m payload : doc) (n : Z) (now : string) (stamp : Z) :
  config !! baseEntity = Some entity ->
  findOne (users entity) "id" (VStr id) = Ok (Some (i, user)) ->
  obj_get user "meta" = VObj m ->
  obj_get m "version" = VNum n ->
  exists e user' m',
    modifyUser config baseEntity id payload now stamp
    = (Throw e, <[baseEntity := set_users entity (rewrite_at (users entity) i user')]> config)
    /\ obj_get user' "id" = obj_get user "id"
    /\ obj_get user' "meta" = VObj m'
    /\ obj_get m' "version" = VNum n
    /\ ((forall entries, obj_get payload "entitlements" <> VArr entries) ->
        e = typeError "version.replace is not a function"
        /\ user' = obj_set (assignKeys user payload) "meta"
                     (VObj (obj_set m "lastModified" (VStr now)))).
Proof.
  intros Hcfg Hfind Hmeta Hversion. unfold modifyUser. rewrite Hcfg, Hfind.
  assert (Hblock : forall u scimdata1,
            obj_get u "meta" = VObj m -> obj_get u "id" = obj_get user "id" ->
            exists e user' m',
              match stampMeta (assignKeys u scimdata1) now with
              | (Throw e, user3) =>
                  (Throw e,
                   <[baseEntity := set_users entity (rewrite_at (users entity) i user3)]> config)
              | (Ok _, user3) =>
                  let '(updated, c) := coll_update (users entity) stamp i user3 in
                  (updated, <[baseEntity := set_users entity c]> config)
              end
              = (Throw e,
                 <[baseEntity := set_users entity (rewrite_at (users entity) i user')]> config)
              /\ obj_get user' "id" = obj_get user "id"
              /\ obj_get user' "meta" = VObj m'
              /\ obj_get m' "version" = VNum n
              /\ e = typeError "version.replace is not a function"
              /\ user' = obj_set (assignKeys u scimdata1) "meta"
                           (VObj (obj_set m "lastModified" (VStr now)))).
  { intros u scimdata1 Hu Hid.
    rewrite (stampMeta_stamped _ m n) by (try rewrite assignKeys_keeps by auto; assumption).
    eexists _, _, _. split; [reflexivity|].
    split; [rewrite obj_get_set_ne by discriminate; rewrite assignKeys_keeps by auto;
            exact Hid|].
    split; [apply obj_get_set_eq|].
    split; [rewrite obj_get_set_ne by discriminate; exact Hversion|].
    split; reflexivity. }
  destruct (obj_get payload "entitlements") as [| | | | | |entries|] eqn:Hents.
  7: { destruct (entitlementLoop user entries) as [[[]|e] u] eqn:Hloop.
       - destruct (Hblock u (obj_delete payload "entitlements"))
           as (e & user' & m' & -> & Hid & Hm' & Hv & _).
         + rewrite (entitlementLoop_other_keys _ _ _ _ "meta" Hloop) by discriminate.
           exact Hmeta.
         + eapply entitlementLoop_other_keys; [exact Hloop | discriminate].
         + exists e, user', m'. split; [reflexivity|].
           split; [exact Hid|]. split; [exact Hm'|]. split; [exact Hv|].
           intros Hno; now destruct (Hno entries).
       - exists e, u, m. split; [reflexivity|].
         split; [eapply entitlementLoop_other_keys; [exact Hloop | discriminate]|].
         split; [rewrite (entitlementLoop_other_keys _ _ _ _ "meta" Hloop) by discriminate;
                 exact Hmeta|].
         split; [exact Hversion|].
         intros Hno; now destruct (Hno entries). }
  all: destruct (Hblock user payload Hmeta eq_refl)
         as (e & user' & m' & -> & Hid & Hm' & Hv & He & Huser').
  all: exists e, user', m'; split; [reflexivity|].
  all: split; [exact Hid|]; split; [exact Hm'|]; split; [exact Hv|].
  all: intros _; split; assumption.
Qed.

(** The same for [modifyGroup], which has no entries to go through. *)
Lemma modifyGroup_stamped (config : Config) (baseEntity id : string) (entity : Entity)
    (i : nat) (group m payload : doc) (n : Z) (now : string) (stamp : Z) :
  config !! baseEntity = Some entity ->
  findOne (groups entity) "id" (VStr id) = Ok (Some (i, group)) ->
  obj_get group "meta" = VObj m ->
  obj_get m "version" = VNum n ->
  modifyGroup config baseEntity id payload now stamp
  = (Throw (typeError "version.replace is not a function"),
     <[baseEntity :=
         set_groups entity
           (rewrite_at (groups entity) i
              (obj_set (assignKeys group payload) "meta"
                 (VObj (obj_set m "lastModified" (VStr now)))))]> config).
Proof.
  intros Hcfg Hfind Hmeta Hversion. unfold modifyGroup. rewrite Hcfg, Hfind.
  rewrite (stampMeta_stamped _ m n) by (try rewrite assignKeys_keeps by auto; assumption).
  reflexivity.
Qed.

Lemma insert_last {A : Type} (l : list A) (d x : A) : <[length l := x]> (l ++ [d]) = l ++ [x].
Proof.
  rewrite insert_app_r_alt by lia. now rewrite Nat.sub_diag.
Qed.

Lemma has_id_VStr (d : doc) (id : string) : obj_get d "id" = VStr id -> has_id id d = true.
Proof. unfold has_id. intros ->. simpl. apply String.eqb_refl. Qed.

(** C4, as the code has it: no update of a record that the plugin has
    created succeeds. The record that [createUser] returns carries the
    number 0 as version, which the insert of the store has written over
    the version tag numbered 1 of the object literal; [modifyUser] under
    its id then throws, whatever the payload, and with a payload that
    holds no entitlements list it throws a TypeError from the version
    expression (a number has no [replace]) after lastModified has been
    written: the stored record holds the new lastModified and still the
    number 0 as version, not the tag numbered 2. The same holds for
    [createGroup] and [modifyGroup]. *)
Theorem update_of_created_record_throws
    (config config1 : Config) (baseEntity : string) (entity : Entity)
    (scimdata record payload : doc) (uuid created lastModified now : string)
    (stamp stamp' : Z) :
  config !! baseEntity = Some entity ->
  (createUser config baseEntity scimdata uuid created lastModified stamp = (Ok record, config1) ->
   Forall (fun d => has_id uuid d = false) (data (users entity)) ->
   (exists meta, obj_get record "meta" = VObj meta /\ obj_get meta "version" = VNum 0)
   /\ exists e config2,
        modifyUser config1 baseEntity uuid payload now stamp' = (Throw e, config2)
        /\ ((forall entries, obj_get payload "entitlements" <> VArr entries) ->
            name e = "TypeError"
            /\ exists entity2 stored meta2,
                 config2 !! baseEntity = Some entity2
                 /\ data (users entity2) = data (users entity) ++ [stored]
                 /\ obj_get stored "meta" = VObj meta2
                 /\ obj_get meta2 "lastModified" = VStr now
                 /\ obj_get meta2 "version" = VNum 0))
  /\ (createGroup config baseEntity scimdata uuid created lastModified stamp
      = (Ok record, config1) ->
      Forall (fun d => has_id uuid d = false) (data (groups entity)) ->
      (exists meta, obj_get record "meta" = VObj meta /\ obj_get meta "version" = VNum 0)
      /\ exists e config2 entity2 stored meta2,
           modifyGroup config1 baseEntity uuid payload now stamp' = (Throw e, config2)
           /\ name e = "TypeError"
           /\ config2 !! baseEntity = Some entity2
           /\ data (groups entity2) = data (groups entity) ++ [stored]
           /\ obj_get stored "meta" = VObj meta2
           /\ obj_get meta2 "lastModified" = VStr now
           /\ obj_get meta2 "version" = VNum 0).
Proof.
  intros Hcfg. split.
  - intros Hcreate Hfresh.
    apply create_metadata in Hcreate
      as (entity' & c' & meta & Hcfg' & -> & Hdata & _ & _ & Hid & _ & Hmeta & _ & _ & _ & Hv).
    rewrite Hcfg in Hcfg'. inversion Hcfg'; subst entity'.
    split; [eauto|].
    assert (Hfind : findOne (users (set_users entity c')) "id" (VStr uuid)
                    = Ok (Some (length (data (users entity)), record))).
    { apply findOne_last; [reflexivity | exact Hdata | exact Hfresh |].
      now apply has_id_VStr. }
    destruct (modifyUser_stamped (<[baseEntity := set_users entity c']> config) baseEntity
                uuid (set_users entity c') _ record meta payload 0 now stamp'
                (lookup_insert_eq _ _ _) Hfind Hmeta Hv)
      as (e & user' & m' & Hmod & _ & Hm' & Hv' & Hplain).
    eexists e, _. split; [exact Hmod|].
    intros Hno. destruct (Hplain Hno) as [-> ->]. split; [reflexivity|].
    eexists _, _, _. split; [apply lookup_insert_eq|].
    split; [simpl; rewrite Hdata; apply insert_last|].
    split; [apply obj_get_set_eq|].
    split; [apply obj_get_set_eq|].
    rewrite obj_get_set_ne by discriminate. exact Hv.
  - intros Hcreate Hfresh.
    apply create_metadata in Hcreate
      as (entity' & c' & meta & Hcfg' & -> & Hdata & _ & _ & Hid & _ & Hmeta & _ & _ & _ & Hv).
    rewrite Hcfg in Hcfg'. inversion Hcfg'; subst entity'.
    split; [eauto|].
    assert (Hfind : findOne (groups (set_groups entity c')) "id" (VStr uuid)
                    = Ok (Some (length (data (groups entity)), record))).
    { apply findOne_last; [reflexivity | exact Hdata | exact Hfresh |].
      now apply has_id_VStr. }
    eexists _, _, _, _, _.
    split; [exact (modifyGroup_stamped _ baseEntity uuid _ _ record meta payload 0 now stamp'
                     (lookup_insert_eq _ _ _) Hfind Hmeta Hv)|].
    split; [reflexivity|].
    split; [apply lookup_insert_eq|].
    split; [simpl; rewrite Hdata; apply insert_last|].
    split; [apply obj_get_set_eq|].
    split; [apply obj_get_set_eq|].
    rewrite obj_get_set_ne by discriminate. exact Hv.
Qed.

(** ** The patch of the grants and the update *)

Lemma grantsOf_ext (a b : doc) :
  obj_get a "entitlements" = obj_get b "entitlements" -> grantsOf a = grantsOf b.
Proof. unfold grantsOf. now intros ->. Qed.

(** Whatever [modifyUser] answers on a payload that carries a list of
    entries, the stored user holds afterwards the grants that the entries
    make, in order, of the ones it held: the loop writes into the stored
    document, and neither the merge of the other keys nor the metadata
    block nor the update of the store touches the grants. A record that
    is returned is the stored one. *)
Lemma modifyUser_writes_grants
    (config config' : Config) (baseEntity id : string) (entity : Entity)
    (i : nat) (user scimdata : doc) (entries : list Entry) (now : string) (stamp : Z)
    (r : result doc) :
  config !! baseEntity = Some entity ->
  findOne (users entity) "id" (VStr id) = Ok (Some (i, user)) ->
  grants_wf user ->
  obj_get scimdata "entitlements" = VArr (map entryObj entries) ->
  modifyUser config baseEntity id scimdata now stamp = (r, config') ->
  exists entity' stored,
    config' !! baseEntity = Some entity'
    /\ data (users entity') !! i = Some stored
    /\ grantsOf stored = fold_left stepGrants entries (grantsOf user)
    /\ (forall user', r = Ok user' -> user' = stored).
Proof.
  intros Hcfg Hfind Hwf Hents Hmod.
  pose proof (findOne_lookup _ _ _ _ _ Hfind) as [Hi _].
  apply lookup_lt_Some in Hi.
  unfold modifyUser in Hmod. rewrite Hcfg, Hfind, Hents in Hmod.
  destruct (entitlementLoop_entries entries user Hwf) as (user1 & Hloop & _ & Hgrants & _).
  rewrite Hloop in Hmod.
  destruct (stampMeta (assignKeys user1 (obj_delete scimdata "entitlements")) now)
    as [[[]|e] user3] eqn:Hstamp.
  all: assert (Hkept : grantsOf user3 = fold_left stepGrants entries (grantsOf user))
    by (rewrite <- Hgrants; apply grantsOf_ext;
        rewrite (stampMeta_other_keys _ _ _ _ "entitlements" Hstamp) by discriminate;
        now rewrite assignKeys_absent by apply obj_delete_keys).
  - destruct (coll_update (users entity) stamp i user3) as [updated c] eqn:Hupdate.
    inversion Hmod; subst. clear Hmod.
    apply coll_update_outcome in Hupdate as (d' & Hdata & _ & _ & _ & _ & Hcases).
    exists (set_users entity c), d'. split; [apply lookup_insert_eq|].
    split; [simpl; rewrite Hdata; now apply list_lookup_insert_eq|].
    destruct Hcases as [[-> Hmeta] | [[e ->] ->]].
    + split; [|intros user' Hok; now inversion Hok].
      rewrite <- Hkept. apply grantsOf_ext. eapply updateMeta_other; [exact Hmeta|discriminate].
    + split; [exact Hkept | discriminate].
  - inversion Hmod; subst. clear Hmod.
    eexists _, user3. split; [apply lookup_insert_eq|].
    split; [simpl; now apply list_lookup_insert_eq|].
    split; [exact Hkept | discriminate].
Qed.

(** C3: on a stored user whose entitlements are absent or a list of
    objects, the entries of a patch list act in order. An add of a value
    already granted returns the user as it was; an add of a value not yet
    granted appends one grant, whose display defaults to the value, type to
    License and primary to false; a remove of a value not granted returns
    the user as it was and is no error; in a batch the last add or remove
    of a value decides whether it is granted, so an add followed by a
    remove leaves no grant and two adds leave exactly one. A successful
    [modifyUser] on that user with a list of entries returns the grants
    the entries make of the stored ones; and whatever [modifyUser]
    answers, the user stored at that position holds those grants
    afterwards. *)
Theorem entitlement_patch_in_order
    (user : doc) (v : string) (display type primary : jsval) :
  grants_wf user ->
  (has_grant v (grantsOf user) = true ->
   entitlementStep user (entryObj (mkEntry "add" v display type primary)) = Ok user)
  /\ (has_grant v (grantsOf user) = false ->
      entitlementStep user (entryObj (mkEntry "add" v display type primary))
      = Ok (obj_set user "entitlements"
              (VArr (grantsOf user
                     ++ [VObj [("value", VStr v);
                               ("display", js_or display (VStr v));
                               ("type", js_or type (VStr "License"));
                               ("primary", js_or primary (VBool false))]])))
      /\ entitlementStep user (entryObj (mkEntry "add" v VUndefined VUndefined VUndefined))
         = Ok (obj_set user "entitlements"
                 (VArr (grantsOf user
                        ++ [VObj [("value", VStr v); ("display", VStr v);
                                  ("type", VStr "License"); ("primary", VBool false)]]))))
  /\ (has_grant v (grantsOf user) = false ->
      entitlementStep user (entryObj (mkEntry "remove" v display type primary)) = Ok user)
  /\ (forall (before after : list Entry) (en : Entry),
         entryValue en = v ->
         Forall (fun e => entryValue e <> v) after ->
         exists user',
           entitlementLoop user (map entryObj (before ++ en :: after)) = (Ok tt, user')
           /\ (entryOperation en = "add" -> has_grant v (grantsOf user') = true)
           /\ (entryOperation en = "remove" -> has_grant v (grantsOf user') = false))
  /\ (exists user',
         entitlementLoop user
           [entryObj (mkEntry "add" v display type primary);
            entryObj (mkEntry "remove" v display type primary)] = (Ok tt, user')
         /\ has_grant v (grantsOf user') = false)
  /\ (has_grant v (grantsOf user) = false ->
      exists user',
        entitlementLoop user
          [entryObj (mkEntry "add" v display type primary);
           entryObj (mkEntry "add" v display type primary)] = (Ok tt, user')
        /\ count_grants v (grantsOf user') = 1%nat)
  /\ (forall (config config' : Config) (baseEntity id : string) (entity : Entity)
             (i : nat) (user' scimdata : doc) (entries : list Entry) (now : string)
             (stamp : Z),
         config !! baseEntity = Some entity ->
         findOne (users entity) "id" (VStr id) = Ok (Some (i, user)) ->
         obj_get scimdata "entitlements" = VArr (map entryObj entries) ->
         modifyUser config baseEntity id scimdata now stamp = (Ok user', config') ->
         grantsOf user' = fold_left stepGrants entries (grantsOf user))
  /\ (forall (config config' : Config) (baseEntity id : string) (entity : Entity)
             (i : nat) (scimdata : doc) (entries : list Entry) (now : string)
             (stamp : Z) (r : result doc),
         config !! baseEntity = Some entity ->
         findOne (users entity) "id" (VStr id) = Ok (Some (i, user)) ->
         obj_get scimdata "entitlements" = VArr (map entryObj entries) ->
         modifyUser config baseEntity id scimdata now stamp = (r, config') ->
         exists entity' stored,
           config' !! baseEntity = Some entity'
           /\ data (users entity') !! i = Some stored
           /\ grantsOf stored = fold_left stepGrants entries (grantsOf user)).
Proof.
  intros Hwf.
  split.
  { intros Hhas.
    destruct (entitlementStep_entry user (mkEntry "add" v display type primary) Hwf)
      as (user' & Hstep & _ & _ & _ & Hsame & _).
    rewrite Hstep. f_equal. now apply Hsame. }
  split.
  { intros Hnone. split.
    - destruct (entitlementStep_entry user (mkEntry "add" v display type primary) Hwf)
        as (user' & Hstep & _ & _ & _ & _ & _ & Hadd).
      rewrite Hstep. f_equal. now apply Hadd.
    - destruct (entitlementStep_entry user (mkEntry "add" v VUndefined VUndefined VUndefined) Hwf)
        as (user' & Hstep & _ & _ & _ & _ & _ & Hadd).
      rewrite Hstep. f_equal. now apply Hadd. }
  split.
  { intros Hnone.
    destruct (entitlementStep_entry user (mkEntry "remove" v display type primary) Hwf)
      as (user' & Hstep & _ & _ & _ & _ & Hsame & _).
    rewrite Hstep. f_equal. now apply Hsame. }
  split.
  { intros before after en Hv Hafter.
    destruct (entitlementLoop_entries (before ++ en :: after) user Hwf)
      as (user' & Hloop & _ & Hgrants & _).
    exists user'. split; [exact Hloop|].
    rewrite Hgrants, fold_left_app. simpl.
    rewrite has_grant_fold_other by exact Hafter.
    rewrite has_grant_step, Hv, String.eqb_refl.
    split; intros ->; reflexivity. }
  split.
  { destruct (entitlementLoop_entries
                [mkEntry "add" v display type primary;
                 mkEntry "remove" v display type primary] user Hwf)
      as (user' & Hloop & _ & Hgrants & _).
    exists user'. split; [exact Hloop|].
    rewrite Hgrants. simpl. rewrite has_grant_step. simpl.
    now rewrite String.eqb_refl. }
  split.
  2: { split.
       - intros config config' baseEntity id entity i user' scimdata entries now stamp
           Hcfg Hfind Hents Hmod.
         destruct (modifyUser_writes_grants _ _ _ _ _ _ _ _ _ _ _ _ Hcfg Hfind Hwf Hents Hmod)
           as (entity' & stored & _ & _ & Hgrants & Hsame).
         now rewrite (Hsame user' eq_refl).
       - intros config config' baseEntity id entity i scimdata entries now stamp r
           Hcfg Hfind Hents Hmod.
         destruct (modifyUser_writes_grants _ _ _ _ _ _ _ _ _ _ _ _ Hcfg Hfind Hwf Hents Hmod)
           as (entity' & stored & Hcfg' & Hstored & Hgrants & _).
         eauto. }
  intros Hnone.
  destruct (entitlementLoop_entries
              [mkEntry "add" v display type primary;
               mkEntry "add" v display type primary] user Hwf)
    as (user' & Hloop & _ & Hgrants & _).
  exists user'. split; [exact Hloop|].
  rewrite Hgrants. simpl. unfold stepGrants at 2. simpl. rewrite Hnone.
  unfold stepGrants. simpl.
  rewrite has_grant_app. simpl. rewrite String.eqb_refl, orb_true_r.
  unfold count_grants. rewrite List.filter_app, length_app.
  fold (count_grants v (grantsOf user)). rewrite count_grants_none by exact Hnone.
  simpl. now rewrite String.eqb_refl.
Qed.

(** * The operations on concrete requests *)

Lemma configOf_lookup (userDocs groupDocs : list doc) :
  configOf userDocs groupDocs !! theTenant = Some (tenant userDocs groupDocs).
Proof. unfold configOf. apply lookup_singleton_eq. Qed.

(** The tests of the in-memory class, on its sample data. *)
Example class_returns_all_without_filter :
  EntitlementsPlugin.getEntitlements EntitlementsPlugin.sampleEntitlements (noFilter None None)
  = Ok (mkQueryResult EntitlementsPlugin.sampleEntitlements 3).
Proof. reflexivity. Qed.

Example class_filters_by_displayName :
  EntitlementsPlugin.getEntitlements EntitlementsPlugin.sampleEntitlements
    (eqFilter "displayName" "Pro License")
  = Ok (mkQueryResult (take 1 EntitlementsPlugin.sampleEntitlements) 1).
Proof. reflexivity. Qed.

Example class_supports_paging :
  EntitlementsPlugin.getEntitlements EntitlementsPlugin.sampleEntitlements
    (noFilter (Some 1) (Some 2))
  = Ok (mkQueryResult (take 2 EntitlementsPlugin.sampleEntitlements) 3).
Proof. reflexivity. Qed.

(** The test entitlements as the store holds them: in the order of the
    source, each with the metadata and the [$loki] of its insert. *)
Example stored_test_entitlements :
  ids_of (data (entitlements (tenant [] [])))
  = [VStr "entitlement-123"; VStr "entitlement-456"; VStr "entitlement-789";
     VStr "entitlement-abc"]
  /\ map (fun d => obj_get d "$loki") (data (entitlements (tenant [] [])))
     = [VNum 1; VNum 2; VNum 3; VNum 4]
  /\ map (fun d => obj_get d "meta") (data (entitlements (tenant [] [])))
     = repeat (VObj [("revision", VNum 0); ("created", VNum loadTime); ("version", VNum 0)]) 4
  /\ map (fun d => obj_get d "type") (data (entitlements (tenant [] [])))
     = map (fun d => obj_get d "type") testEntitlements.
Proof. repeat split; vm_compute; reflexivity. Qed.

(** The display name of one test entitlement, looked up in another case. *)
Example displayName_lookup_ignores_case :
  fst (getEntitlements Fragment.regExp Fragment.otherOps Fragment.dotted Fragment.indexSearch
         (configOf [] []) theTenant (eqFilter "displayName" "pro license"))
  = Ok (mkQueryResult (take 1 (data (entitlements (tenant [] [])))) 1).
Proof. vm_compute. reflexivity. Qed.

(** Any identifying attribute but the identifier is looked up through the
    anchored pattern with the flag i. *)
Lemma uniqueLookup_pattern regExp otherOps dotted indexSearch (c : Collection) (g : GetObj) :
  attribute g <> "id" ->
  uniqueLookup regExp otherOps dotted indexSearch c g
  = coll_find regExp otherOps dotted indexSearch c (attribute g) "$regex"
      (VArr [VStr ("^" +:+ toString (value g) +:+ "$"); VStr "i"]).
Proof.
  intros Hattr. unfold uniqueLookup.
  apply String.eqb_neq in Hattr. now rewrite Hattr.
Qed.

(** The equality filter on an identifying attribute is a unique lookup. *)
Lemma eq_filter_is_unique_lookup regExp otherOps dotted indexSearch action identifying
    reference (c : Collection) (g : GetObj) :
  operator g = Some "eq" ->
  includes identifying (attribute g) = true ->
  matched regExp otherOps dotted indexSearch action identifying reference c g
  = uniqueLookup regExp otherOps dotted indexSearch c
      (mkGetObj (attribute g) (Some "$eq") (value g) (rawFilter g) (startIndex g) (count g)).
Proof.
  intros Hop Hattr. unfold matched, convertOperator. rewrite Hop. simpl.
  unfold selectDocs. simpl. now rewrite Hattr.
Qed.

(** C1, on the test data of the plugin: the equality filter on the
    identifying attribute type with the value License takes the
    unique-lookup branch and returns two entitlements, not at most one:
    the first two of the stored test entitlements, entitlement-123 and
    entitlement-456. *)
Theorem type_lookup_returns_two_entitlements :
  fst (getEntitlements Fragment.regExp Fragment.otherOps Fragment.dotted Fragment.indexSearch
         (configOf [] []) theTenant (eqFilter "type" "License"))
  = Ok (mkQueryResult (take 2 (data (entitlements (tenant [] [])))) 2)
  /\ ids_of (take 2 (data (entitlements (tenant [] []))))
     = [VStr "entitlement-123"; VStr "entitlement-456"]
  /\ selectDocs Fragment.regExp Fragment.otherOps Fragment.dotted Fragment.indexSearch
       "getEntitlements" ["id"; "displayName"; "type"] None (entitlements (tenant [] []))
       (mkGetObj "type" (Some "$eq") (VStr "License") None None None)
     = uniqueLookup Fragment.regExp Fragment.otherOps Fragment.dotted Fragment.indexSearch
         (entitlements (tenant [] []))
         (mkGetObj "type" (Some "$eq") (VStr "License") None None None).
Proof. repeat split; vm_compute; reflexivity. Qed.

(** C9, on an empty tenant: after a user with the login name bob is
    created, the creation of a user with the login name Bob succeeds too;
    the collection then holds two users whose login names are equal up to
    case, and the lookup of the login name bob returns both. *)
Theorem createUser_accepts_case_variant :
  fst afterBob = Ok (storedUser 1 "id-1" "bob")
  /\ fst afterBobs = Ok (storedUser 2 "id-2" "Bob")
  /\ usersOf (snd afterBobs) = [storedUser 1 "id-1" "bob"; storedUser 2 "id-2" "Bob"]
  /\ Fragment.upper_string "bob" = Fragment.upper_string "Bob"
  /\ fst (getUsers Fragment.regExp Fragment.otherOps Fragment.dotted Fragment.indexSearch
            (snd afterBobs) theTenant (eqFilter "userName" "bob"))
     = Ok (mkQueryResult [storedUser 1 "id-1" "bob"; storedUser 2 "id-2" "Bob"] 2).
Proof. repeat split; vm_compute; reflexivity. Qed.

(** Against C2 as stated: with the count -1 the window of the claim,
    from position 0 and -1 long, holds no record, but the query over
    three stored users returns the first two of them: [slice] counts a
    negative end from the tail of the array. And with the count 0 the
    query returns the three users, not a page of no record: a count of 0
    takes the default as an absent one does. *)
Lemma negative_or_zero_count_returns_records :
  fst (getUsers Fragment.regExp Fragment.otherOps Fragment.dotted Fragment.indexSearch
         (configOf [bjensen; jsmith; mmiller] []) theTenant (noFilter None (Some (-1))))
  = Ok (mkQueryResult (take 2 (usersOf (configOf [bjensen; jsmith; mmiller] []))) 3)
  /\ ids_of (take 2 (usersOf (configOf [bjensen; jsmith; mmiller] [])))
     = [VStr "u1"; VStr "u2"]
  /\ window_of (noFilter None (Some (-1))) (usersOf (configOf [bjensen; jsmith; mmiller] []))
     = []
  /\ fst (getUsers Fragment.regExp Fragment.otherOps Fragment.dotted Fragment.indexSearch
            (configOf [bjensen; jsmith; mmiller] []) theTenant (noFilter None (Some 0)))
     = Ok (mkQueryResult (usersOf (configOf [bjensen; jsmith; mmiller] [])) 3)
  /\ ids_of (usersOf (configOf [bjensen; jsmith; mmiller] []))
     = [VStr "u1"; VStr "u2"; VStr "u3"].
Proof. repeat split; vm_compute; reflexivity. Qed.

(** Against C8 as stated: the filter object is not left unchanged. After
    a query with the operator co the object holds the native operator. *)
Lemma translation_changes_filter_object :
  snd (getUsers Fragment.regExp Fragment.otherOps Fragment.dotted Fragment.indexSearch
         (configOf [] []) theTenant
         (mkGetObj "userName" (Some "co") (VStr "jen") None None None))
  = mkGetObj "userName" (Some "$contains") (VStr "jen") None None None
  /\ mkGetObj "userName" (Some "$contains") (VStr "jen") None None None
     <> mkGetObj "userName" (Some "co") (VStr "jen") None None None.
Proof. split; [vm_compute; reflexivity | discriminate]. Qed.

(** * The claims on concrete requests *)

(** The scenario of three stored users asked for ten records from the
    fifth on: no record, three results in total. *)
Lemma query_page_past_end :
  configOf [bjensen; jsmith; mmiller] [] !! theTenant
  = Some (tenant [bjensen; jsmith; mmiller] [])
  /\ exists r,
       fst (getUsers Fragment.regExp Fragment.otherOps Fragment.dotted Fragment.indexSearch
              (configOf [bjensen; jsmith; mmiller] []) theTenant (noFilter (Some 5) (Some 10)))
       = Ok r
       /\ totalResults r = 3 /\ Resources r = [].
Proof.
  split; [apply configOf_lookup|].
  destruct (query_totalResults_and_page Fragment.regExp Fragment.otherOps Fragment.dotted
              Fragment.indexSearch
              (configOf [bjensen; jsmith; mmiller] []) theTenant
              (tenant [bjensen; jsmith; mmiller] []) (noFilter (Some 5) (Some 10))
              (configOf_lookup _ _)) as [Husers _].
  destruct (Husers (data (users (tenant [bjensen; jsmith; mmiller] []))) eq_refl)
    as (r & Hr & Htotal & _ & Hpast).
  exists r. split; [exact Hr|]. split; [rewrite Htotal; vm_compute; reflexivity|].
  apply Hpast. vm_compute. discriminate.
Defined.

(** A query with a rawFilter and no operator on the test tenant. *)
Lemma rawFilter_rejected_on_test_tenant :
  configOf [bjensen] [] !! theTenant = Some (tenant [bjensen] [])
  /\ given (operator (mkGetObj "" None VUndefined (Some "a eq 1 and b eq 2") None None)) = false
  /\ "a eq 1 and b eq 2" <> ""
  /\ getUsers Fragment.regExp Fragment.otherOps Fragment.dotted Fragment.indexSearch
       (configOf [bjensen] [])
       theTenant (mkGetObj "" None VUndefined (Some "a eq 1 and b eq 2") None None)
     = (Throw (advancedFilterError "getUsers" "a eq 1 and b eq 2"),
        mkGetObj "" None VUndefined (Some "a eq 1 and b eq 2") None None).
Proof.
  split; [apply configOf_lookup|]. split; [reflexivity|]. split; [discriminate|].
  apply (rawFilter_rejected Fragment.regExp Fragment.otherOps Fragment.dotted
           Fragment.indexSearch
           (configOf [bjensen] []) theTenant "a eq 1 and b eq 2" (tenant [bjensen] [])
           (mkGetObj "" None VUndefined (Some "a eq 1 and b eq 2") None None)
           (configOf_lookup _ _) eq_refl eq_refl).
  discriminate.
Defined.


(** The prefix filter on the test tenant leaves the pattern in the
    object; with a value that opens a group the engine refuses the
    pattern, and the object is left with the native operator and the
    value it had. *)
Lemma prefix_filter_leaves_pattern :
  configOf [bjensen] [] !! theTenant = Some (tenant [bjensen] [])
  /\ snd (getUsers Fragment.regExp Fragment.otherOps Fragment.dotted Fragment.indexSearch
            (configOf [bjensen] [])
            theTenant (mkGetObj "userName" (Some "sw") (VStr "bj") None None None))
     = mkGetObj "userName" (Some "$regex") (VRegExp "^bj.*" "") None None None
  /\ fst (convertOperator Fragment.regExp "getUsers"
            (mkGetObj "userName" (Some "sw") (VStr "(") None None None))
     = Throw (Fragment.invalid "^(.*" "Unterminated group")
  /\ operator (snd (getUsers Fragment.regExp Fragment.otherOps Fragment.dotted
                      Fragment.indexSearch (configOf [bjensen] []) theTenant
                      (mkGetObj "userName" (Some "sw") (VStr "(") None None None)))
     = Some "$regex"
  /\ value (snd (getUsers Fragment.regExp Fragment.otherOps Fragment.dotted
                   Fragment.indexSearch (configOf [bjensen] []) theTenant
                   (mkGetObj "userName" (Some "sw") (VStr "(") None None None)))
     = VStr "(".
Proof.
  split; [apply configOf_lookup|].
  split.
  - destruct (translation_rewrites_filter_object Fragment.regExp Fragment.otherOps
                Fragment.dotted Fragment.indexSearch "getUsers" (configOf [bjensen] [])
                theTenant (tenant [bjensen] [])
                (mkGetObj "userName" (Some "sw") (VStr "bj") None None None)
                (configOf_lookup _ _)) as (Husers & _).
    rewrite Husers. reflexivity.
  - destruct (translation_rewrites_filter_object Fragment.regExp Fragment.otherOps
                Fragment.dotted Fragment.indexSearch "getUsers" (configOf [bjensen] [])
                theTenant (tenant [bjensen] [])
                (mkGetObj "userName" (Some "sw") (VStr "(") None None None)
                (configOf_lookup _ _)) as (Husers & _ & _ & _ & _ & _ & _ & _ & Hsw & _).
    destruct (Hsw eq_refl) as (Hop & _ & Hrefused).
    destruct (Hrefused (Fragment.invalid "^(.*" "Unterminated group") eq_refl)
      as [Hthrown Hvalue].
    rewrite Husers. split; [exact Hthrown|]. split; [exact Hop | exact Hvalue].
Defined.

(** An update under an identifier nobody has. *)
Lemma modify_nobody_fails :
  configOf [bjensen] [] !! theTenant = Some (tenant [bjensen] [])
  /\ modifyUser (configOf [bjensen] []) theTenant "nobody" [("active", VBool false)]
       "2024-02-02T00:00:00.000Z" 1706832000000
     = (Throw (mkError "notFound" "modifyUser error: user id=nobody does not exist"),
        configOf [bjensen] []).
Proof.
  split; [apply configOf_lookup|].
  apply (modify_unknown_id_fails (configOf [bjensen] []) theTenant "nobody"
           (tenant [bjensen] []) [("active", VBool false)] "2024-02-02T00:00:00.000Z"
           1706832000000 (configOf_lookup _ _)).
  vm_compute. repeat constructor.
Defined.

(** A second bjensen is refused and nothing is written; bob on an empty
    tenant is created, and his record carries the number 0 as version and
    the clock of the store as created. *)
Lemma create_bjensen_twice_fails :
  (configOf [bjensen] [] !! theTenant = Some (tenant [bjensen] [])
   /\ "bjensen" <> ""
   /\ createUser (configOf [bjensen] []) theTenant [("userName", VStr "bjensen")]
        "id-9" "2024-02-02T00:00:00.000Z" "2024-02-02T00:00:00.000Z" 1706832000000
      = (Throw (mkError "uniqueness"
                  "createUser error: user with userName 'bjensen' already exists"),
         configOf [bjensen] []))
  /\ exists record config' meta,
       createUser (configOf [] []) theTenant [("userName", VStr "bob")]
         "id-1" "2024-01-02T00:00:00.000Z" "2024-01-02T00:00:00.000Z" createTime
       = (Ok record, config')
       /\ usersOf config' = [record]
       /\ obj_get record "userName" = VStr "bob"
       /\ obj_get record "meta" = VObj meta
       /\ obj_get meta "lastModified" = VStr "2024-01-02T00:00:00.000Z"
       /\ obj_get meta "created" = VNum createTime
       /\ obj_get meta "version" = VNum 0.
Proof.
  split.
  - split; [apply configOf_lookup|]. split; [discriminate|].
    apply (createUser_existing_userName (configOf [bjensen] []) theTenant
             (tenant [bjensen] []) [("userName", VStr "bjensen")] "bjensen" "id-9"
             "2024-02-02T00:00:00.000Z" "2024-02-02T00:00:00.000Z" 1706832000000
             (configOf_lookup _ _) eq_refl).
    + discriminate.
    + vm_compute. constructor. reflexivity.
  - destruct (createUser_existing_userName (configOf [] []) theTenant
                (tenant [] []) [("userName", VStr "bob")] "bob" "id-1"
                "2024-01-02T00:00:00.000Z" "2024-01-02T00:00:00.000Z" createTime
                (configOf_lookup _ _) eq_refl) as (_ & Hcreated & Hstamp); [discriminate|].
    destruct Hcreated as (record & config' & Hcreate);
      [vm_compute; constructor | reflexivity | reflexivity | reflexivity | reflexivity |].
    destruct (Hstamp record config' Hcreate)
      as (meta & users' & Hconfig & Hdata & Hname & _ & Hmeta & _ & Hmodified & Hcreated
          & Hversion).
    exists record, config', meta. split; [exact Hcreate|].
    split.
    { unfold usersOf. rewrite Hconfig, lookup_insert_eq. simpl. rewrite Hdata. reflexivity. }
    repeat split; assumption.
Defined.

(** An add and a remove of one value in a batch on the stored bjensen,
    who holds two other grants. *)
Lemma add_then_remove_on_bjensen :
  grants_wf (userAt (configOf [bjensen] []) 0)
  /\ granted_values (grantsOf (userAt (configOf [bjensen] []) 0))
     = [VStr "entitlement-123"; VStr "entitlement-789"]
  /\ exists user',
       entitlementLoop (userAt (configOf [bjensen] []) 0)
         [entryObj (mkEntry "add" "entitlement-456" VUndefined VUndefined VUndefined);
          entryObj (mkEntry "remove" "entitlement-456" VUndefined VUndefined VUndefined)]
       = (Ok tt, user')
       /\ has_grant "entitlement-456" (grantsOf user') = false.
Proof.
  assert (Hwf : grants_wf (userAt (configOf [bjensen] []) 0)).
  { split; [right; eexists; vm_compute; reflexivity|].
    vm_compute. repeat constructor. }
  split; [exact Hwf|]. split; [vm_compute; reflexivity|].
  apply (entitlement_patch_in_order (userAt (configOf [bjensen] []) 0) "entitlement-456"
           VUndefined VUndefined VUndefined Hwf).
Defined.

(** The user bob, created on an empty tenant, cannot be updated: the
    update throws a TypeError and leaves him with the new lastModified
    and the number 0 as version. *)
Lemma update_of_bob_throws :
  configOf [] [] !! theTenant = Some (tenant [] [])
  /\ afterBob = (Ok (storedUser 1 "id-1" "bob"), snd afterBob)
  /\ exists e config2 stored meta2,
       modifyUser (snd afterBob) theTenant "id-1" [("active", VBool false)]
         "2024-01-03T00:00:00.000Z" 1704240000000 = (Throw e, config2)
       /\ name e = "TypeError"
       /\ usersOf config2 = [stored]
       /\ obj_get stored "active" = VBool false
       /\ obj_get stored "meta" = VObj meta2
       /\ obj_get meta2 "lastModified" = VStr "2024-01-03T00:00:00.000Z"
       /\ obj_get meta2 "version" = VNum 0.
Proof.
  assert (Hcreate : afterBob = (Ok (storedUser 1 "id-1" "bob"), snd afterBob))
    by (vm_compute; reflexivity).
  split; [apply configOf_lookup|]. split; [exact Hcreate|].
  destruct (update_of_created_record_throws (configOf [] []) (snd afterBob) theTenant
              (tenant [] []) [("userName", VStr "bob")] (storedUser 1 "id-1" "bob")
              [("active", VBool false)] "id-1" "2024-01-02T00:00:00.000Z"
              "2024-01-02T00:00:00.000Z" "2024-01-03T00:00:00.000Z" createTime 1704240000000
              (configOf_lookup _ _)) as [Husers _].
  destruct (Husers Hcreate) as [_ (e & config2 & Hmod & Hplain)];
    [vm_compute; constructor|].
  destruct Hplain as (Hname & entity2 & stored & meta2 & Hcfg2 & Hdata & Hmeta & Hnow & Hv);
    [discriminate|].
  exists e, config2, stored, meta2. split; [exact Hmod|]. split; [exact Hname|].
  assert (Hstored : usersOf config2 = [stored]).
  { unfold usersOf. rewrite Hcfg2, Hdata. reflexivity. }
  split; [exact Hstored|].
  split; [|repeat split; assumption].
  apply (f_equal snd) in Hmod. simpl in Hmod. rewrite <- Hmod in Hstored.
  vm_compute in Hstored. inversion Hstored. reflexivity.
Defined.
(** * Further properties of the store plugin *)

Lemma list_filter_sublist {A : Type} (f : A -> bool) (l : list A) :
  sublist (List.filter f l) l.
Proof.
  induction l as [|x l IH]; simpl; [constructor|].
  destruct (f x); [now apply sublist_skip | now apply sublist_cons].
Qed.

Lemma js_slice_sublist {A : Type} (l : list A) (start end_ : Z) :
  sublist (js_slice l start end_) l.
Proof.
  unfold js_slice. etransitivity; [apply sublist_take | apply sublist_drop].
Qed.


Lemma Forall_of_sublist {A : Type} (P : A -> Prop) (k l : list A) :
  sublist k l -> Forall P l -> Forall P k.
Proof.
  induction 1 as [|x k l _ IH|x k l _ IH]; intros H; [constructor|..];
    inversion H; subst; [constructor|]; auto.
Qed.

Lemma filter_rows_snd (p : doc -> bool) (rows : list (nat * doc)) :
  map snd (List.filter (fun r => p (snd r)) rows) = List.filter p (map snd rows).
Proof.
  induction rows as [|r rows IH]; simpl; [reflexivity|].
  destruct (p (snd r)); simpl; now rewrite IH.
Qed.

(** The equality search through a sorted index finds the documents a scan
    finds, in the order of the index. *)
Lemma rows_for_filter (c : Collection) (property : string) (p : doc -> bool) :
  map snd (List.filter (fun r => p (snd r)) (rows_for c property))
  ≡ₚ List.filter p (data c).
Proof.
  rewrite filter_rows_snd. apply list_filter_Permutation.
  rewrite (rows_for_Permutation c property). now rewrite rows_from_snd.
Qed.

Section MoreQueryFacts.

Variable regExp : string -> string -> result (string -> bool).
Variable otherOps : string -> jsval -> jsval -> bool.
Variable dotted : (jsval -> bool) -> string -> doc -> bool.
Variable indexSearch : string -> string -> jsval -> list doc -> list nat.

(** What a find returns are documents of the collection; when the search
    does not go through a sorted index, they come in the order of the
    collection, none twice. *)
Lemma coll_find_stored (c : Collection) (property op : string) (operand : jsval)
    (arr : list doc) :
  coll_find regExp otherOps dotted indexSearch c property op operand = Ok arr ->
  Forall (fun d => In d (data c)) arr
  /\ (index_of c property = None -> sublist arr (data c)).
Proof.
  unfold coll_find.
  assert (Hscan : forall l : list doc,
            (test <- lokiOp regExp otherOps op operand ;;
             Ok (List.filter (fun d => if has_dot property then dotted test property d
                                       else test (obj_get d property)) l)) = Ok arr ->
            Forall (fun d => In d l) arr /\ sublist arr l).
  { intros l H. destruct (lokiOp regExp otherOps op operand); simpl in H; [|discriminate].
    inversion H. split; [|apply list_filter_sublist].
    apply Forall_forall. intros d Hd. apply list_elem_of_In in Hd.
    now apply List.filter_In in Hd as [Hd _]. }
  destruct (data c) as [|d0 rest] eqn:Hdata.
  { intros H. inversion H. split; [constructor | intros _; constructor]. }
  rewrite <- Hdata.
  destruct (index_of c property) as [b|] eqn:Hindex.
  2: { intros H. apply Hscan in H as [Hin Hsub]. auto. }
  destruct (negb (includes indexedOps op)).
  { intros H. apply Hscan in H as [Hin _]. split; [exact Hin | discriminate]. }
  destruct (has_dot property); [discriminate|].
  destruct (String.eqb op "$eq"); intros H; inversion H; (split; [|discriminate]).
  - apply Forall_forall. intros d Hd.
    rewrite (rows_for_filter c property (fun x => strict_eq (obj_get x property) operand)) in Hd.
    apply list_elem_of_In in Hd. now apply List.filter_In in Hd as [Hd _].
  - apply Forall_forall. intros d Hd.
    apply list_elem_of_omap in Hd as (p & _ & Hp).
    apply list_elem_of_In. eapply list_elem_of_lookup_2. exact Hp.
Qed.

Lemma coll_find_value_stored (c : Collection) (property : string) (v : jsval)
    (arr : list doc) :
  coll_find_value regExp otherOps dotted indexSearch c property v = Ok arr ->
  Forall (fun d => In d (data c)) arr
  /\ (index_of c property = None -> sublist arr (data c)).
Proof.
  unfold coll_find_value. destruct (data c) as [|d0 rest] eqn:Hdata.
  { intros H. inversion H. split; [constructor | intros _; constructor]. }
  rewrite <- Hdata. destruct (is_primitive v); [|discriminate]. apply coll_find_stored.
Qed.

Lemma selectDocs_stored action identifying reference (c : Collection) (g : GetObj)
    (arr : list doc) :
  selectDocs regExp otherOps dotted indexSearch action identifying reference c g = Ok arr ->
  Forall (fun d => In d (data c)) arr
  /\ (index_of c (attribute g) = None -> sublist arr (data c)).
Proof.
  unfold selectDocs, uniqueLookup.
  repeat match goal with
         | |- context [if ?b then _ else _] => destruct b
         end;
    try discriminate; try apply coll_find_stored; try apply coll_find_value_stored.
  intros H. inversion H. split; [|reflexivity].
  apply Forall_forall. intros d Hd. now apply list_elem_of_In.
Qed.

(** A query that succeeds returned the page of what its filter matched. *)
Lemma query_ok_inv action identifying reference (collection : Entity -> Collection)
    (config : Config) (baseEntity : string) (g : GetObj) (r : QueryResult) :
  fst (query regExp otherOps dotted indexSearch action identifying reference collection
         config baseEntity g)
  = Ok r ->
  exists entity arr,
    config !! baseEntity = Some entity
    /\ matched regExp otherOps dotted indexSearch action identifying reference
         (collection entity) g = Ok arr
    /\ Forall (fun d => In d (data (collection entity))) arr
    /\ (index_of (collection entity) (attribute g) = None ->
        sublist arr (data (collection entity)))
    /\ r = paginate g arr.
Proof.
  unfold query, matched.
  destruct (config !! baseEntity) as [entity|]; [|discriminate].
  pose proof (convertOperator_keeps_paging regExp action g) as [Hsi Hcnt].
  assert (Hattr : attribute (snd (convertOperator regExp action g)) = attribute g).
  { unfold convertOperator. destruct (operator g) as [op|]; [|reflexivity].
    repeat match goal with
           | |- context [if ?b then _ else _] => destruct b
           | |- context [match regExp ?s ?f with _ => _ end] => destruct (regExp s f)
           end; reflexivity. }
  destruct (convertOperator regExp action g) as [converted g']. simpl in *.
  destruct converted as [[]|e]; simpl; [|discriminate].
  destruct (selectDocs _ _ _ _ _ _ _ _ g') as [arr|e] eqn:Hsel; simpl; [|discriminate].
  intros H. inversion H. exists entity, arr.
  split; [reflexivity|]. split; [exact Hsel|].
  apply selectDocs_stored in Hsel as [Hin Hsub]. rewrite Hattr in Hsub.
  split; [exact Hin|]. split; [exact Hsub|].
  unfold paginate. now rewrite Hsi, Hcnt.
Qed.

(** X1: every record a query returns is a stored document of the
    collection it asks, and a page is never longer than the number of
    matches. When the collection declares no sorted index on the
    attribute asked for (the users and the groups declare none), the
    records come in store order, none twice, and the number of matches
    is never more than the collection holds. *)
Theorem query_returns_stored_documents
    (config : Config) (baseEntity : string) (entity : Entity) (g : GetObj)
    (r : QueryResult) :
  config !! baseEntity = Some entity ->
  (fst (getUsers regExp otherOps dotted indexSearch config baseEntity g) = Ok r ->
   Forall (fun d => In d (data (users entity))) (Resources r)
   /\ Z.of_nat (length (Resources r)) <= totalResults r
   /\ (index_of (users entity) (attribute g) = None ->
       sublist (Resources r) (data (users entity))
       /\ totalResults r <= Z.of_nat (length (data (users entity)))))
  /\ (fst (getGroups regExp otherOps dotted indexSearch config baseEntity g) = Ok r ->
      Forall (fun d => In d (data (groups entity))) (Resources r)
      /\ Z.of_nat (length (Resources r)) <= totalResults r
      /\ (index_of (groups entity) (attribute g) = None ->
          sublist (Resources r) (data (groups entity))
          /\ totalResults r <= Z.of_nat (length (data (groups entity)))))
  /\ (fst (getEntitlements regExp otherOps dotted indexSearch config baseEntity g) = Ok r ->
      Forall (fun d => In d (data (entitlements entity))) (Resources r)
      /\ Z.of_nat (length (Resources r)) <= totalResults r
      /\ (index_of (entitlements entity) (attribute g) = None ->
          sublist (Resources r) (data (entitlements entity))
          /\ totalResults r <= Z.of_nat (length (data (entitlements entity))))).
Proof.
  intros Hcfg.
  assert (Hall : forall action identifying reference collection,
             fst (query regExp otherOps dotted indexSearch action identifying reference
                    collection config baseEntity g) = Ok r ->
             Forall (fun d => In d (data (collection entity))) (Resources r)
             /\ Z.of_nat (length (Resources r)) <= totalResults r
             /\ (index_of (collection entity) (attribute g) = None ->
                 sublist (Resources r) (data (collection entity))
                 /\ totalResults r <= Z.of_nat (length (data (collection entity))))).
  { intros action identifying reference collection Hq.
    apply query_ok_inv in Hq as (entity' & arr & Hcfg' & _ & Hin & Hsub & ->).
    rewrite Hcfg in Hcfg'. inversion Hcfg'; subst entity'.
    unfold paginate. simpl.
    pose proof (js_slice_sublist arr
                  (Z.max 0 (num_or (startIndex g) 1 - 1))
                  (Z.max 0 (num_or (startIndex g) 1 - 1) + num_or (count g) 100)) as Hpage.
    split; [eapply Forall_of_sublist; eassumption|].
    split; [apply sublist_length in Hpage; lia|].
    intros Hnone. specialize (Hsub Hnone).
    split; [etransitivity; eassumption|].
    apply sublist_length in Hsub. lia. }
  split; [|split]; intros Hq; apply Hall in Hq; exact Hq.
Qed.


Lemma num_or_nonzero (n dflt : Z) : n <> 0 -> num_or (Some n) dflt = n.
Proof. intros H. unfold num_or. apply Z.eqb_neq in H. now rewrite H. Qed.

Lemma paginate_length (g : GetObj) (arr : list doc) :
  0 <= num_or (count g) 100 ->
  Z.of_nat (length (Resources (paginate g arr)))
  = Z.max 0 (Z.min (num_or (count g) 100)
                   (Z.of_nat (length arr) - Z.max 0 (num_or (startIndex g) 1 - 1))).
Proof.
  intros Hc. rewrite paginate_window by exact Hc. unfold window_of. simpl.
  rewrite length_take, length_drop. lia.
Qed.

Lemma paginate_tiles (g : GetObj) (arr : list doc) (s k k' : Z) :
  1 <= s -> 0 < k -> 0 < k' ->
  Resources (paginate (with_paging g (Some s) (Some k)) arr)
  ++ Resources (paginate (with_paging g (Some (s + k)) (Some k')) arr)
  = Resources (paginate (with_paging g (Some s) (Some (k + k'))) arr).
Proof.
  intros Hs Hk Hk'.
  rewrite !paginate_window
    by (cbn [with_paging count]; rewrite num_or_nonzero by lia; lia).
  unfold window_of. cbn [with_paging count startIndex Resources].
  rewrite !num_or_nonzero by lia.
  replace (Z.to_nat (Z.max 0 (s + k - 1)))
    with (Z.to_nat (Z.max 0 (s - 1)) + Z.to_nat k)%nat by lia.
  rewrite <- drop_drop, take_take_drop. f_equal. lia.
Qed.

(** X2: a page holds as many records as its count allows and the matches
    from its start on supply (for a count that is not negative), and two
    pages in a row of one filter, the second starting where the first
    ends, hold together what the one page of both counts holds, with the
    same totalResults. *)
Theorem pages_have_length_and_tile
    (config : Config) (baseEntity : string) (g : GetObj) (s k k' : Z) (r1 : QueryResult) :
  1 <= s -> 0 < k -> 0 < k' ->
  (fst (getUsers regExp otherOps dotted indexSearch config baseEntity (with_paging g (Some s) (Some k)))
   = Ok r1 ->
   Z.of_nat (length (Resources r1)) = Z.max 0 (Z.min k (totalResults r1 - (s - 1)))
   /\ exists r2 r12,
        fst (getUsers regExp otherOps dotted indexSearch config baseEntity
               (with_paging g (Some (s + k)) (Some k'))) = Ok r2
        /\ fst (getUsers regExp otherOps dotted indexSearch config baseEntity
                  (with_paging g (Some s) (Some (k + k')))) = Ok r12
        /\ Resources r1 ++ Resources r2 = Resources r12
        /\ totalResults r2 = totalResults r1 /\ totalResults r12 = totalResults r1)
  /\ (fst (getGroups regExp otherOps dotted indexSearch config baseEntity (with_paging g (Some s) (Some k)))
      = Ok r1 ->
      Z.of_nat (length (Resources r1)) = Z.max 0 (Z.min k (totalResults r1 - (s - 1)))
      /\ exists r2 r12,
           fst (getGroups regExp otherOps dotted indexSearch config baseEntity
                  (with_paging g (Some (s + k)) (Some k'))) = Ok r2
           /\ fst (getGroups regExp otherOps dotted indexSearch config baseEntity
                     (with_paging g (Some s) (Some (k + k')))) = Ok r12
           /\ Resources r1 ++ Resources r2 = Resources r12
           /\ totalResults r2 = totalResults r1 /\ totalResults r12 = totalResults r1)
  /\ (fst (getEntitlements regExp otherOps dotted indexSearch config baseEntity
             (with_paging g (Some s) (Some k))) = Ok r1 ->
      Z.of_nat (length (Resources r1)) = Z.max 0 (Z.min k (totalResults r1 - (s - 1)))
      /\ exists r2 r12,
           fst (getEntitlements regExp otherOps dotted indexSearch config baseEntity
                  (with_paging g (Some (s + k)) (Some k'))) = Ok r2
           /\ fst (getEntitlements regExp otherOps dotted indexSearch config baseEntity
                     (with_paging g (Some s) (Some (k + k')))) = Ok r12
           /\ Resources r1 ++ Resources r2 = Resources r12
           /\ totalResults r2 = totalResults r1 /\ totalResults r12 = totalResults r1).
Proof.
  intros Hs Hk Hk'.
  assert (Hall : forall action identifying reference collection,
             fst (query regExp otherOps dotted indexSearch action identifying reference collection
                    config baseEntity (with_paging g (Some s) (Some k))) = Ok r1 ->
             Z.of_nat (length (Resources r1)) = Z.max 0 (Z.min k (totalResults r1 - (s - 1)))
             /\ exists r2 r12,
                  fst (query regExp otherOps dotted indexSearch action identifying reference collection
                         config baseEntity (with_paging g (Some (s + k)) (Some k'))) = Ok r2
                  /\ fst (query regExp otherOps dotted indexSearch action identifying reference collection
                            config baseEntity (with_paging g (Some s) (Some (k + k')))) = Ok r12
                  /\ Resources r1 ++ Resources r2 = Resources r12
                  /\ totalResults r2 = totalResults r1 /\ totalResults r12 = totalResults r1).
  { intros action identifying reference collection Hq.
    apply query_ok_inv in Hq as (entity & arr & Hcfg & Hm & _ & _ & ->).
    assert (Hm' : forall si cnt,
               matched regExp otherOps dotted indexSearch action identifying reference
                 (collection entity) (with_paging g si cnt) = Ok arr).
    { intros si cnt. unfold matched in *.
      rewrite convertOperator_paging in Hm |- *.
      destruct (convertOperator regExp action g) as [converted g']. simpl in *.
      destruct converted as [[]|e]; simpl in *; [|discriminate].
      now rewrite selectDocs_paging in Hm |- *. }
    split.
    - rewrite paginate_length
        by (cbn [with_paging count]; rewrite num_or_nonzero by lia; lia).
      cbn [with_paging count startIndex paginate totalResults].
      rewrite !num_or_nonzero by lia. lia.
    - exists (paginate (with_paging g (Some (s + k)) (Some k')) arr),
        (paginate (with_paging g (Some s) (Some (k + k'))) arr).
      split; [now apply query_matched with (entity := entity)|].
      split; [now apply query_matched with (entity := entity)|].
      split; [now apply paginate_tiles|]. split; reflexivity. }
  split; [|split]; apply Hall.
Qed.

Lemma includes_dollar (op : string) :
  includes ("co" :: "ge" :: "le" :: "sw" :: "ew" :: validFilterOperators) ("$" +:+ op) = false.
Proof. reflexivity. Qed.

Lemma convertOperator_invalid (action : string) (g : GetObj) (op : string) :
  operator g = Some op -> op <> "" ->
  includes ("co" :: "ge" :: "le" :: "sw" :: "ew" :: validFilterOperators) op = false ->
  convertOperator regExp action g
  = (Throw (mkError "invalidFilter"
              (action +:+ " error: filter operator '" +:+ op
               +:+ "' is not valid, valid operators for this endpoint are: "
               +:+ "eq,ne,aeq,dteq,gt,gte,lt,lte,between,jgt,jgte,jlt,jlte,jbetween,"
               +:+ "regex,in,nin,keyin,nkeyin,definedin,undefinedin,contains,"
               +:+ "containsAny,type,finite,size,len,exists,co,ge,le,sw,ew")),
     g).
Proof.
  intros Hop Hne Hnone. unfold convertOperator. rewrite Hop.
  apply String.eqb_neq in Hne. rewrite Hne.
  simpl in Hnone.
  apply orb_false_elim in Hnone as [E1 Hnone].
  apply orb_false_elim in Hnone as [E2 Hnone].
  apply orb_false_elim in Hnone as [E3 Hnone].
  apply orb_false_elim in Hnone as [E4 Hnone].
  apply orb_false_elim in Hnone as [E5 Hnone].
  rewrite E1, E2, E3, E4, E5.
  unfold includes, validFilterOperators. simpl existsb. rewrite Hnone. reflexivity.
Qed.

Lemma query_invalid action identifying reference (collection : Entity -> Collection)
    (config : Config) (baseEntity : string) (entity : Entity) (g : GetObj) (op : string) :
  config !! baseEntity = Some entity ->
  operator g = Some op -> op <> "" ->
  includes ("co" :: "ge" :: "le" :: "sw" :: "ew" :: validFilterOperators) op = false ->
  query regExp otherOps dotted indexSearch action identifying reference collection config baseEntity g
  = (Throw (mkError "invalidFilter"
              (action +:+ " error: filter operator '" +:+ op
               +:+ "' is not valid, valid operators for this endpoint are: "
               +:+ "eq,ne,aeq,dteq,gt,gte,lt,lte,between,jgt,jgte,jlt,jlte,jbetween,"
               +:+ "regex,in,nin,keyin,nkeyin,definedin,undefinedin,contains,"
               +:+ "containsAny,type,finite,size,len,exists,co,ge,le,sw,ew")),
     g).
Proof.
  intros Hcfg Hop Hne Hnone. unfold query. rewrite Hcfg.
  now rewrite (convertOperator_invalid action g op Hop Hne Hnone).
Qed.

(** X3: a filter operator that is neither one of co, ge, le, sw, ew nor
    an operator of the store makes each query operation fail with the
    invalidFilter error, whose message quotes the operator and lists the
    accepted ones; the filter object stays as it was. *)
Theorem unknown_operator_is_invalidFilter
    (config : Config) (baseEntity : string) (entity : Entity) (g : GetObj) (op : string) :
  config !! baseEntity = Some entity ->
  operator g = Some op -> op <> "" ->
  includes ("co" :: "ge" :: "le" :: "sw" :: "ew" :: validFilterOperators) op = false ->
  getUsers regExp otherOps dotted indexSearch config baseEntity g
  = (Throw (mkError "invalidFilter"
              ("getUsers error: filter operator '" +:+ op
               +:+ "' is not valid, valid operators for this endpoint are: "
               +:+ "eq,ne,aeq,dteq,gt,gte,lt,lte,between,jgt,jgte,jlt,jlte,jbetween,"
               +:+ "regex,in,nin,keyin,nkeyin,definedin,undefinedin,contains,"
               +:+ "containsAny,type,finite,size,len,exists,co,ge,le,sw,ew")), g)
  /\ getGroups regExp otherOps dotted indexSearch config baseEntity g
     = (Throw (mkError "invalidFilter"
                 ("getGroups error: filter operator '" +:+ op
                  +:+ "' is not valid, valid operators for this endpoint are: "
                  +:+ "eq,ne,aeq,dteq,gt,gte,lt,lte,between,jgt,jgte,jlt,jlte,jbetween,"
                  +:+ "regex,in,nin,keyin,nkeyin,definedin,undefinedin,contains,"
                  +:+ "containsAny,type,finite,size,len,exists,co,ge,le,sw,ew")), g)
  /\ getEntitlements regExp otherOps dotted indexSearch config baseEntity g
     = (Throw (mkError "invalidFilter"
                 ("getEntitlements error: filter operator '" +:+ op
                  +:+ "' is not valid, valid operators for this endpoint are: "
                  +:+ "eq,ne,aeq,dteq,gt,gte,lt,lte,between,jgt,jgte,jlt,jlte,jbetween,"
                  +:+ "regex,in,nin,keyin,nkeyin,definedin,undefinedin,contains,"
                  +:+ "containsAny,type,finite,size,len,exists,co,ge,le,sw,ew")), g).
Proof.
  intros Hcfg Hop Hne Hnone.
  unfold getUsers, getGroups, getEntitlements.
  split; [|split].
  - exact (query_invalid "getUsers" _ _ users config baseEntity entity g op
             Hcfg Hop Hne Hnone).
  - exact (query_invalid "getGroups" _ _ groups config baseEntity entity g op
             Hcfg Hop Hne Hnone).
  - exact (query_invalid "getEntitlements" _ _ entitlements config baseEntity entity g op
             Hcfg Hop Hne Hnone).
Qed.

(** After a translation that went through, the object holds an operator
    that starts with a dollar. *)
Lemma convertOperator_dollar (action : string) (g : GetObj) :
  given (operator g) = true ->
  fst (convertOperator regExp action g) = Ok tt ->
  exists op', operator (snd (convertOperator regExp action g)) = Some ("$" +:+ op').
Proof.
  unfold convertOperator, given.
  destruct (operator g) as [op|]; [|discriminate].
  destruct (String.eqb op ""); [discriminate|]. intros _.
  repeat match goal with
         | |- context [if ?b then _ else _] => destruct b
         | |- context [match regExp ?s ?f with _ => _ end] => destruct (regExp s f)
         end; simpl; try discriminate; intros _.
  - now exists "contains".
  - now exists "gte".
  - now exists "lte".
  - now exists "regex".
  - now exists "regex".
  - now exists op.
Qed.

(** X4: the translation is not repeatable. When a query with a filter
    operator has succeeded, the object it leaves behind holds the native
    operator, which no query operation accepts: the same query on that
    object fails with the invalidFilter error and leaves it as it is. *)
Theorem translated_filter_object_is_refused
    (config : Config) (baseEntity : string) (g : GetObj) (r : QueryResult) :
  given (operator g) = true ->
  (fst (getUsers regExp otherOps dotted indexSearch config baseEntity g) = Ok r ->
   exists e,
     getUsers regExp otherOps dotted indexSearch config baseEntity
       (snd (getUsers regExp otherOps dotted indexSearch config baseEntity g))
     = (Throw e, snd (getUsers regExp otherOps dotted indexSearch config baseEntity g))
     /\ name e = "invalidFilter")
  /\ (fst (getGroups regExp otherOps dotted indexSearch config baseEntity g) = Ok r ->
      exists e,
        getGroups regExp otherOps dotted indexSearch config baseEntity
          (snd (getGroups regExp otherOps dotted indexSearch config baseEntity g))
        = (Throw e, snd (getGroups regExp otherOps dotted indexSearch config baseEntity g))
        /\ name e = "invalidFilter")
  /\ (fst (getEntitlements regExp otherOps dotted indexSearch config baseEntity g) = Ok r ->
      exists e,
        getEntitlements regExp otherOps dotted indexSearch config baseEntity
          (snd (getEntitlements regExp otherOps dotted indexSearch config baseEntity g))
        = (Throw e, snd (getEntitlements regExp otherOps dotted indexSearch config baseEntity g))
        /\ name e = "invalidFilter").
Proof.
  intros Hop.
  assert (Hall : forall action identifying reference collection,
             fst (query regExp otherOps dotted indexSearch action identifying reference collection
                    config baseEntity g) = Ok r ->
             exists e,
               query regExp otherOps dotted indexSearch action identifying reference collection
                 config baseEntity
                 (snd (query regExp otherOps dotted indexSearch action identifying reference collection
                         config baseEntity g))
               = (Throw e,
                  snd (query regExp otherOps dotted indexSearch action identifying reference collection
                         config baseEntity g))
               /\ name e = "invalidFilter").
  { intros action identifying reference collection Hq.
    destruct (config !! baseEntity) as [entity|] eqn:Hcfg;
      [|unfold query in Hq; now rewrite Hcfg in Hq].
    rewrite (query_filter_object regExp otherOps dotted indexSearch action identifying
               reference collection config baseEntity entity g Hcfg).
    assert (Hconv : fst (convertOperator regExp action g) = Ok tt).
    { unfold query in Hq. rewrite Hcfg in Hq.
      destruct (convertOperator regExp action g) as [[[]|e] g']; [reflexivity|discriminate]. }
    destruct (convertOperator_dollar action g Hop Hconv) as [op' Hop'].
    rewrite (query_invalid action identifying reference collection config baseEntity entity
               (snd (convertOperator regExp action g)) ("$" +:+ op') Hcfg Hop')
      by (discriminate || apply includes_dollar).
    eexists. split; reflexivity. }
  split; [|split]; apply Hall.
Qed.


Lemma strict_eq_true (a b : jsval) : strict_eq a b = true -> a = b.
Proof.
  destruct a, b; simpl; try discriminate; intros H; try reflexivity.
  - apply Bool.eqb_prop in H. now subst.
  - apply Z.eqb_eq in H. now subst.
  - apply String.eqb_eq in H. now subst.
Qed.

Lemma strict_eq_sym (a b : jsval) : strict_eq a b = strict_eq b a.
Proof.
  destruct a, b; simpl; try reflexivity.
  - now destruct b, b0.
  - apply Z.eqb_sym.
  - apply String.eqb_sym.
Qed.

(** Under distinctness the scan for a value finds what the first match
    finds, and nothing else. *)
Lemma distinct_filter (field : string) (v : jsval) (docs : list doc) :
  distinct_on field docs -> keyed v = true ->
  List.filter (fun d => strict_eq (obj_get d field) v) docs
  = match find_index (fun d => strict_eq (obj_get d field) v) docs with
    | Some (_, d) => [d]
    | None => []
    end.
Proof.
  intros Hdistinct Hv. induction docs as [|d docs IH]; simpl; [reflexivity|].
  destruct Hdistinct as [Hd Hrest].
  destruct (strict_eq (obj_get d field) v) eqn:E.
  - f_equal. apply strict_eq_true in E. subst v.
    specialize (Hd Hv). clear IH Hrest.
    induction Hd as [|d' docs Hd' _ IH]; simpl; [reflexivity|]. now rewrite strict_eq_sym, Hd'.
  - rewrite (IH Hrest). now destruct (find_index _ docs) as [[i d']|].
Qed.


(** The equality search for a value that at most one document holds
    returns that document, or nothing, whether or not it goes through a
    sorted index. *)
Lemma coll_find_value_distinct (c : Collection) (field : string) (v : jsval) :
  distinct_on field (data c) -> keyed v = true -> is_primitive v = true ->
  has_dot field = false ->
  coll_find_value regExp otherOps dotted indexSearch c field v
  = Ok match find_index (fun d => strict_eq (obj_get d field) v) (data c) with
       | Some (_, d) => [d]
       | None => []
       end.
Proof.
  intros Hdistinct Hkeyed Hprim Hdot.
  pose proof (distinct_filter field v (data c) Hdistinct Hkeyed) as Hfilter.
  unfold coll_find_value. destruct (data c) as [|d0 rest] eqn:Hdata; [reflexivity|].
  rewrite <- Hdata in *. rewrite Hprim. unfold coll_find. rewrite Hdata, <- Hdata.
  destruct (index_of c field) as [b|] eqn:Hindex.
  - change (negb (includes indexedOps "$eq")) with false. cbn iota. rewrite Hdot.
    change (String.eqb "$eq" "$eq") with true. cbn iota. f_equal.
    pose proof (rows_for_filter c field (fun x => strict_eq (obj_get x field) v)) as Hperm.
    rewrite Hfilter in Hperm.
    destruct (find_index _ (data c)) as [[i d]|].
    + now apply Permutation_singleton_r in Hperm.
    + now apply Permutation_nil_r in Hperm.
  - simpl. rewrite Hdot. now rewrite Hfilter.
Qed.

Lemma query_by_id action identifying reference (collection : Entity -> Collection)
    (config : Config) (baseEntity : string) (entity : Entity) (id : string)
    (raw : option string) :
  config !! baseEntity = Some entity ->
  includes identifying "id" = true ->
  distinct_on "id" (data (collection entity)) ->
  fst (query regExp otherOps dotted indexSearch action identifying reference collection
         config baseEntity (mkGetObj "id" (Some "eq") (VStr id) raw None None))
  = Ok match find_index (has_id id) (data (collection entity)) with
       | Some (_, d) => mkQueryResult [d] 1
       | None => mkQueryResult [] 0
       end.
Proof.
  intros Hcfg Hid Hdistinct.
  erewrite query_matched; [|exact Hcfg|].
  2: { unfold matched. simpl. unfold selectDocs. simpl. rewrite Hid. simpl.
       unfold uniqueLookup. simpl.
       apply coll_find_value_distinct; [assumption | reflexivity ..]. }
  unfold has_id. now destruct (find_index _ _) as [[i d]|].
Qed.


(** X5: in a collection whose documents have distinct identifiers, the
    query for an identifier (operator eq on id, no paging) succeeds and
    returns exactly the document that an update or a delete of that
    identifier would act on: one record and totalResults 1, or no record
    and totalResults 0. *)
Theorem query_by_id_returns_the_document
    (config : Config) (baseEntity : string) (entity : Entity) (id : string)
    (raw : option string) :
  config !! baseEntity = Some entity ->
  (distinct_on "id" (data (users entity)) ->
   fst (getUsers regExp otherOps dotted indexSearch config baseEntity
          (mkGetObj "id" (Some "eq") (VStr id) raw None None))
   = Ok match find_index (has_id id) (data (users entity)) with
        | Some (_, d) => mkQueryResult [d] 1
        | None => mkQueryResult [] 0
        end)
  /\ (distinct_on "id" (data (groups entity)) ->
      fst (getGroups regExp otherOps dotted indexSearch config baseEntity
             (mkGetObj "id" (Some "eq") (VStr id) raw None None))
      = Ok match find_index (has_id id) (data (groups entity)) with
           | Some (_, d) => mkQueryResult [d] 1
           | None => mkQueryResult [] 0
           end)
  /\ (distinct_on "id" (data (entitlements entity)) ->
      fst (getEntitlements regExp otherOps dotted indexSearch config baseEntity
             (mkGetObj "id" (Some "eq") (VStr id) raw None None))
      = Ok match find_index (has_id id) (data (entitlements entity)) with
           | Some (_, d) => mkQueryResult [d] 1
           | None => mkQueryResult [] 0
           end).
Proof.
  intros Hcfg. unfold getUsers, getGroups, getEntitlements.
  split; [|split]; intros Hdistinct; now apply query_by_id.
Qed.

End MoreQueryFacts.

(** ** Creation, further *)

Lemma find_index_none_inv (p : doc -> bool) (l : list doc) :
  find_index p l = None -> Forall (fun d => p d = false) l.
Proof.
  induction l as [|d l IH]; simpl; [constructor|].
  destruct (p d) eqn:E; [discriminate|].
  destruct (find_index p l) as [[i d']|]; [discriminate|].
  intros _. constructor; [exact E | now apply IH].
Qed.

(** When [findOne] finds nothing, no document holds the value. *)
Lemma findOne_none_inv (c : Collection) (field : string) (v : jsval) :
  findOne c field v = Ok None ->
  is_primitive v = true
  /\ Forall (fun d => strict_eq (obj_get d field) v = false) (data c).
Proof.
  intros Hfind. unfold findOne in Hfind.
  destruct (is_primitive v) eqn:Hprim; [|discriminate]. split; [reflexivity|].
  apply Forall_forall. intros d Hd.
  destruct (strict_eq (obj_get d field) v) eqn:Htest; [|reflexivity].
  destruct (findOne_some c field v Hprim) as [found Hfound].
  { apply Exists_exists. eauto. }
  unfold findOne in Hfound. rewrite Hprim in Hfound. congruence.
Qed.

(** X6: a create whose payload lacks the mandatory attribute (userName
    for a user, displayName for a group), or holds something falsy there
    such as the empty string, fails with the invalidValue error before
    anything is looked up or written. *)
Theorem create_without_mandatory_attribute
    (config : Config) (baseEntity : string) (entity : Entity) (scimdata : doc)
    (uuid created lastModified : string) (stamp : Z) :
  config !! baseEntity = Some entity ->
  (truthy (obj_get scimdata "userName") = false ->
   createUser config baseEntity scimdata uuid created lastModified stamp
   = (Throw (mkError "invalidValue" "createUser error: userName is required"), config))
  /\ (truthy (obj_get scimdata "displayName") = false ->
      createGroup config baseEntity scimdata uuid created lastModified stamp
      = (Throw (mkError "invalidValue" "createGroup error: displayName is required"), config)).
Proof.
  intros Hcfg. unfold createUser, createGroup, create. rewrite Hcfg.
  split; intros ->; reflexivity.
Qed.

(** The loop of insert over the unique fields keeps the keys it found. *)
Lemma unique_each_set_keeps (loki : Z) (obj : doc) (fields : list string) (c : Collection)
    (key : string * string) :
  is_Some (keyMap c !! key) ->
  is_Some (keyMap (snd (unique_each (fun c0 f => unique_set c0 f loki obj) c fields)) !! key).
Proof.
  revert c. induction fields as [|field fields IH]; intros c Hkey; simpl; [exact Hkey|].
  destruct (unique_set c field loki obj) as [c1|e] eqn:Hset; simpl; [|exact Hkey].
  apply IH. eapply unique_set_keeps; eassumption.
Qed.

Lemma unique_set_absent (c c' : Collection) (field : string) (loki : Z) (obj : doc)
    (key : string * string) :
  unique_set c field loki obj = Ok c' ->
  keyMap c' !! key = None -> keyMap c !! key = None.
Proof.
  intros Hset Hnone. destruct (keyMap c !! key) eqn:E; [|reflexivity].
  destruct (unique_set_keeps _ _ _ _ _ key Hset) as [x Hx]; [eauto|]. congruence.
Qed.

(** When the loop of insert goes through, every key it entered was free
    before and is held after. *)
Lemma unique_each_set_ok (loki : Z) (obj : doc) (fields : list string) (c c' : Collection) :
  unique_each (fun c0 f => unique_set c0 f loki obj) c fields = (Ok tt, c') ->
  Forall (fun f => key_held c' f obj) fields
  /\ Forall (fun f => keyed (obj_get obj f) = true ->
                      keyMap c !! (f, toString (obj_get obj f)) = None) fields.
Proof.
  revert c. induction fields as [|field fields IH]; intros c Heach; simpl in Heach.
  - split; constructor.
  - destruct (unique_set c field loki obj) as [c1|e] eqn:Hset; [|discriminate].
    destruct (IH c1 Heach) as [Hheld Hfree]. split; constructor.
    + intros Hkeyed.
      pose proof (unique_each_set_keeps loki obj fields c1
                    (field, toString (obj_get obj field))) as Hkeeps.
      rewrite Heach in Hkeeps. apply Hkeeps.
      unfold unique_set in Hset. rewrite Hkeyed in Hset.
      destruct (keyMap c !! _); [discriminate|]. inversion Hset. simpl.
      rewrite lookup_insert_eq. eauto.
    + exact Hheld.
    + intros Hkeyed. unfold unique_set in Hset. rewrite Hkeyed in Hset.
      now destruct (keyMap c !! _).
    + eapply Forall_impl; [exact Hfree|]. simpl. intros f Hf Hkeyed.
      eapply unique_set_absent; [exact Hset | now apply Hf].
Qed.

(** Whatever insert answers, the index holds afterwards the keys it
    held; and when it accepts the document, the keys of the document were
    free and are held. *)
Lemma coll_insert_keys (c c' : Collection) (stamp : Z) (d : doc) (r : result doc) :
  coll_insert c stamp d = (r, c') ->
  (forall key, is_Some (keyMap c !! key) -> is_Some (keyMap c' !! key))
  /\ (forall stored, r = Ok stored ->
      Forall (fun f => key_held c' f (identified d (maxId c + 1))) (uniqueNames c)
      /\ Forall (fun f => keyed (obj_get (identified d (maxId c + 1)) f) = true ->
                          keyMap c !! (f, toString (obj_get (identified d (maxId c + 1)) f))
                          = None) (uniqueNames c)).
Proof.
  unfold coll_insert. intros H.
  assert (Hno : forall e : Error, (Throw e, c) = (r, c') ->
            (forall key, is_Some (keyMap c !! key) -> is_Some (keyMap c' !! key))
            /\ (forall stored, r = Ok stored ->
                Forall (fun f => key_held c' f (identified d (maxId c + 1))) (uniqueNames c)
                /\ Forall (fun f => keyed (obj_get (identified d (maxId c + 1)) f) = true ->
                                    keyMap c
                                      !! (f, toString (obj_get (identified d (maxId c + 1)) f))
                                    = None) (uniqueNames c))).
  { intros e E. inversion E; subst. split; [auto | discriminate]. }
  destruct (obj_get d "meta"); try (eapply Hno; exact H).
  all: destruct (negb (strict_eq (obj_get d "$loki") VUndefined)); [eapply Hno; exact H|].
  all: match type of H with
       | (let (_, _) := unique_each ?step ?start ?fields in _) = _ =>
           pose proof (unique_each_set_keeps (maxId c + 1) (identified d (maxId c + 1))
                         fields start) as Hkeeps;
           pose proof (unique_each_set_ok (maxId c + 1) (identified d (maxId c + 1))
                         fields start) as Hok;
           destruct (unique_each step start fields) as [[[]|e] c2]
       end.
  all: inversion H; subst; simpl in *.
  all: split; [exact Hkeeps|]; intros stored Hstored; try discriminate.
  all: destruct (Hok c2 eq_refl) as [Hheld Hfree]; split; assumption.
Qed.

(** What a creation leaves behind, whatever it answers: either the
    configuration as it was, or the tenant with the collection as the
    insert of the store left it. *)
Lemma create_outcome action noun field resourceType collection set
    (config config' : Config) (baseEntity : string) (entity : Entity) (scimdata : doc)
    (uuid created lastModified : string) (stamp : Z) (r : result doc) :
  config !! baseEntity = Some entity ->
  create action noun field resourceType collection set config baseEntity scimdata
    uuid created lastModified stamp = (r, config') ->
  ((exists e, r = Throw e) /\ config' = config)
  \/ (findOne (collection entity) field (obj_get scimdata field) = Ok None
      /\ exists c',
           coll_insert (collection entity) stamp
             (obj_set (obj_set scimdata "id" (VStr uuid)) "meta"
                (freshMeta resourceType created lastModified)) = (r, c')
           /\ config' = <[baseEntity := set entity c']> config).
Proof.
  intros Hcfg. unfold create. rewrite Hcfg. intros H.
  destruct (negb (truthy (obj_get scimdata field))); [inversion H; eauto|].
  destruct (findOne _ _ _) as [[found|]|e] eqn:Hfind; try (inversion H; eauto; fail).
  right. split; [reflexivity|].
  destruct (coll_insert _ _ _) as [stored c'] eqn:Hinsert.
  inversion H; subst. eauto.
Qed.

(** X7: on a users collection with the unique fields id and userName, a
    create with a login name that is a non-empty string no stored user
    has. When the index of the unique fields holds no key for the new
    identifier nor for the login name, the create succeeds: the record is
    what the insert of the store makes of the payload with the identifier
    and the metadata of the object literal (its id is the identifier,
    every other attribute of the payload is kept, [$loki] and the
    metadata are those of the store), it is stored last, and the index
    then holds both keys. When the index holds a key for the identifier,
    the create fails with the Duplicate key error of the store for id;
    when it holds none for the identifier but one for the login name (a
    key that a rename or a delete has left behind), it fails with the
    Duplicate key error for userName although no user has that name. In
    both cases no document is stored. *)
Theorem createUser_outcome
    (config : Config) (baseEntity : string) (entity : Entity) (scimdata : doc)
    (login uuid created lastModified : string) (stamp : Z) :
  config !! baseEntity = Some entity ->
  uniqueNames (users entity) = ["id"; "userName"] ->
  obj_get scimdata "userName" = VStr login -> login <> "" ->
  obj_get scimdata "$loki" = VUndefined ->
  Forall (fun d => strict_eq (obj_get d "userName") (VStr login) = false)
    (data (users entity)) ->
  let record := inserted (obj_set (obj_set scimdata "id" (VStr uuid)) "meta"
                            (freshMeta "User" created lastModified))
                  (maxId (users entity) + 1) stamp in
  (keyMap (users entity) !! ("id", uuid) = None ->
   keyMap (users entity) !! ("userName", login) = None ->
   exists users',
     createUser config baseEntity scimdata uuid created lastModified stamp
     = (Ok record, <[baseEntity := set_users entity users']> config)
     /\ data users' = data (users entity) ++ [record]
     /\ is_Some (keyMap users' !! ("id", uuid))
     /\ is_Some (keyMap users' !! ("userName", login))
     /\ obj_get record "id" = VStr uuid
     /\ obj_get record "$loki" = VNum (maxId (users entity) + 1)
     /\ (forall k, k <> "id" -> k <> "meta" -> k <> "$loki" ->
                   obj_get record k = obj_get scimdata k))
  /\ (is_Some (keyMap (users entity) !! ("id", uuid)) ->
      exists users',
        createUser config baseEntity scimdata uuid created lastModified stamp
        = (Throw (mkError "Error" ("Duplicate key for property id: " +:+ uuid)),
           <[baseEntity := set_users entity users']> config)
        /\ data users' = data (users entity))
  /\ (keyMap (users entity) !! ("id", uuid) = None ->
      is_Some (keyMap (users entity) !! ("userName", login)) ->
      exists users',
        createUser config baseEntity scimdata uuid created lastModified stamp
        = (Throw (mkError "Error" ("Duplicate key for property userName: " +:+ login)),
           <[baseEntity := set_users entity users']> config)
        /\ data users' = data (users entity)).
Proof.
  intros Hcfg Hunique Hname Hne Hloki Hnone record.
  set (payload := obj_set (obj_set scimdata "id" (VStr uuid)) "meta"
                    (freshMeta "User" created lastModified)) in *.
  assert (Htruthy : negb (truthy (VStr login)) = false).
  { apply String.eqb_neq in Hne. simpl. now rewrite Hne. }
  assert (Hmeta : obj_get payload "meta" = freshMeta "User" created lastModified)
    by apply obj_get_set_eq.
  assert (Hpid : forall n, obj_get (identified payload n) "id" = VStr uuid).
  { intros n. rewrite identified_other by discriminate. unfold payload.
    rewrite obj_get_set_ne by discriminate. apply obj_get_set_eq. }
  assert (Hplogin : forall n, obj_get (identified payload n) "userName" = VStr login).
  { intros n. rewrite identified_other by discriminate. unfold payload.
    now rewrite !obj_get_set_ne by discriminate. }
  assert (Hploki : obj_get payload "$loki" = VUndefined).
  { unfold payload. now rewrite !obj_get_set_ne by discriminate. }
  assert (Hcreate : createUser config baseEntity scimdata uuid created lastModified stamp
                    = (fst (coll_insert (users entity) stamp payload),
                       <[baseEntity := set_users entity
                                         (snd (coll_insert (users entity) stamp payload))]>
                         config)).
  { unfold createUser, create. rewrite Hcfg, Hname, Htruthy.
    rewrite (findOne_none _ "userName" (VStr login) eq_refl Hnone).
    fold payload. now destruct (coll_insert (users entity) stamp payload). }
  rewrite Hcreate. clear Hcreate.
  split; [|split].
  - intros Hid Hlogin.
    destruct (coll_insert_free (users entity) stamp payload) as (c' & Hinsert & Hdata & _ & Hheld).
    + right. eexists. exact Hmeta.
    + exact Hploki.
    + rewrite Hunique. apply (bool_decide_unpack _). reflexivity.
    + rewrite Hunique. repeat constructor; [rewrite Hpid | rewrite Hplogin]; assumption.
    + exists c'. rewrite Hinsert. split; [reflexivity|]. split; [exact Hdata|].
      rewrite Hunique in Hheld. inversion Hheld as [|? ? H1 Hrest]; subst.
      inversion Hrest as [|? ? H2 _]; subst.
      unfold key_held in H1, H2. rewrite Hpid in H1. rewrite Hplogin in H2.
      split; [now apply H1|]. split; [now apply H2|].
      destruct (inserted_document payload _ (maxId (users entity) + 1) stamp Hmeta)
        as (_ & Hl & Hother).
      split; [unfold record; rewrite Hother by discriminate; unfold payload;
              rewrite obj_get_set_ne by discriminate; apply obj_get_set_eq|].
      split; [exact Hl|].
      intros k Hk1 Hk2 Hk3. unfold record. rewrite Hother by assumption. unfold payload.
      now rewrite !obj_get_set_ne by congruence.
  - intros [held Hheld].
    assert (Hins : exists c',
               coll_insert (users entity) stamp payload
               = (Throw (mkError "Error" ("Duplicate key for property id: " +:+ uuid)), c')
               /\ data c' = data (users entity)).
    { unfold coll_insert. rewrite Hmeta, Hploki, Hunique. cbn [freshMeta strict_eq negb].
      cbn [unique_each]. unfold unique_set at 1. rewrite Hpid. cbn [keyed toString keyMap].
      rewrite Hheld. unfold duplicateError. rewrite Hpid.
      eexists. split; reflexivity. }
    destruct Hins as (c' & -> & Hdata). exists c'. split; [reflexivity | exact Hdata].
  - intros Hid [held Hheld].
    assert (Hins : exists c',
               coll_insert (users entity) stamp payload
               = (Throw (mkError "Error" ("Duplicate key for property userName: " +:+ login)),
                  c')
               /\ data c' = data (users entity)).
    { unfold coll_insert. rewrite Hmeta, Hploki, Hunique. cbn [freshMeta strict_eq negb].
      cbn [unique_each]. unfold unique_set at 1. rewrite Hpid. cbn [keyed toString keyMap].
      rewrite Hid. unfold unique_set at 1. rewrite Hplogin.
      cbn [keyed toString keyMap with_index].
      rewrite lookup_insert_ne by discriminate. rewrite Hheld.
      unfold duplicateError. rewrite Hplogin.
      eexists. split; reflexivity. }
    destruct Hins as (c' & -> & Hdata). exists c'. split; [reflexivity | exact Hdata].
Qed.

Lemma distinct_on_snoc (field : string) (docs : list doc) (d : doc) :
  distinct_on field docs ->
  Forall (fun d' => keyed (obj_get d' field) = true ->
                    strict_eq (obj_get d' field) (obj_get d field) = false) docs ->
  distinct_on field (docs ++ [d]).
Proof.
  induction docs as [|d0 docs IH]; simpl; intros Hdistinct Hnew.
  - split; [intros _; constructor | exact I].
  - destruct Hdistinct as [Hd0 Hrest]. inversion Hnew as [|? ? Hd0new Hnew']; subst.
    split; [|now apply IH].
    intros Hkeyed. apply Forall_app. split; [now apply Hd0|].
    constructor; [now apply Hd0new | constructor].
Qed.

Lemma key_held_ext (c : Collection) (field : string) (d d' : doc) :
  obj_get d' field = obj_get d field -> key_held c field d -> key_held c field d'.
Proof. unfold key_held. now intros ->. Qed.

Lemma key_held_mono (c c' : Collection) (field : string) (d : doc) :
  (forall key, is_Some (keyMap c !! key) -> is_Some (keyMap c' !! key)) ->
  key_held c field d -> key_held c' field d.
Proof. unfold key_held. auto. Qed.

(** A value whose key the index does not hold is the value of no
    document that the index covers. *)
Lemma index_covers_fresh (c : Collection) (field : string) (v : jsval) :
  index_covers c field ->
  keyMap c !! (field, toString v) = None ->
  Forall (fun d => keyed (obj_get d field) = true ->
                   strict_eq (obj_get d field) v = false) (data c).
Proof.
  intros Hcovers Hfree. eapply Forall_impl; [exact Hcovers|]. simpl.
  intros d Hheld Hkeyed.
  destruct (strict_eq (obj_get d field) v) eqn:E; [|reflexivity].
  apply strict_eq_true in E. subst v.
  destruct (Hheld Hkeyed) as [x Hx]. congruence.
Qed.

Lemma create_keeps_distinct action noun field resourceType collection set
    (config config' : Config) (baseEntity : string) (entity entity' : Entity)
    (scimdata : doc) (uuid created lastModified : string) (stamp : Z) (r : result doc) :
  (forall e c, collection (set e c) = c) ->
  create action noun field resourceType collection set config baseEntity scimdata
    uuid created lastModified stamp = (r, config') ->
  config !! baseEntity = Some entity ->
  config' !! baseEntity = Some entity' ->
  (field <> "id" -> field <> "meta" -> field <> "$loki" ->
   distinct_on field (data (collection entity)) ->
   distinct_on field (data (collection entity')))
  /\ (In "id" (uniqueNames (collection entity)) ->
      index_covers (collection entity) "id" ->
      distinct_on "id" (data (collection entity)) ->
      distinct_on "id" (data (collection entity'))
      /\ index_covers (collection entity') "id").
Proof.
  intros Hset Hcreate Hcfg Hcfg'.
  destruct (create_outcome _ _ _ _ _ _ _ _ _ _ _ _ _ _ _ _ Hcfg Hcreate)
    as [[_ ->] | (Hfind & c' & Hinsert & ->)].
  { rewrite Hcfg in Hcfg'. inversion Hcfg'; subst. tauto. }
  rewrite lookup_insert_eq in Hcfg'. inversion Hcfg'; subst entity'. rewrite Hset.
  set (payload := obj_set (obj_set scimdata "id" (VStr uuid)) "meta"
                    (freshMeta resourceType created lastModified)) in *.
  destruct (coll_insert_keys _ _ _ _ _ Hinsert) as [Hkeeps Hkeys].
  assert (Hmeta : obj_get payload "meta" = freshMeta resourceType created lastModified)
    by apply obj_get_set_eq.
  destruct (inserted_document payload _ (maxId (collection entity) + 1) stamp Hmeta)
    as (_ & _ & Hother).
  apply coll_insert_outcome in Hinsert as [([e ->] & Hdata & _) | (-> & Hdata & _)].
  - rewrite Hdata. split; [auto|]. intros _ Hcovers Hdistinct. split; [exact Hdistinct|].
    unfold index_covers. rewrite Hdata.
    eapply Forall_impl; [exact Hcovers|]. intros d. now apply key_held_mono.
  - rewrite Hdata. destruct (Hkeys _ eq_refl) as [Hheld Hfree]. split.
    + intros Hf1 Hf2 Hf3 Hdistinct. apply distinct_on_snoc; [exact Hdistinct|].
      rewrite Hother by assumption. unfold payload.
      rewrite !obj_get_set_ne by congruence.
      apply findOne_none_inv in Hfind as [_ Hnone].
      eapply Forall_impl; [exact Hnone|]. auto.
    + intros Hin Hcovers Hdistinct.
      assert (Hid : obj_get (identified payload (maxId (collection entity) + 1)) "id"
                    = VStr uuid).
      { rewrite identified_other by discriminate. unfold payload.
        rewrite obj_get_set_ne by discriminate. apply obj_get_set_eq. }
      assert (Hid' : obj_get (inserted payload (maxId (collection entity) + 1) stamp) "id"
                     = VStr uuid).
      { rewrite Hother by discriminate. unfold payload.
        rewrite obj_get_set_ne by discriminate. apply obj_get_set_eq. }
      apply list_elem_of_In in Hin.
      rewrite Forall_forall in Hheld, Hfree.
      specialize (Hheld "id" Hin). specialize (Hfree "id" Hin).
      rewrite Hid in Hfree. specialize (Hfree eq_refl).
      split.
      * apply distinct_on_snoc; [exact Hdistinct|]. rewrite Hid'.
        now apply index_covers_fresh.
      * unfold index_covers. rewrite Hdata. apply Forall_app. split.
        -- eapply Forall_impl; [exact Hcovers|]. intros d. now apply key_held_mono.
        -- repeat constructor. eapply key_held_ext; [|exact Hheld]. congruence.
Qed.

(** X8: whatever its outcome, [createUser] keeps the login names of the
    stored users distinct (as strings, compared exactly) when they were.
    When id is a unique field of the collection and the index of the
    unique fields holds the key of the id of every stored user, it also
    keeps the identifiers distinct when they were, and the index still
    holds the key of every id afterwards. [createGroup] keeps the display
    names of the groups distinct when they were. *)
Theorem create_keeps_exact_uniqueness
    (config config' : Config) (baseEntity : string) (entity entity' : Entity)
    (scimdata : doc) (uuid created lastModified : string) (stamp : Z) (r : result doc) :
  config !! baseEntity = Some entity ->
  config' !! baseEntity = Some entity' ->
  (createUser config baseEntity scimdata uuid created lastModified stamp = (r, config') ->
   (distinct_on "userName" (data (users entity)) ->
    distinct_on "userName" (data (users entity')))
   /\ (In "id" (uniqueNames (users entity)) ->
       index_covers (users entity) "id" ->
       distinct_on "id" (data (users entity)) ->
       distinct_on "id" (data (users entity')) /\ index_covers (users entity') "id"))
  /\ (createGroup config baseEntity scimdata uuid created lastModified stamp = (r, config') ->
      distinct_on "displayName" (data (groups entity)) ->
      distinct_on "displayName" (data (groups entity'))).
Proof.
  intros Hcfg Hcfg'. split; intros Hcreate.
  - destruct (create_keeps_distinct _ _ _ _ users set_users _ _ _ _ _ _ _ _ _ _ _
                ltac:(reflexivity) Hcreate Hcfg Hcfg') as [Hfield Hid].
    split; [apply Hfield; discriminate | exact Hid].
  - destruct (create_keeps_distinct _ _ _ _ groups set_groups _ _ _ _ _ _ _ _ _ _ _
                ltac:(reflexivity) Hcreate Hcfg Hcfg') as [Hfield _].
    apply Hfield; discriminate.
Qed.





(** ** Deletion *)

Lemma obj_get_key (o : doc) (k : string) :
  obj_get o k <> VUndefined -> existsb (String.eqb k) (obj_keys o) = true.
Proof.
  induction o as [|[k0 v0] o IH]; simpl; [congruence|].
  rewrite (String.eqb_sym k k0). destruct (String.eqb k0 k); [reflexivity|]. exact IH.
Qed.

Lemma unique_remove_absent (c c' : Collection) (field : string) (obj : doc)
    (key : string * string) :
  unique_remove c field obj = Ok c' ->
  keyMap c !! key = None -> keyMap c' !! key = None.
Proof.
  unfold unique_remove. destruct (keyed _); [|intros H; now inversion H].
  destruct (keyMap c !! (field, _)); [|discriminate].
  intros H Hkey. inversion H. simpl. rewrite lookup_delete_None. now right.
Qed.

Lemma unique_remove_other (c c' : Collection) (field field' : string) (obj : doc)
    (key : string) :
  unique_remove c field obj = Ok c' -> field' <> field ->
  keyMap c' !! (field', key) = keyMap c !! (field', key).
Proof.
  unfold unique_remove. destruct (keyed _); [|intros H; now inversion H].
  destruct (keyMap c !! (field, _)); [|discriminate].
  intros H Hne. inversion H. simpl. apply lookup_delete_ne. congruence.
Qed.

(** The loop of remove goes through when the index holds the key of the
    document for every unique field. *)
Lemma unique_each_remove_held (d : doc) (fields : list string) (c : Collection) :
  NoDup fields ->
  Forall (fun field => key_held c field d) fields ->
  exists c',
    unique_each (fun c0 field => unique_remove c0 field d) c fields = (Ok tt, c')
    /\ same_documents c c'.
Proof.
  intros Hnodup. revert c.
  induction Hnodup as [|field fields Hnotin Hnodup IH]; intros c Hheld.
  - exists c. split; [reflexivity | apply same_documents_refl].
  - inversion Hheld as [|? ? Hfield Hrest]; subst. simpl.
    destruct (unique_remove c field d) as [c1|e] eqn:Hremove.
    2: { unfold unique_remove in Hremove. unfold key_held in Hfield.
         destruct (keyed (obj_get d field)); [|discriminate].
         destruct (Hfield eq_refl) as [x Hx]. rewrite Hx in Hremove. discriminate. }
    destruct (IH c1) as (c' & Heach & Hsame).
    + rewrite Forall_forall in Hrest |- *. intros f Hf. unfold key_held.
      rewrite (unique_remove_other _ _ _ _ _ _ Hremove) by (intros ->; contradiction).
      now apply Hrest.
    + exists c'. split; [exact Heach|].
      eapply same_documents_trans; [eapply unique_remove_frame; exact Hremove | exact Hsame].
Qed.

(** The loop of remove throws when the index lacks one of the keys. *)
Lemma unique_each_remove_missing (d : doc) (fields : list string) (c : Collection) :
  Exists (fun field => key_missing c field d) fields ->
  exists e c',
    unique_each (fun c0 field => unique_remove c0 field d) c fields = (Throw e, c')
    /\ same_documents c c'.
Proof.
  intros Hmissing. revert c Hmissing.
  induction fields as [|field fields IH]; intros c Hmissing; [inversion Hmissing|].
  simpl. destruct (unique_remove c field d) as [c1|e] eqn:Hremove.
  - destruct (IH c1) as (e & c' & Heach & Hsame).
    + inversion Hmissing as [? ? [Hkeyed Hnone]|? ? Hrest]; subst.
      * unfold unique_remove in Hremove. rewrite Hkeyed, Hnone in Hremove. discriminate.
      * eapply Exists_impl; [exact Hrest|]. simpl. intros f [Hkeyed Hnone].
        split; [exact Hkeyed|]. eapply unique_remove_absent; eassumption.
    + exists e, c'. split; [exact Heach|].
      eapply same_documents_trans; [eapply unique_remove_frame; exact Hremove | exact Hsame].
  - exists e, c. split; [reflexivity | apply same_documents_refl].
Qed.

Lemma distinct_id_others (id : string) (l : list doc) (i : nat) (d : doc) :
  distinct_on "id" l -> l !! i = Some d -> has_id id d = true ->
  Forall (fun d' => has_id id d' = false) (take i l ++ drop (S i) l).
Proof.
  revert i. induction l as [|d0 l IH]; intros i Hdistinct Hi Hd; [discriminate|].
  destruct Hdistinct as [Hd0 Hrest]. destruct i as [|i]; simpl in *.
  - inversion Hi; subst d0. rewrite drop_0.
    unfold has_id in *. apply strict_eq_true in Hd. rewrite Hd in Hd0.
    specialize (Hd0 eq_refl).
    eapply Forall_impl; [exact Hd0|]. simpl. intros d' H.
    rewrite strict_eq_sym. exact H.
  - constructor; [|now apply IH].
    destruct (has_id id d0) eqn:E; [|reflexivity]. exfalso.
    unfold has_id in E, Hd. apply strict_eq_true in E, Hd.
    rewrite E in Hd0. specialize (Hd0 eq_refl).
    rewrite Forall_forall in Hd0.
    apply list_elem_of_lookup_2 in Hi. specialize (Hd0 d Hi).
    rewrite Hd in Hd0. simpl in Hd0. now rewrite String.eqb_refl in Hd0.
Qed.

(** The three outcomes of a delete: nothing found; found and removed;
    found, and left where it is because the index lacks one of its keys. *)
Lemma delete_result action noun collection set
    (config : Config) (baseEntity id : string) (entity : Entity) :
  (forall e c, collection (set e c) = c) ->
  config !! baseEntity = Some entity ->
  (Forall (fun d => has_id id d = false) (data (collection entity)) ->
   delete_ action noun collection set config baseEntity id
   = (Throw (notFound action noun id), config))
  /\ (forall i d,
         findOne (collection entity) "id" (VStr id) = Ok (Some (i, d)) ->
         filed (collection entity) i d ->
         (NoDup (uniqueNames (collection entity)) ->
          index_holds (collection entity) d ->
          exists config',
            delete_ action noun collection set config baseEntity id = (Ok tt, config')
            /\ (exists entity',
                   config' !! baseEntity = Some entity'
                   /\ data (collection entity')
                      = take i (data (collection entity))
                        ++ drop (S i) (data (collection entity)))
            /\ data (collection entity)
               = take i (data (collection entity)) ++ d :: drop (S i) (data (collection entity))
            /\ (distinct_on "id" (data (collection entity)) ->
                delete_ action noun collection set config' baseEntity id
                = (Throw (notFound action noun id), config')))
         /\ (Exists (fun field => key_missing (collection entity) field d)
               (uniqueNames (collection entity)) ->
             exists config' entity',
               delete_ action noun collection set config baseEntity id = (Ok tt, config')
               /\ config' !! baseEntity = Some entity'
               /\ data (collection entity') = data (collection entity))).
Proof.
  intros Hset Hcfg.
  assert (Hnone : forall config0 entity0,
            config0 !! baseEntity = Some entity0 ->
            Forall (fun d => has_id id d = false) (data (collection entity0)) ->
            delete_ action noun collection set config0 baseEntity id
            = (Throw (notFound action noun id), config0)).
  { intros config0 entity0 Hcfg0 Hnone. unfold delete_. rewrite Hcfg0.
    now rewrite (findOne_none _ "id" (VStr id) eq_refl Hnone). }
  split; [now apply Hnone|].
  intros i d Hfind (loki & Hloki & Hfiled).
  pose proof (findOne_lookup _ _ _ _ _ Hfind) as [Hi Hd].
  assert (Hkey : negb (existsb (String.eqb "$loki") (obj_keys d)) = false).
  { rewrite obj_get_key; [reflexivity|]. rewrite Hloki. discriminate. }
  assert (Hfiled' : negb (bool_decide (idIndex (collection entity) !! i = Some loki)) = false).
  { now rewrite bool_decide_eq_true_2. }
  split.
  - intros Hnodup Hholds.
    destruct (unique_each_remove_held d _ (collection entity) Hnodup Hholds)
      as (c1 & Heach & Hdata & _).
    eexists. split.
    { unfold delete_. rewrite Hcfg, Hfind. unfold coll_remove.
      rewrite Hkey, Hloki, Hfiled', Heach. reflexivity. }
    split.
    { eexists. split; [apply lookup_insert_eq|]. rewrite Hset. simpl. now rewrite Hdata. }
    split; [symmetry; now apply take_drop_middle|].
    intros Hdistinct. eapply Hnone; [apply lookup_insert_eq|].
    rewrite Hset. simpl. rewrite Hdata. now apply distinct_id_others with (d := d).
  - intros Hmissing.
    destruct (unique_each_remove_missing d _ (collection entity) Hmissing)
      as (e & c1 & Heach & Hdata & _).
    eexists _, _. split.
    { unfold delete_. rewrite Hcfg, Hfind. unfold coll_remove.
      rewrite Hkey, Hloki, Hfiled', Heach. reflexivity. }
    split; [apply lookup_insert_eq|]. now rewrite Hset.
Qed.

(** X10: a delete under an identifier no document carries fails with the
    notFound error and changes nothing. A delete under an identifier that
    is found, of a document that is filed under its [$loki], returns
    normally in either case: when the index of the unique fields holds
    the key of the document for every unique field, the document is
    removed and the others stay in their order, and when the identifiers
    of the collection were distinct a second delete of the identifier
    fails with notFound; when the index lacks one of the keys (as after a
    rename that the update has left half done), the store fails silently
    and the document stays where it is. *)
Theorem delete_removes_the_document
    (config : Config) (baseEntity id : string) (entity : Entity) :
  config !! baseEntity = Some entity ->
  (Forall (fun d => has_id id d = false) (data (users entity)) ->
   deleteUser config baseEntity id
   = (Throw (mkError "notFound" ("deleteUser error: user id=" +:+ id +:+ " does not exist")),
      config))
  /\ (Forall (fun d => has_id id d = false) (data (groups entity)) ->
      deleteGroup config baseEntity id
      = (Throw (mkError "notFound" ("deleteGroup error: group id=" +:+ id +:+ " does not exist")),
         config))
  /\ (forall i d,
         findOne (users entity) "id" (VStr id) = Ok (Some (i, d)) ->
         filed (users entity) i d ->
         (NoDup (uniqueNames (users entity)) ->
          index_holds (users entity) d ->
          exists config',
            deleteUser config baseEntity id = (Ok tt, config')
            /\ (exists entity',
                   config' !! baseEntity = Some entity'
                   /\ data (users entity')
                      = take i (data (users entity)) ++ drop (S i) (data (users entity)))
            /\ data (users entity)
               = take i (data (users entity)) ++ d :: drop (S i) (data (users entity))
            /\ (distinct_on "id" (data (users entity)) ->
                deleteUser config' baseEntity id
                = (Throw (mkError "notFound"
                            ("deleteUser error: user id=" +:+ id +:+ " does not exist")),
                   config')))
         /\ (Exists (fun field => key_missing (users entity) field d)
               (uniqueNames (users entity)) ->
             exists config' entity',
               deleteUser config baseEntity id = (Ok tt, config')
               /\ config' !! baseEntity = Some entity'
               /\ data (users entity') = data (users entity)))
  /\ (forall i d,
         findOne (groups entity) "id" (VStr id) = Ok (Some (i, d)) ->
         filed (groups entity) i d ->
         (NoDup (uniqueNames (groups entity)) ->
          index_holds (groups entity) d ->
          exists config',
            deleteGroup config baseEntity id = (Ok tt, config')
            /\ (exists entity',
                   config' !! baseEntity = Some entity'
                   /\ data (groups entity')
                      = take i (data (groups entity)) ++ drop (S i) (data (groups entity)))
            /\ data (groups entity)
               = take i (data (groups entity)) ++ d :: drop (S i) (data (groups entity))
            /\ (distinct_on "id" (data (groups entity)) ->
                deleteGroup config' baseEntity id
                = (Throw (mkError "notFound"
                            ("deleteGroup error: group id=" +:+ id +:+ " does not exist")),
                   config')))
         /\ (Exists (fun field => key_missing (groups entity) field d)
               (uniqueNames (groups entity)) ->
             exists config' entity',
               deleteGroup config baseEntity id = (Ok tt, config')
               /\ config' !! baseEntity = Some entity'
               /\ data (groups entity') = data (groups entity))).
Proof.
  intros Hcfg.
  destruct (delete_result "deleteUser" "user" users set_users config baseEntity id entity
              ltac:(reflexivity) Hcfg) as [Huser_none Huser].
  destruct (delete_result "deleteGroup" "group" groups set_groups config baseEntity id entity
              ltac:(reflexivity) Hcfg) as [Hgroup_none Hgroup].
  split; [exact Huser_none|]. split; [exact Hgroup_none|].
  split; [exact Huser | exact Hgroup].
Qed.
(** ** Updates, further *)

Lemma obj_get_delete_ne (o : doc) (k k' : string) :
  k <> k' -> obj_get (obj_delete o k) k' = obj_get o k'.
Proof.
  intros Hne. unfold obj_delete. induction o as [|[k0 v0] o IH]; simpl; [reflexivity|].
  destruct (String.eqb k0 k) eqn:E; simpl.
  - apply String.eqb_eq in E. subst k0.
    apply String.eqb_neq in Hne. now rewrite Hne.
  - now rewrite IH.
Qed.

Lemma obj_keys_delete (o : doc) (k : string) :
  obj_keys (obj_delete o k) = List.filter (fun key => negb (String.eqb key k)) (obj_keys o).
Proof.
  unfold obj_keys, obj_delete. induction o as [|[k0 v0] o IH]; simpl; [reflexivity|].
  destruct (String.eqb k0 k); simpl; now rewrite IH.
Qed.

Lemma obj_delete_comm (o : doc) (a b : string) :
  obj_delete (obj_delete o a) b = obj_delete (obj_delete o b) a.
Proof.
  unfold obj_delete. induction o as [|[k0 v0] o IH]; simpl; [reflexivity|].
  destruct (String.eqb k0 a) eqn:Ea, (String.eqb k0 b) eqn:Eb; simpl;
    rewrite ?Ea, ?Eb; simpl; now rewrite IH.
Qed.

Lemma assignKeys_strip (target scimdata : doc) (k : string) :
  k = "id" \/ k = "meta" ->
  assignKeys target (obj_delete scimdata k) = assignKeys target scimdata.
Proof.
  intros Hk. unfold assignKeys. rewrite obj_keys_delete.
  generalize (obj_keys scimdata) as keys. intros keys. revert target.
  induction keys as [|key keys IH]; intros target; simpl; [reflexivity|].
  destruct (String.eqb key k) eqn:E; simpl.
  - apply String.eqb_eq in E. subst key. rewrite IH.
    destruct Hk as [-> | ->]; reflexivity.
  - rewrite IH. apply String.eqb_neq in E.
    now rewrite obj_get_delete_ne by congruence.
Qed.


Lemma modifyUser_strip (config : Config) (baseEntity id : string) (scimdata : doc)
    (now : string) (stamp : Z) (k : string) :
  k = "id" \/ k = "meta" ->
  modifyUser config baseEntity id (obj_delete scimdata k) now stamp
  = modifyUser config baseEntity id scimdata now stamp.
Proof.
  intros Hk. unfold modifyUser.
  destruct (config !! baseEntity) as [entity|]; [|reflexivity].
  destruct (findOne _ _ _) as [[[i user]|]|e]; [|reflexivity..].
  rewrite obj_get_delete_ne by (destruct Hk; subst; discriminate).
  destruct (obj_get scimdata "entitlements");
    try (rewrite assignKeys_strip by exact Hk; reflexivity).
  destruct (entitlementLoop user items) as [[[]|e] u]; [|reflexivity].
  rewrite (obj_delete_comm scimdata k), assignKeys_strip by exact Hk. reflexivity.
Qed.

Lemma modifyGroup_strip (config : Config) (baseEntity id : string) (scimdata : doc)
    (now : string) (stamp : Z) (k : string) :
  k = "id" \/ k = "meta" ->
  modifyGroup config baseEntity id (obj_delete scimdata k) now stamp
  = modifyGroup config baseEntity id scimdata now stamp.
Proof.
  intros Hk. unfold modifyGroup.
  destruct (config !! baseEntity) as [entity|]; [|reflexivity].
  destruct (findOne _ _ _) as [[[i group]|]|e]; [|reflexivity..].
  now rewrite assignKeys_strip by exact Hk.
Qed.

(** X11: an update does not read the id and the meta of its payload. For
    [modifyUser] and [modifyGroup] the outcome and the configuration left
    are those of the same call on the payload without these two keys. *)
Theorem modify_ignores_id_and_meta
    (config : Config) (baseEntity id : string) (scimdata : doc) (now : string) (stamp : Z) :
  modifyUser config baseEntity id (obj_delete (obj_delete scimdata "id") "meta") now stamp
  = modifyUser config baseEntity id scimdata now stamp
  /\ modifyGroup config baseEntity id (obj_delete (obj_delete scimdata "id") "meta") now stamp
     = modifyGroup config baseEntity id scimdata now stamp.
Proof.
  split.
  - rewrite !modifyUser_strip by auto. reflexivity.
  - rewrite !modifyGroup_strip by auto. reflexivity.
Qed.





Lemma ids_of_insert (l : list doc) (i : nat) (d d' : doc) :
  l !! i = Some d -> obj_get d' "id" = obj_get d "id" ->
  ids_of (<[i := d']> l) = ids_of l.
Proof.
  intros Hi Hid. unfold ids_of. rewrite list_fmap_insert, Hid.
  apply list_insert_id. now rewrite list_lookup_fmap, Hi.
Qed.

(** What the update of the store leaves at the position it was called
    for carries the identifier that the caller wrote. *)
Lemma coll_update_shape (c c' : Collection) (stamp : Z) (i : nat) (d : doc)
    (r : result doc) :
  coll_update c stamp i d = (r, c') ->
  exists d',
    data c' = <[i := d']> (data c)
    /\ uniqueNames c' = uniqueNames c
    /\ (forall k, k <> "meta" -> obj_get d' k = obj_get d k)
    /\ (forall d0, r = Ok d0 -> d0 = d').
Proof.
  intros H. apply coll_update_outcome in H as (d' & Hdata & _ & _ & Hnames & _ & Hcases).
  exists d'. split; [exact Hdata|]. split; [exact Hnames|].
  destruct Hcases as [[-> Hmeta] | [[e ->] ->]].
  - split; [intros k Hk; eapply updateMeta_other; eassumption|].
    intros d0 Hd0. now inversion Hd0.
  - split; [reflexivity | discriminate].
Qed.

Lemma modifyUser_shape (config config' : Config) (baseEntity id : string)
    (entity : Entity) (scimdata : doc) (now : string) (stamp : Z) (r : result doc) :
  config !! baseEntity = Some entity ->
  modifyUser config baseEntity id scimdata now stamp = (r, config') ->
  config' = config
  \/ exists i user u users',
       data (users entity) !! i = Some user
       /\ obj_get u "id" = obj_get user "id"
       /\ data users' = <[i := u]> (data (users entity))
       /\ uniqueNames users' = uniqueNames (users entity)
       /\ config' = <[baseEntity := set_users entity users']> config.
Proof.
  intros Hcfg Hmod. unfold modifyUser in Hmod. rewrite Hcfg in Hmod.
  destruct (findOne _ _ _) as [[[i user]|]|e0] eqn:Hfind;
    [|left; now inversion Hmod..].
  right. exists i, user.
  pose proof (findOne_lookup _ _ _ _ _ Hfind) as [Hi _].
  destruct (match obj_get scimdata "entitlements" with
            | VArr entries =>
                let '(r, u) := entitlementLoop user entries in
                (r, u, obj_delete scimdata "entitlements")
            | _ => (Ok tt, user, scimdata)
            end) as [[patched user1] scimdata1] eqn:Hpatch.
  assert (Hid1 : obj_get user1 "id" = obj_get user "id").
  { destruct (obj_get scimdata "entitlements"); try (now inversion Hpatch).
    destruct (entitlementLoop user items) as [r0 u] eqn:Hloop.
    inversion Hpatch; subst.
    eapply entitlementLoop_other_keys; [eassumption | discriminate]. }
  destruct patched as [[]|e].
  2: { inversion Hmod. exists user1. eexists. split; [exact Hi|]. split; [exact Hid1|].
       split; [|split; [|reflexivity]]; reflexivity. }
  destruct (stampMeta (assignKeys user1 scimdata1) now) as [r3 user3] eqn:Hstamp.
  assert (Hid3 : obj_get user3 "id" = obj_get user "id").
  { rewrite (stampMeta_other_keys _ _ _ _ "id" Hstamp) by discriminate.
    now rewrite assignKeys_keeps by auto. }
  destruct r3 as [[]|e].
  2: { inversion Hmod. exists user3. eexists. split; [exact Hi|]. split; [exact Hid3|].
       split; [|split; [|reflexivity]]; reflexivity. }
  destruct (coll_update (users entity) stamp i user3) as [updated c] eqn:Hupdate.
  inversion Hmod; subst.
  apply coll_update_shape in Hupdate as (d' & Hdata & Hnames & Hother & _).
  exists d', c. split; [exact Hi|].
  split; [rewrite Hother by discriminate; exact Hid3|]. auto.
Qed.

Lemma modifyGroup_shape (config config' : Config) (baseEntity id : string)
    (entity : Entity) (scimdata : doc) (now : string) (stamp : Z) (r : result doc) :
  config !! baseEntity = Some entity ->
  modifyGroup config baseEntity id scimdata now stamp = (r, config') ->
  config' = config
  \/ exists i group g groups',
       data (groups entity) !! i = Some group
       /\ obj_get g "id" = obj_get group "id"
       /\ data groups' = <[i := g]> (data (groups entity))
       /\ uniqueNames groups' = uniqueNames (groups entity)
       /\ config' = <[baseEntity := set_groups entity groups']> config.
Proof.
  intros Hcfg Hmod. unfold modifyGroup in Hmod. rewrite Hcfg in Hmod.
  destruct (findOne _ _ _) as [[[i group]|]|e0] eqn:Hfind;
    [|left; now inversion Hmod..].
  right. exists i, group.
  pose proof (findOne_lookup _ _ _ _ _ Hfind) as [Hi _].
  destruct (stampMeta (assignKeys group scimdata) now) as [r3 group3] eqn:Hstamp.
  assert (Hid3 : obj_get group3 "id" = obj_get group "id").
  { rewrite (stampMeta_other_keys _ _ _ _ "id" Hstamp) by discriminate.
    now rewrite assignKeys_keeps by auto. }
  destruct r3 as [[]|e].
  2: { inversion Hmod. exists group3. eexists. split; [exact Hi|]. split; [exact Hid3|].
       split; [|split; [|reflexivity]]; reflexivity. }
  destruct (coll_update (groups entity) stamp i group3) as [updated c] eqn:Hupdate.
  inversion Hmod; subst.
  apply coll_update_shape in Hupdate as (d' & Hdata & Hnames & Hother & _).
  exists d', c. split; [exact Hi|].
  split; [rewrite Hother by discriminate; exact Hid3|]. auto.
Qed.

Lemma assignDefined_other (target scimdata : doc) (key k : string) :
  key <> k -> obj_get (assignDefined target scimdata key) k = obj_get target k.
Proof.
  intros Hne. unfold assignDefined.
  destruct (negb _); [now apply obj_get_set_ne | reflexivity].
Qed.

Lemma modifyEntitlement_shape (config config' : Config) (baseEntity id : string)
    (entity : Entity) (scimdata : doc) (stamp : Z) (r : result doc) :
  config !! baseEntity = Some entity ->
  modifyEntitlement config baseEntity id scimdata stamp = (r, config') ->
  config' = config
  \/ exists i entitlement e entitlements',
       data (entitlements entity) !! i = Some entitlement
       /\ obj_get e "id" = obj_get entitlement "id"
       /\ data entitlements' = <[i := e]> (data (entitlements entity))
       /\ uniqueNames entitlements' = uniqueNames (entitlements entity)
       /\ config' = <[baseEntity := set_entitlements entity entitlements']> config.
Proof.
  intros Hcfg Hmod. unfold modifyEntitlement in Hmod. rewrite Hcfg in Hmod.
  destruct (findOne _ _ _) as [[[i entitlement]|]|e0] eqn:Hfind;
    [|left; now inversion Hmod..].
  right. exists i, entitlement.
  pose proof (findOne_lookup _ _ _ _ _ Hfind) as [Hi _].
  destruct (coll_update _ _ _ _) as [updated c] eqn:Hupdate.
  inversion Hmod; subst.
  apply coll_update_shape in Hupdate as (d' & Hdata & Hnames & Hother & _).
  exists d', c. split; [exact Hi|].
  split; [rewrite Hother by discriminate; now rewrite !assignDefined_other by discriminate|].
  auto.
Qed.

(** X13: whatever its outcome, an update ([modifyUser], [modifyGroup],
    [modifyEntitlement]) leaves every other tenant and the other two
    collections of its tenant as they were, and in its own collection it
    changes neither the unique fields, nor the number of documents, nor
    the identifier of any document: at most one document is rewritten in
    place, under its own id. *)
Theorem update_rewrites_in_place
    (config config' : Config) (baseEntity id : string) (entity : Entity)
    (scimdata : doc) (now : string) (stamp : Z) (r : result doc) :
  config !! baseEntity = Some entity ->
  (modifyUser config baseEntity id scimdata now stamp = (r, config') ->
   (forall other, other <> baseEntity -> config' !! other = config !! other)
   /\ exists entity',
        config' !! baseEntity = Some entity'
        /\ groups entity' = groups entity /\ entitlements entity' = entitlements entity
        /\ uniqueNames (users entity') = uniqueNames (users entity)
        /\ length (data (users entity')) = length (data (users entity))
        /\ ids_of (data (users entity')) = ids_of (data (users entity)))
  /\ (modifyGroup config baseEntity id scimdata now stamp = (r, config') ->
      (forall other, other <> baseEntity -> config' !! other = config !! other)
      /\ exists entity',
           config' !! baseEntity = Some entity'
           /\ users entity' = users entity /\ entitlements entity' = entitlements entity
           /\ uniqueNames (groups entity') = uniqueNames (groups entity)
           /\ length (data (groups entity')) = length (data (groups entity))
           /\ ids_of (data (groups entity')) = ids_of (data (groups entity)))
  /\ (modifyEntitlement config baseEntity id scimdata stamp = (r, config') ->
      (forall other, other <> baseEntity -> config' !! other = config !! other)
      /\ exists entity',
           config' !! baseEntity = Some entity'
           /\ users entity' = users entity /\ groups entity' = groups entity
           /\ uniqueNames (entitlements entity') = uniqueNames (entitlements entity)
           /\ length (data (entitlements entity')) = length (data (entitlements entity))
           /\ ids_of (data (entitlements entity')) = ids_of (data (entitlements entity))).
Proof.
  intros Hcfg. split; [|split]; intros Hmod.
  - destruct (modifyUser_shape _ _ _ _ _ _ _ _ _ Hcfg Hmod)
      as [-> | (i & user & u & c & Hi & Hid & Hdata & Hnames & ->)].
    + split; [reflexivity|]. exists entity. repeat split; auto.
    + split; [intros other Hne; now apply lookup_insert_ne|].
      eexists. split; [apply lookup_insert_eq|]. simpl. rewrite Hdata.
      repeat split; [exact Hnames | apply length_insert
                     | now apply ids_of_insert with (d := user)].
  - destruct (modifyGroup_shape _ _ _ _ _ _ _ _ _ Hcfg Hmod)
      as [-> | (i & group & g & c & Hi & Hid & Hdata & Hnames & ->)].
    + split; [reflexivity|]. exists entity. repeat split; auto.
    + split; [intros other Hne; now apply lookup_insert_ne|].
      eexists. split; [apply lookup_insert_eq|]. simpl. rewrite Hdata.
      repeat split; [exact Hnames | apply length_insert
                     | now apply ids_of_insert with (d := group)].
  - destruct (modifyEntitlement_shape _ _ _ _ _ _ _ _ Hcfg Hmod)
      as [-> | (i & entitlement & e & c & Hi & Hid & Hdata & Hnames & ->)].
    + split; [reflexivity|]. exists entity. repeat split; auto.
    + split; [intros other Hne; now apply lookup_insert_ne|].
      eexists. split; [apply lookup_insert_eq|]. simpl. rewrite Hdata.
      repeat split; [exact Hnames | apply length_insert
                     | now apply ids_of_insert with (d := entitlement)].
Qed.


Lemma assignDefined_same (target scimdata : doc) (key : string) :
  obj_get (assignDefined target scimdata key) key
  = if strict_eq (obj_get scimdata key) VUndefined then obj_get target key
    else obj_get scimdata key.
Proof.
  unfold assignDefined.
  destruct (strict_eq (obj_get scimdata key) VUndefined); simpl;
    [reflexivity | apply obj_get_set_eq].
Qed.

(** X14: on an entitlements collection whose only unique field is id,
    [modifyEntitlement] under the identifier of a stored entitlement (a
    document filed under its [$loki], entered in the index under its id,
    with the metadata of the store) succeeds. Of the three properties
    displayName, type and description, each one the payload defines (the
    empty string and null included) holds the value of the payload
    afterwards, each one it leaves out holds what it held, and every
    other property of the entitlement but its metadata holds what it
    held; in the metadata the store has set [updated] to its clock and
    raised [revision] by one. The record returned is the stored one. *)
Theorem modifyEntitlement_overwrites_defined_fields
    (config : Config) (baseEntity id : string) (entity : Entity) (i : nat)
    (entitlement scimdata meta : doc) (loki revision stamp : Z) :
  config !! baseEntity = Some entity ->
  uniqueNames (entitlements entity) = ["id"] ->
  findOne (entitlements entity) "id" (VStr id) = Ok (Some (i, entitlement)) ->
  obj_get entitlement "$loki" = VNum loki ->
  idIndex (entitlements entity) !! i = Some loki ->
  lokiMap (entitlements entity) !! ("id", loki) = Some (VStr id) ->
  obj_get entitlement "meta" = VObj meta ->
  obj_get meta "revision" = VNum revision ->
  exists entitlement' entitlements',
    modifyEntitlement config baseEntity id scimdata stamp
    = (Ok entitlement', <[baseEntity := set_entitlements entity entitlements']> config)
    /\ data entitlements' = <[i := entitlement']> (data (entitlements entity))
    /\ (forall k, In k ["displayName"; "type"; "description"] ->
        obj_get entitlement' k
        = if strict_eq (obj_get scimdata k) VUndefined then obj_get entitlement k
          else obj_get scimdata k)
    /\ (forall k, ~ In k ["displayName"; "type"; "description"] -> k <> "meta" ->
        obj_get entitlement' k = obj_get entitlement k)
    /\ obj_get entitlement' "meta"
       = VObj (obj_set (obj_set meta "updated" (VNum stamp)) "revision" (VNum (revision + 1))).
Proof.
  intros Hcfg Huniq Hfind Hloki Hfiled Hentered Hmeta Hrevision.
  pose proof (findOne_lookup _ _ _ _ _ Hfind) as [Hi Hid].
  apply strict_eq_true in Hid.
  unfold modifyEntitlement. rewrite Hcfg, Hfind. cbv zeta.
  set (written := assignDefined (assignDefined (assignDefined entitlement scimdata
                                                  "displayName") scimdata "type")
                    scimdata "description").
  assert (Hother : forall k, ~ In k ["displayName"; "type"; "description"] ->
                             obj_get written k = obj_get entitlement k).
  { intros k Hk. unfold written. simpl in Hk.
    rewrite !assignDefined_other by (intros <-; apply Hk; auto). reflexivity. }
  assert (Hnot : forall k, k = "id" \/ k = "meta" \/ k = "$loki" ->
                           ~ In k ["displayName"; "type"; "description"]).
  { intros k Hk. simpl. intros [H|[H|[H|[]]]]; subst k;
      destruct Hk as [Hk|[Hk|Hk]]; discriminate. }
  assert (Hwloki : obj_get written "$loki" = VNum loki)
    by (rewrite Hother by (apply Hnot; auto); exact Hloki).
  assert (Hwid : obj_get written "id" = VStr id)
    by (rewrite Hother by (apply Hnot; auto); exact Hid).
  assert (Hwmeta : obj_get written "meta" = VObj meta)
    by (rewrite Hother by (apply Hnot; auto); exact Hmeta).
  assert (Hupdate : exists c,
            coll_update (entitlements entity) stamp i written
            = (Ok (set_meta (set_meta written "updated" (VNum stamp)) "revision"
                     (VNum (revision + 1))), c)
            /\ data c = <[i := set_meta (set_meta written "updated" (VNum stamp)) "revision"
                                (VNum (revision + 1))]> (data (entitlements entity))).
  { unfold coll_update.
    rewrite obj_get_key by (rewrite Hwloki; discriminate). cbn [negb].
    rewrite Hwloki, bool_decide_eq_true_2 by exact Hfiled. cbn [negb].
    rewrite Huniq. cbn [unique_each]. unfold unique_update.
    cbn [lokiMap with_data]. rewrite Hwid, Hentered. cbn [default from_option Datatypes.id].
    cbn [is_primitive andb negb strict_eq]. rewrite String.eqb_refl. cbn [negb].
    unfold updateMeta. rewrite Hwmeta, Hrevision.
    eexists. split; [reflexivity|]. cbn [data with_data with_index].
    apply list_insert_insert_eq. }
  destruct Hupdate as (c & -> & Hdata).
  eexists _, c. split; [reflexivity|]. split; [exact Hdata|].
  split; [|split].
  - intros k Hk. rewrite !set_meta_other
      by (intros ->; revert Hk; apply Hnot; auto).
    destruct Hk as [<- | [<- | [<- | []]]]; unfold written.
    + rewrite !assignDefined_other by discriminate. apply assignDefined_same.
    + rewrite assignDefined_other by discriminate. rewrite assignDefined_same.
      now rewrite assignDefined_other by discriminate.
    + rewrite assignDefined_same. now rewrite !assignDefined_other by discriminate.
  - intros k Hk Hkmeta. rewrite !set_meta_other by exact Hkmeta. now apply Hother.
  - apply set_meta_meta. now apply set_meta_meta.
Qed.

(** ** The version that the store writes *)

Lemma stamped_ext (d d' : doc) :
  obj_get d' "meta" = obj_get d "meta" -> stamped d -> stamped d'.
Proof. unfold stamped. now intros ->. Qed.

Lemma updateMeta_stamped (d d' : doc) (stamp : Z) :
  updateMeta d stamp = Ok d' -> stamped d -> stamped d'.
Proof.
  intros Hupdate (m & n & Hm & Hn).
  apply updateMeta_meta in Hupdate as (m0 & r & Hm0 & _ & Hmeta).
  rewrite Hm in Hm0. inversion Hm0; subst m0.
  eexists _, n. split; [exact Hmeta|].
  rewrite !obj_get_set_ne by discriminate. exact Hn.
Qed.

Lemma coll_insert_stamped (c c' : Collection) (stamp : Z) (d : doc) (r : result doc) :
  coll_insert c stamp d = (r, c') ->
  Forall stamped (data c) -> Forall stamped (data c').
Proof.
  intros Hinsert Hall.
  apply coll_insert_outcome in Hinsert as [(_ & -> & _) | (_ & -> & _ & _ & Hmeta)];
    [exact Hall|].
  apply Forall_app. split; [exact Hall|]. repeat constructor. now apply inserted_stamped.
Qed.

Lemma coll_update_stamped (c c' : Collection) (stamp : Z) (i : nat) (d : doc)
    (r : result doc) :
  coll_update c stamp i d = (r, c') ->
  Forall stamped (data c) -> stamped d -> Forall stamped (data c').
Proof.
  intros Hupdate Hall Hd.
  apply coll_update_outcome in Hupdate as (d' & -> & _ & _ & _ & _ & Hcases).
  apply Forall_insert; [exact Hall|].
  destruct Hcases as [[_ Hmeta] | [_ ->]]; [|exact Hd].
  eapply updateMeta_stamped; eassumption.
Qed.

Lemma coll_remove_stamped (c c' : Collection) (i : nat) (d : doc) (r : result bool) :
  coll_remove c i d = (r, c') ->
  Forall stamped (data c) -> Forall stamped (data c').
Proof.
  unfold coll_remove. intros H Hall.
  destruct (negb (existsb _ _)); [now inversion H; subst|].
  destruct (obj_get d "$loki"); try (now inversion H; subst).
  destruct (negb (bool_decide _)); [now inversion H; subst|].
  match type of H with
  | (let (_, _) := unique_each ?step ?start ?fields in _) = _ =>
      pose proof (unique_each_frame step fields start
                    (fun x f y => unique_remove_frame x y f _)) as Hframe;
      destruct (unique_each step start fields) as [[[]|e] c1]
  end; destruct Hframe as (Hdata & _); simpl in Hdata; inversion H; subst; simpl.
  - rewrite Hdata. apply Forall_app. split; [now apply Forall_take | now apply Forall_drop].
  - now rewrite Hdata.
Qed.

Lemma insert_each_stamped (docs : list doc) (c : Collection) (stamp : Z) :
  Forall stamped (data c) -> Forall stamped (data (insert_each c stamp docs)).
Proof.
  revert c. induction docs as [|d docs IH]; intros c Hall; simpl; [exact Hall|].
  destruct (coll_insert c stamp d) as [[stored|e] c'] eqn:Hinsert.
  - apply IH. eapply coll_insert_stamped; eassumption.
  - eapply coll_insert_stamped; eassumption.
Qed.

Lemma findOne_stamped (c : Collection) (field : string) (v : jsval) (i : nat) (d : doc) :
  findOne c field v = Ok (Some (i, d)) -> Forall stamped (data c) -> stamped d.
Proof.
  intros Hfind Hall. apply findOne_lookup in Hfind as [Hi _].
  rewrite Forall_forall in Hall. apply Hall. eapply list_elem_of_lookup_2. exact Hi.
Qed.

Lemma grantTo_stamped (c : Collection) (login : string) (grants : list jsval) (stamp : Z) :
  Forall stamped (data c) -> Forall stamped (data (grantTo c login grants stamp)).
Proof.
  intros Hall. unfold grantTo.
  destruct (findOne c "userName" (VStr login)) as [[[i user]|]|e] eqn:Hfind;
    try exact Hall.
  destruct (coll_update c stamp i _) as [r c'] eqn:Hupdate. simpl.
  eapply coll_update_stamped; [exact Hupdate | exact Hall |].
  eapply stamped_ext; [|eapply findOne_stamped; eassumption].
  now apply obj_get_set_ne.
Qed.

(** Every user and every group of a tenant that [loadHandler] has set up
    carries a number as version. *)
Lemma tenant_stamped (userDocs groupDocs : list doc) :
  all_stamped (tenant userDocs groupDocs).
Proof.
  unfold tenant, all_stamped. simpl. split.
  - do 2 apply grantTo_stamped. apply insert_each_stamped. constructor.
  - apply insert_each_stamped. constructor.
Qed.

Lemma configOf_stamped (userDocs groupDocs : list doc) :
  config_stamped (configOf userDocs groupDocs).
Proof.
  intros baseEntity entity. unfold configOf. rewrite lookup_singleton_Some.
  intros [_ <-]. apply tenant_stamped.
Qed.

(** A configuration in which one tenant has been replaced by a stamped
    one is stamped. *)
Lemma config_stamped_insert (config : Config) (baseEntity : string) (entity : Entity) :
  config_stamped config -> all_stamped entity ->
  config_stamped (<[baseEntity := entity]> config).
Proof.
  intros Hconfig Hentity other entity'.
  destruct (decide (baseEntity = other)) as [<- | Hne].
  - rewrite lookup_insert_eq. now intros [= <-].
  - rewrite lookup_insert_ne by exact Hne. apply Hconfig.
Qed.

Lemma create_stamped action noun field resourceType collection set
    (config : Config) (baseEntity : string) (scimdata : doc)
    (uuid created lastModified : string) (stamp : Z) :
  (forall e c, all_stamped e -> Forall stamped (data (collection e)) ->
               (Forall stamped (data (collection e)) -> Forall stamped (data c)) ->
               all_stamped (set e c)) ->
  (forall e, all_stamped e -> Forall stamped (data (collection e))) ->
  config_stamped config ->
  config_stamped (snd (create action noun field resourceType collection set config
                         baseEntity scimdata uuid created lastModified stamp)).
Proof.
  intros Hset Hcollection Hconfig. unfold create.
  destruct (config !! baseEntity) as [entity|] eqn:Hcfg; [|exact Hconfig].
  destruct (negb _); [exact Hconfig|].
  destruct (findOne _ _ _) as [[found|]|e]; try exact Hconfig.
  destruct (coll_insert _ _ _) as [stored c] eqn:Hinsert. simpl.
  apply config_stamped_insert; [exact Hconfig|].
  pose proof (Hconfig _ _ Hcfg) as Hentity.
  apply Hset; [exact Hentity | now apply Hcollection |].
  eapply coll_insert_stamped; exact Hinsert.
Qed.

Lemma delete_stamped action noun collection set
    (config : Config) (baseEntity id : string) :
  (forall e c, all_stamped e -> Forall stamped (data (collection e)) ->
               (Forall stamped (data (collection e)) -> Forall stamped (data c)) ->
               all_stamped (set e c)) ->
  (forall e, all_stamped e -> Forall stamped (data (collection e))) ->
  config_stamped config ->
  config_stamped (snd (delete_ action noun collection set config baseEntity id)).
Proof.
  intros Hset Hcollection Hconfig. unfold delete_.
  destruct (config !! baseEntity) as [entity|] eqn:Hcfg; [|exact Hconfig].
  destruct (findOne _ _ _) as [[[i d]|]|e]; try exact Hconfig.
  destruct (coll_remove _ _ _) as [removed c] eqn:Hremove. simpl.
  apply config_stamped_insert; [exact Hconfig|].
  pose proof (Hconfig _ _ Hcfg) as Hentity.
  apply Hset; [exact Hentity | now apply Hcollection |].
  eapply coll_remove_stamped; exact Hremove.
Qed.

Lemma set_users_stamped (e : Entity) (c : Collection) :
  all_stamped e -> Forall stamped (data (users e)) ->
  (Forall stamped (data (users e)) -> Forall stamped (data c)) ->
  all_stamped (set_users e c).
Proof. intros [_ Hgroups] Husers Hc. split; [now apply Hc | exact Hgroups]. Qed.

Lemma set_groups_stamped (e : Entity) (c : Collection) :
  all_stamped e -> Forall stamped (data (groups e)) ->
  (Forall stamped (data (groups e)) -> Forall stamped (data c)) ->
  all_stamped (set_groups e c).
Proof. intros [Husers _] Hgroups Hc. split; [exact Husers | now apply Hc]. Qed.

(** On a stamped tenant [modifyUser] throws and leaves the tenant
    stamped. *)
Lemma modifyUser_on_stamped (config : Config) (baseEntity id : string) (scimdata : doc)
    (now : string) (stamp : Z) :
  config_stamped config ->
  (exists e, fst (modifyUser config baseEntity id scimdata now stamp) = Throw e)
  /\ config_stamped (snd (modifyUser config baseEntity id scimdata now stamp)).
Proof.
  intros Hconfig.
  destruct (config !! baseEntity) as [entity|] eqn:Hcfg.
  2: { unfold modifyUser. rewrite Hcfg. simpl. eauto. }
  destruct (findOne (users entity) "id" (VStr id)) as [[[i user]|]|e] eqn:Hfind.
  2, 3: unfold modifyUser; rewrite Hcfg, Hfind; simpl; eauto.
  destruct (Hconfig _ _ Hcfg) as [Husers Hgroups].
  destruct (findOne_stamped _ _ _ _ _ Hfind Husers) as (m & n & Hm & Hn).
  destruct (modifyUser_stamped config baseEntity id entity i user m scimdata n now stamp
              Hcfg Hfind Hm Hn) as (e & user' & m' & -> & _ & Hm' & Hn' & _).
  simpl. split; [eauto|].
  apply config_stamped_insert; [exact Hconfig|].
  split; [|exact Hgroups]. simpl. apply Forall_insert; [exact Husers|].
  now exists m', n.
Qed.

Lemma modifyGroup_on_stamped (config : Config) (baseEntity id : string) (scimdata : doc)
    (now : string) (stamp : Z) :
  config_stamped config ->
  (exists e, fst (modifyGroup config baseEntity id scimdata now stamp) = Throw e)
  /\ config_stamped (snd (modifyGroup config baseEntity id scimdata now stamp)).
Proof.
  intros Hconfig.
  destruct (config !! baseEntity) as [entity|] eqn:Hcfg.
  2: { unfold modifyGroup. rewrite Hcfg. simpl. eauto. }
  destruct (findOne (groups entity) "id" (VStr id)) as [[[i group]|]|e] eqn:Hfind.
  2, 3: unfold modifyGroup; rewrite Hcfg, Hfind; simpl; eauto.
  destruct (Hconfig _ _ Hcfg) as [Husers Hgroups].
  destruct (findOne_stamped _ _ _ _ _ Hfind Hgroups) as (m & n & Hm & Hn).
  rewrite (modifyGroup_stamped config baseEntity id entity i group m scimdata n now stamp
             Hcfg Hfind Hm Hn).
  simpl. split; [eauto|].
  apply config_stamped_insert; [exact Hconfig|].
  split; [exact Husers|]. simpl. apply Forall_insert; [exact Hgroups|].
  eexists _, n. split; [apply obj_get_set_eq|].
  rewrite obj_get_set_ne by discriminate. exact Hn.
Qed.

Lemma modifyEntitlement_on_stamped (config : Config) (baseEntity id : string)
    (scimdata : doc) (stamp : Z) :
  config_stamped config ->
  config_stamped (snd (modifyEntitlement config baseEntity id scimdata stamp)).
Proof.
  intros Hconfig. unfold modifyEntitlement.
  destruct (config !! baseEntity) as [entity|] eqn:Hcfg; [|exact Hconfig].
  destruct (findOne _ _ _) as [[[i entitlement]|]|e]; try exact Hconfig.
  destruct (coll_update _ _ _ _) as [updated c]. simpl.
  apply config_stamped_insert; [exact Hconfig|]. exact (Hconfig _ _ Hcfg).
Qed.

(** One call keeps the tenants stamped. *)
Lemma step_stamped (config config' : Config) :
  step config config' -> config_stamped config -> config_stamped config'.
Proof.
  intros Hstep Hconfig. destruct Hstep.
  - apply create_stamped; [apply set_users_stamped | now intros e [H _] | exact Hconfig].
  - apply create_stamped; [apply set_groups_stamped | now intros e [_ H] | exact Hconfig].
  - apply delete_stamped; [apply set_users_stamped | now intros e [H _] | exact Hconfig].
  - apply delete_stamped; [apply set_groups_stamped | now intros e [_ H] | exact Hconfig].
  - now apply modifyUser_on_stamped.
  - now apply modifyGroup_on_stamped.
  - now apply modifyEntitlement_on_stamped.
Qed.

(** X15: no update of a user or a group ever succeeds. In a gateway set
    up without persistence, every user and every group carries a number
    as version from its insert on: those of the test data as well as
    those that [createUser] and [createGroup] store, and no call of an
    operation changes that. Hence in every configuration that calls of
    the operations reach, [modifyUser] and [modifyGroup] throw, whatever
    the tenant, the identifier and the payload. *)
Theorem no_update_of_a_user_or_group_succeeds
    (userDocs groupDocs : list doc) (config : Config) :
  reachable userDocs groupDocs config ->
  config_stamped config
  /\ (forall baseEntity id scimdata now stamp,
         exists e, fst (modifyUser config baseEntity id scimdata now stamp) = Throw e)
  /\ (forall baseEntity id scimdata now stamp,
         exists e, fst (modifyGroup config baseEntity id scimdata now stamp) = Throw e).
Proof.
  intros Hreach.
  assert (Hconfig : config_stamped config).
  { unfold reachable in Hreach.
    eapply (rtc_ind_r (fun c => config_stamped c)); [| |exact Hreach].
    - apply configOf_stamped.
    - intros c c' _ Hstep Hc. eapply step_stamped; eassumption. }
  split; [exact Hconfig|]. split; intros baseEntity id scimdata now stamp.
  - now apply modifyUser_on_stamped.
  - now apply modifyGroup_on_stamped.
Qed.

Lemma entitlementLoop_app (user user1 : doc) (before after : list jsval) :
  entitlementLoop user before = (Ok tt, user1) ->
  entitlementLoop user (before ++ after) = entitlementLoop user1 after.
Proof.
  revert user. induction before as [|entry before IH]; intros user Hloop; simpl in *.
  - now inversion Hloop.
  - destruct (entitlementStep user entry) as [user'|e]; [now apply IH | discriminate].
Qed.

(** X16: an entry that is null aborts the patch of [modifyUser] with a
    TypeError. The entries after it are not applied, the metadata are not
    advanced, and the stored user is left with what the entries before it
    had already made of its grants. *)
Theorem null_entry_aborts_the_patch
    (config : Config) (baseEntity id : string) (entity : Entity) (i : nat)
    (user scimdata : doc) (before : list Entry) (after : list jsval) (now : string)
    (stamp : Z) :
  config !! baseEntity = Some entity ->
  findOne (users entity) "id" (VStr id) = Ok (Some (i, user)) ->
  grants_wf user ->
  obj_get scimdata "entitlements" = VArr (map entryObj before ++ VNull :: after) ->
  exists e user1,
    modifyUser config baseEntity id scimdata now stamp
    = (Throw e,
       <[baseEntity := set_users entity (rewrite_at (users entity) i user1)]> config)
    /\ name e = "TypeError"
    /\ grantsOf user1 = fold_left stepGrants before (grantsOf user)
    /\ (forall k, k <> "entitlements" -> obj_get user1 k = obj_get user k).
Proof.
  intros Hcfg Hfind Hwf Hents.
  destruct (entitlementLoop_entries before user Hwf) as (user1 & Hloop & _ & Hgrants & Hother).
  eexists _, user1. split; [|split; [|split; assumption]].
  - unfold modifyUser. rewrite Hcfg, Hfind, Hents.
    rewrite (entitlementLoop_app _ _ _ _ Hloop). reflexivity.
  - reflexivity.
Qed.
(** * Properties of the in-memory class *)

Lemma includes_In (l : list string) (s : string) : includes l s = true <-> In s l.
Proof.
  unfold includes. rewrite existsb_exists. split.
  - intros (x & Hin & Heq). apply String.eqb_eq in Heq. now subst.
  - intros Hin. exists s. split; [exact Hin | apply String.eqb_refl].
Qed.

Lemma includes_false (l : list string) (s : string) : includes l s = false <-> ~ In s l.
Proof.
  rewrite <- includes_In. destruct (includes l s); split; intros H; try easy.
Qed.

Lemma listed_after_insert (userEntitlements : EntitlementsPlugin.Assignments)
    (userId other : string) (l : list string) :
  EntitlementsPlugin.listUserEntitlements (<[userId := l]> userEntitlements) other
  = if String.eqb other userId then l
    else EntitlementsPlugin.listUserEntitlements userEntitlements other.
Proof.
  unfold EntitlementsPlugin.listUserEntitlements.
  destruct (String.eqb other userId) eqn:E.
  - apply String.eqb_eq in E. subst. now rewrite lookup_insert_eq.
  - apply String.eqb_neq in E. rewrite lookup_insert_ne by congruence. reflexivity.
Qed.

Lemma remove_first_absent (x : string) (l : list string) :
  ~ In x l -> EntitlementsPlugin.remove_first x l = l.
Proof.
  induction l as [|y l IH]; simpl; intros Hnot; [reflexivity|].
  destruct (String.eqb y x) eqn:E.
  - apply String.eqb_eq in E. subst. contradiction Hnot. now left.
  - f_equal. apply IH. tauto.
Qed.

Lemma remove_first_In (x y : string) (l : list string) :
  In y (EntitlementsPlugin.remove_first x l) -> In y l.
Proof.
  induction l as [|z l IH]; simpl; [easy|].
  destruct (String.eqb z x); simpl; intros H; tauto.
Qed.

Lemma remove_first_other (x y : string) (l : list string) :
  y <> x -> In y l -> In y (EntitlementsPlugin.remove_first x l).
Proof.
  intros Hne. induction l as [|z l IH]; simpl; [easy|].
  destruct (String.eqb z x) eqn:E; simpl.
  - apply String.eqb_eq in E. subst. intros [-> | H]; [congruence | exact H].
  - intros [-> | H]; [now left | right; now apply IH].
Qed.

Lemma remove_first_NoDup (x : string) (l : list string) :
  List.NoDup l ->
  List.NoDup (EntitlementsPlugin.remove_first x l)
  /\ ~ In x (EntitlementsPlugin.remove_first x l).
Proof.
  induction 1 as [|y l Hy Hl IH]; simpl.
  - split; [constructor | easy].
  - destruct (String.eqb y x) eqn:E.
    + apply String.eqb_eq in E. subst. auto.
    + apply String.eqb_neq in E. destruct IH as [IH1 IH2]. split.
      * constructor; [|exact IH1]. intros H. apply Hy. eapply remove_first_In, H.
      * simpl. intros [-> | H]; [congruence | now apply IH2].
Qed.

Lemma remove_first_length (x : string) (l : list string) :
  In x l -> S (length (EntitlementsPlugin.remove_first x l)) = length l.
Proof.
  induction l as [|y l IH]; simpl; [easy|].
  destruct (String.eqb y x) eqn:E; [reflexivity|].
  apply String.eqb_neq in E. intros [-> | H]; [congruence|].
  simpl. now rewrite IH.
Qed.

Lemma remove_first_snoc (x : string) (l : list string) :
  ~ In x l -> EntitlementsPlugin.remove_first x (l ++ [x]) = l.
Proof.
  induction l as [|y l IH]; simpl; intros Hnot.
  - now rewrite String.eqb_refl.
  - destruct (String.eqb y x) eqn:E.
    + apply String.eqb_eq in E. subst. contradiction Hnot. now left.
    + f_equal. apply IH. tauto.
Qed.

(** X17: [assignEntitlementToUser] answers true exactly when the
    identifier was not yet listed for the user, and then appends it to the
    user's list; afterwards the identifier is listed, a list without
    repetition is still without repetition, the lists of the other users
    are as before, and a second call with the same arguments answers false
    and changes nothing. *)
Theorem assign_lists_the_entitlement_once
    (userEntitlements : EntitlementsPlugin.Assignments) (userId entitlementId : string) :
  let before := EntitlementsPlugin.listUserEntitlements userEntitlements userId in
  let outcome :=
    EntitlementsPlugin.assignEntitlementToUser userEntitlements userId entitlementId in
  let after := EntitlementsPlugin.listUserEntitlements (snd outcome) userId in
  fst outcome = negb (includes before entitlementId)
  /\ after = (if fst outcome then before ++ [entitlementId] else before)
  /\ In entitlementId after
  /\ (List.NoDup before -> List.NoDup after)
  /\ (forall other, other <> userId ->
        EntitlementsPlugin.listUserEntitlements (snd outcome) other
        = EntitlementsPlugin.listUserEntitlements userEntitlements other)
  /\ EntitlementsPlugin.assignEntitlementToUser (snd outcome) userId entitlementId
     = (false, snd outcome).
Proof.
  cbv zeta. unfold EntitlementsPlugin.assignEntitlementToUser.
  fold (EntitlementsPlugin.listUserEntitlements userEntitlements userId).
  set (before := EntitlementsPlugin.listUserEntitlements userEntitlements userId).
  destruct (includes before entitlementId) eqn:Hinc; cbn [negb fst snd].
  - fold (EntitlementsPlugin.listUserEntitlements userEntitlements userId).
    fold before. rewrite Hinc. cbn [negb].
    repeat split; auto. now apply includes_In.
  - rewrite listed_after_insert, String.eqb_refl.
    fold (EntitlementsPlugin.listUserEntitlements
            (<[userId := before ++ [entitlementId]]> userEntitlements) userId).
    rewrite listed_after_insert, String.eqb_refl.
    apply includes_false in Hinc.
    assert (Hnow : includes (before ++ [entitlementId]) entitlementId = true).
    { apply includes_In, in_or_app. right. now left. }
    rewrite Hnow. cbn [negb].
    repeat split; auto.
    + apply in_or_app. right. now left.
    + intros Hnd. apply NoDup_ListNoDup, NoDup_app. apply NoDup_ListNoDup in Hnd.
      split; [exact Hnd|]. split; [|apply NoDup_singleton].
      intros x Hx Hx'. apply list_elem_of_In in Hx. apply list_elem_of_singleton in Hx'.
      subst. contradiction.
    + intros other Hne. rewrite listed_after_insert.
      apply String.eqb_neq in Hne. now rewrite Hne.
Qed.

(** X18: [removeEntitlementFromUser] answers true exactly when the
    identifier was listed for the user, and then takes one occurrence out
    of the user's list; every other identifier stays listed and the lists
    of the other users are as before. When the list had no repetition the
    identifier is no longer listed afterwards, and a second call answers
    false and changes nothing. *)
Theorem remove_unlists_the_entitlement
    (userEntitlements : EntitlementsPlugin.Assignments) (userId entitlementId : string) :
  let before := EntitlementsPlugin.listUserEntitlements userEntitlements userId in
  let outcome :=
    EntitlementsPlugin.removeEntitlementFromUser userEntitlements userId entitlementId in
  let after := EntitlementsPlugin.listUserEntitlements (snd outcome) userId in
  fst outcome = includes before entitlementId
  /\ length before = (length after + if fst outcome then 1 else 0)%nat
  /\ (forall x, x <> entitlementId -> In x after <-> In x before)
  /\ (forall other, other <> userId ->
        EntitlementsPlugin.listUserEntitlements (snd outcome) other
        = EntitlementsPlugin.listUserEntitlements userEntitlements other)
  /\ (List.NoDup before ->
      List.NoDup after /\ ~ In entitlementId after
      /\ EntitlementsPlugin.removeEntitlementFromUser (snd outcome) userId entitlementId
         = (false, snd outcome)).
Proof.
  cbv zeta. unfold EntitlementsPlugin.removeEntitlementFromUser.
  fold (EntitlementsPlugin.listUserEntitlements userEntitlements userId).
  set (before := EntitlementsPlugin.listUserEntitlements userEntitlements userId).
  destruct (includes before entitlementId) eqn:Hinc; cbn [fst snd].
  - fold (EntitlementsPlugin.listUserEntitlements
            (<[userId := EntitlementsPlugin.remove_first entitlementId before]>
               userEntitlements) userId).
    rewrite listed_after_insert, String.eqb_refl.
    apply includes_In in Hinc.
    split; [reflexivity|]. split; [rewrite <- (remove_first_length _ _ Hinc); lia|].
    split; [intros x Hx; split; [apply remove_first_In | now apply remove_first_other]|].
    split.
    + intros other Hne. rewrite listed_after_insert.
      apply String.eqb_neq in Hne. now rewrite Hne.
    + intros Hnd. destruct (remove_first_NoDup entitlementId before Hnd) as [Hnd' Hout].
      split; [exact Hnd'|]. split; [exact Hout|].
      apply includes_false in Hout. now rewrite Hout.
  - fold (EntitlementsPlugin.listUserEntitlements userEntitlements userId).
    fold before. rewrite Hinc.
    split; [reflexivity|]. split; [lia|]. split; [tauto|]. split; [reflexivity|].
    intros Hnd. split; [exact Hnd|]. split; [now apply includes_false | reflexivity].
Qed.

(** X19: assigning an identifier that was not listed and removing it again
    gives the user the list it had, both calls answering true. *)
Theorem assign_then_remove_restores_the_list
    (userEntitlements : EntitlementsPlugin.Assignments) (userId entitlementId : string) :
  ~ In entitlementId (EntitlementsPlugin.listUserEntitlements userEntitlements userId) ->
  let assigned :=
    EntitlementsPlugin.assignEntitlementToUser userEntitlements userId entitlementId in
  let removed :=
    EntitlementsPlugin.removeEntitlementFromUser (snd assigned) userId entitlementId in
  fst assigned = true /\ fst removed = true
  /\ forall user,
       EntitlementsPlugin.listUserEntitlements (snd removed) user
       = EntitlementsPlugin.listUserEntitlements userEntitlements user.
Proof.
  intros Hnot. cbv zeta.
  unfold EntitlementsPlugin.assignEntitlementToUser.
  fold (EntitlementsPlugin.listUserEntitlements userEntitlements userId).
  set (before := EntitlementsPlugin.listUserEntitlements userEntitlements userId) in *.
  pose proof Hnot as Hinc. apply includes_false in Hinc. rewrite Hinc. cbn [negb fst snd].
  unfold EntitlementsPlugin.removeEntitlementFromUser.
  fold (EntitlementsPlugin.listUserEntitlements
          (<[userId := before ++ [entitlementId]]> userEntitlements) userId).
  rewrite listed_after_insert, String.eqb_refl.
  assert (Hnow : includes (before ++ [entitlementId]) entitlementId = true).
  { apply includes_In, in_or_app. right. now left. }
  rewrite Hnow. cbn [fst snd]. split; [reflexivity|]. split; [reflexivity|].
  intros user. rewrite remove_first_snoc by exact Hnot.
  rewrite listed_after_insert. destruct (String.eqb user userId) eqn:E.
  - apply String.eqb_eq in E. now subst.
  - now rewrite listed_after_insert, E.
Qed.

Lemma assignTruthy_same (target scimdata : doc) (key : string) :
  obj_get (EntitlementsPlugin.assignTruthy target scimdata key) key
  = js_or (obj_get scimdata key) (obj_get target key).
Proof.
  unfold EntitlementsPlugin.assignTruthy, js_or.
  destruct (truthy (obj_get scimdata key)); [apply obj_get_set_eq | reflexivity].
Qed.

Lemma assignTruthy_other (target scimdata : doc) (key k : string) :
  k <> key ->
  obj_get (EntitlementsPlugin.assignTruthy target scimdata key) k = obj_get target k.
Proof.
  intros Hne. unfold EntitlementsPlugin.assignTruthy.
  destruct (truthy (obj_get scimdata key)); [|reflexivity].
  apply obj_get_set_ne. congruence.
Qed.

Lemma find_index_insert (p : doc -> bool) (l : list doc) (i : nat) (d d' : doc) :
  find_index p l = Some (i, d) -> p d' = true ->
  find_index p (<[i := d']> l) = Some (i, d').
Proof.
  intros Hfind Hd'. revert i Hfind.
  induction l as [|d0 l IH]; simpl; intros i Hfind; [discriminate|].
  destruct (p d0) eqn:E.
  - inversion Hfind; subst. simpl. now rewrite Hd'.
  - destruct (find_index p l) as [[j d1]|] eqn:Hrest; simpl in Hfind; [|discriminate].
    inversion Hfind; subst. simpl. rewrite E, (IH j eq_refl). reflexivity.
Qed.

(** X20: [modifyEntitlement] of the class, under an identifier that an
    entitlement carries, returns the first such entitlement with each of
    displayName, type and description taken from the payload where the
    payload holds a truthy value and kept where it does not (an empty
    string, 0, false and null do not overwrite). Every other property is
    kept, the entitlement stays at its position under its id, and the
    identifiers of the list are as before. *)
Theorem class_modifyEntitlement_writes_truthy_fields
    (entitlements : list doc) (id : string) (scimdata : doc) (i : nat) (entitlement : doc) :
  find_index (has_id id) entitlements = Some (i, entitlement) ->
  exists entitlement',
    EntitlementsPlugin.modifyEntitlement entitlements id scimdata
    = (Some entitlement', <[i := entitlement']> entitlements)
    /\ (forall k, In k ["displayName"; "type"; "description"] ->
          obj_get entitlement' k = js_or (obj_get scimdata k) (obj_get entitlement k))
    /\ (forall k, ~ In k ["displayName"; "type"; "description"] ->
          obj_get entitlement' k = obj_get entitlement k)
    /\ find_index (has_id id) (<[i := entitlement']> entitlements) = Some (i, entitlement')
    /\ ids_of (<[i := entitlement']> entitlements) = ids_of entitlements.
Proof.
  intros Hfind. unfold EntitlementsPlugin.modifyEntitlement. rewrite Hfind.
  eexists. split; [reflexivity|].
  assert (Hfields : forall k, In k ["displayName"; "type"; "description"] ->
            obj_get (EntitlementsPlugin.assignTruthy
                       (EntitlementsPlugin.assignTruthy
                          (EntitlementsPlugin.assignTruthy entitlement scimdata "displayName")
                          scimdata "type") scimdata "description") k
            = js_or (obj_get scimdata k) (obj_get entitlement k)).
  { intros k [<- | [<- | [<- | []]]].
    - rewrite !assignTruthy_other by discriminate. apply assignTruthy_same.
    - rewrite assignTruthy_other by discriminate. rewrite assignTruthy_same.
      now rewrite assignTruthy_other by discriminate.
    - rewrite assignTruthy_same. now rewrite !assignTruthy_other by discriminate. }
  assert (Hothers : forall k, ~ In k ["displayName"; "type"; "description"] ->
            obj_get (EntitlementsPlugin.assignTruthy
                       (EntitlementsPlugin.assignTruthy
                          (EntitlementsPlugin.assignTruthy entitlement scimdata "displayName")
                          scimdata "type") scimdata "description") k
            = obj_get entitlement k).
  { intros k Hk. rewrite !assignTruthy_other; [reflexivity| | |];
      intros ->; apply Hk; simpl; auto. }
  split; [exact Hfields|]. split; [exact Hothers|].
  pose proof (find_index_lookup _ _ _ _ Hfind) as [Hi Hp].
  assert (Hid : forall d, obj_get d "id" = obj_get entitlement "id" ->
                          has_id id d = true).
  { intros d Hd. unfold has_id in *. now rewrite Hd. }
  split.
  - apply (find_index_insert _ _ _ _ _ Hfind). apply Hid, Hothers.
    simpl. intros [H | [H | [H | []]]]; discriminate.
  - unfold ids_of. rewrite list_fmap_insert. apply list_insert_id.
    rewrite list_lookup_fmap, Hi. simpl. f_equal. symmetry. apply Hothers.
    simpl. intros [H | [H | [H | []]]]; discriminate.
Qed.

Lemma filter_docs_all (cb : doc -> result bool) (l : list doc) :
  (forall d, cb d = Ok true) -> EntitlementsPlugin.filter_docs cb l = Ok l.
Proof.
  intros Hcb. induction l as [|d l IH]; simpl; [reflexivity|].
  now rewrite Hcb, IH.
Qed.

Lemma matches_unknown_operator (getObj : GetObj) (entitlement : doc) :
  ~ In (default "" (operator getObj)) ["eq"; "ne"; "co"; "sw"; "ew"] ->
  EntitlementsPlugin.matches getObj entitlement = Ok true.
Proof.
  intros Hop. unfold EntitlementsPlugin.matches. cbv zeta.
  assert (Hneq : forall op, In op ["eq"; "ne"; "co"; "sw"; "ew"] ->
                            String.eqb (default "" (operator getObj)) op = false).
  { intros op Hin. apply String.eqb_neq. intros Heq. apply Hop. now rewrite Heq. }
  rewrite !Hneq by (simpl; tauto). reflexivity.
Qed.

(** X21: [getEntitlements] of the class filters only on a filter object
    with an attribute, an operator and a value that are all truthy, and
    only by eq, ne, co, sw and ew. With one of the three absent or falsy
    (an empty string, 0, false or null as the value among them), or with
    any other operator, it raises no error and answers as without a
    filter: every entitlement counts, and the page is cut from the whole
    list. *)
Theorem class_filter_needs_all_three_parts (entitlements : list doc) (getObj : GetObj) :
  attribute getObj = "" \/ given (operator getObj) = false
  \/ truthy (value getObj) = false
  \/ ~ In (default "" (operator getObj)) ["eq"; "ne"; "co"; "sw"; "ew"] ->
  let start := Z.max 0 (num_or (startIndex getObj) 1 - 1) in
  EntitlementsPlugin.getEntitlements entitlements getObj
  = Ok (mkQueryResult
          (js_slice entitlements start (start + num_or (count getObj) 100))
          (Z.of_nat (length entitlements))).
Proof.
  intros Hfilter. cbv zeta. unfold EntitlementsPlugin.getEntitlements.
  assert (Hsel : (if negb (String.eqb (attribute getObj) "") && given (operator getObj)
                     && truthy (value getObj)
                  then EntitlementsPlugin.filter_docs
                         (EntitlementsPlugin.matches getObj) entitlements
                  else Ok entitlements) = Ok entitlements).
  { destruct Hfilter as [H | [H | [H | H]]].
    - now rewrite H.
    - rewrite H. now rewrite andb_false_r.
    - rewrite H. now rewrite andb_false_r.
    - destruct (_ && _ && _); [|reflexivity].
      apply filter_docs_all. intros d. now apply matches_unknown_operator. }
  rewrite Hsel. reflexivity.
Qed.

Lemma granted_values_shown (entitlements : list doc) (userEnts : list string) :
  granted_values (map (EntitlementsPlugin.shownGrant entitlements) userEnts)
  = map VStr userEnts.
Proof.
  induction userEnts as [|entId l IH]; simpl; [reflexivity|]. now rewrite IH.
Qed.

(** X22: [getUsers] of the class keeps the count and the order of what the
    query of the parent class returned, and every property of a user but
    entitlements. The entitlements of a user are replaced by one grant for
    each identifier assigned to the user's id, in the order of assignment;
    a grant for an identifier that no entitlement of the catalogue carries
    is displayed under the identifier itself, with the type License. *)
Theorem class_getUsers_shows_the_assignments
    (entitlements : list doc) (userEntitlements : EntitlementsPlugin.Assignments)
    (result : QueryResult) :
  exists shown,
    EntitlementsPlugin.getUsers entitlements userEntitlements (Some result) = Some shown
    /\ totalResults shown = totalResults result
    /\ length (Resources shown) = length (Resources result)
    /\ forall i user, Resources result !! i = Some user ->
       exists user',
         Resources shown !! i = Some user'
         /\ (forall k, k <> "entitlements" -> obj_get user' k = obj_get user k)
         /\ forall userId, obj_get user "id" = VStr userId ->
            let assigned :=
              EntitlementsPlugin.listUserEntitlements userEntitlements userId in
            granted_values (grantsOf user') = map VStr assigned
            /\ forall j entId,
                 assigned !! j = Some entId ->
                 find_index (has_id entId) entitlements = None ->
                 grantsOf user' !! j
                 = Some (VObj [("value", VStr entId); ("display", VStr entId);
                               ("type", VStr "License")]).
Proof.
  eexists. split; [reflexivity|]. cbn [totalResults Resources].
  split; [reflexivity|]. split; [apply length_map|].
  intros i user Hi. eexists.
  split; [change (@map doc doc) with (@fmap list _ doc doc);
          rewrite list_lookup_fmap, Hi; reflexivity|].
  unfold EntitlementsPlugin.addEntitlements.
  split; [intros k Hk; apply obj_get_set_ne; congruence|].
  intros userId Hid. cbv zeta. rewrite Hid. unfold grantsOf.
  rewrite obj_get_set_eq. split; [apply granted_values_shown|].
  intros j entId Hj Hnone.
  change (@map string jsval) with (@fmap list _ string jsval).
  rewrite list_lookup_fmap, Hj. simpl. unfold EntitlementsPlugin.shownGrant.
  rewrite Hnone. reflexivity.
Qed.

Lemma has_grant_values (v : string) (granted : list jsval) :
  has_grant v granted = existsb (fun x => strict_eq x (VStr v)) (granted_values granted).
Proof.
  unfold has_grant. induction granted as [|g l IH]; simpl; [reflexivity|].
  rewrite IH. now destruct g.
Qed.

Lemma existsb_values (v : string) (l : list string) :
  existsb (fun x => strict_eq x (VStr v)) (map VStr l) = includes l v.
Proof.
  unfold includes. induction l as [|s l IH]; simpl; [reflexivity|].
  now rewrite IH, String.eqb_sym.
Qed.

Lemma granted_values_filter (v : string) (granted : list jsval) :
  granted_values (List.filter (fun g => negb (grants_value v g)) granted)
  = List.filter (fun x => negb (strict_eq x (VStr v))) (granted_values granted).
Proof.
  induction granted as [|g l IH]; simpl; [reflexivity|].
  destruct g as [| | | | | | |o]; simpl; try (now rewrite IH).
  destruct (strict_eq (obj_get o "value") (VStr v)); simpl; now rewrite IH.
Qed.

Lemma filter_values (v : string) (l : list string) :
  List.filter (fun x => negb (strict_eq x (VStr v))) (map VStr l)
  = map VStr (List.filter (fun s => negb (String.eqb s v)) l).
Proof.
  induction l as [|s l IH]; simpl; [reflexivity|].
  destruct (String.eqb s v); simpl; now rewrite IH.
Qed.

Lemma filter_is_remove_first (v : string) (l : list string) :
  List.NoDup l ->
  List.filter (fun s => negb (String.eqb s v)) l = EntitlementsPlugin.remove_first v l.
Proof.
  induction 1 as [|y l Hy Hl IH]; simpl; [reflexivity|].
  destruct (String.eqb y v) eqn:E; simpl; [|now rewrite IH].
  apply String.eqb_eq in E. subst. rewrite IH. now apply remove_first_absent.
Qed.

Lemma listed_after_assign (userEntitlements : EntitlementsPlugin.Assignments)
    (id v other : string) :
  EntitlementsPlugin.listUserEntitlements
    (snd (EntitlementsPlugin.assignEntitlementToUser userEntitlements id v)) other
  = if String.eqb other id
    then (if includes (EntitlementsPlugin.listUserEntitlements userEntitlements id) v
          then EntitlementsPlugin.listUserEntitlements userEntitlements id
          else EntitlementsPlugin.listUserEntitlements userEntitlements id ++ [v])
    else EntitlementsPlugin.listUserEntitlements userEntitlements other.
Proof.
  unfold EntitlementsPlugin.assignEntitlementToUser.
  fold (EntitlementsPlugin.listUserEntitlements userEntitlements id).
  destruct (includes _ v); cbn [negb snd].
  - destruct (String.eqb other id) eqn:E; [|reflexivity].
    apply String.eqb_eq in E. now subst.
  - apply listed_after_insert.
Qed.

Lemma listed_after_remove (userEntitlements : EntitlementsPlugin.Assignments)
    (id v other : string) :
  EntitlementsPlugin.listUserEntitlements
    (snd (EntitlementsPlugin.removeEntitlementFromUser userEntitlements id v)) other
  = if String.eqb other id
    then EntitlementsPlugin.remove_first v
           (EntitlementsPlugin.listUserEntitlements userEntitlements id)
    else EntitlementsPlugin.listUserEntitlements userEntitlements other.
Proof.
  unfold EntitlementsPlugin.removeEntitlementFromUser.
  fold (EntitlementsPlugin.listUserEntitlements userEntitlements id).
  destruct (includes _ v) eqn:Hinc; cbn [snd].
  - apply listed_after_insert.
  - destruct (String.eqb other id) eqn:E; [|reflexivity].
    apply String.eqb_eq in E. subst.
    symmetry. now apply remove_first_absent, includes_false.
Qed.

Lemma assignLoop_entry (userEntitlements : EntitlementsPlugin.Assignments)
    (id : string) (en : Entry) (rest : list jsval) :
  EntitlementsPlugin.assignLoop userEntitlements id (entryObj en :: rest)
  = EntitlementsPlugin.assignLoop
      (if String.eqb (entryOperation en) "add"
       then snd (EntitlementsPlugin.assignEntitlementToUser userEntitlements id
                   (entryValue en))
       else if String.eqb (entryOperation en) "remove"
       then snd (EntitlementsPlugin.removeEntitlementFromUser userEntitlements id
                   (entryValue en))
       else userEntitlements) id rest.
Proof.
  destruct en as [op v display type primary].
  cbn [entryOperation entryValue].
  change (EntitlementsPlugin.assignLoop userEntitlements id (entryObj _ :: rest))
    with (if strict_eq (VStr op) (VStr "add")
          then EntitlementsPlugin.assignLoop
                 (snd (EntitlementsPlugin.assignEntitlementToUser userEntitlements id v))
                 id rest
          else if strict_eq (VStr op) (VStr "remove")
          then EntitlementsPlugin.assignLoop
                 (snd (EntitlementsPlugin.removeEntitlementFromUser userEntitlements id v))
                 id rest
          else EntitlementsPlugin.assignLoop userEntitlements id rest).
  cbn [strict_eq]. destruct (String.eqb op "add"); [reflexivity|].
  now destruct (String.eqb op "remove").
Qed.

Lemma class_step_agrees (userEntitlements : EntitlementsPlugin.Assignments)
    (id : string) (granted : list jsval) (en : Entry) :
  List.NoDup (EntitlementsPlugin.listUserEntitlements userEntitlements id) ->
  granted_values granted
  = map VStr (EntitlementsPlugin.listUserEntitlements userEntitlements id) ->
  let userEntitlements' :=
    if String.eqb (entryOperation en) "add"
    then snd (EntitlementsPlugin.assignEntitlementToUser userEntitlements id (entryValue en))
    else if String.eqb (entryOperation en) "remove"
    then snd (EntitlementsPlugin.removeEntitlementFromUser userEntitlements id
                (entryValue en))
    else userEntitlements in
  List.NoDup (EntitlementsPlugin.listUserEntitlements userEntitlements' id)
  /\ granted_values (stepGrants granted en)
     = map VStr (EntitlementsPlugin.listUserEntitlements userEntitlements' id)
  /\ forall other, other <> id ->
       EntitlementsPlugin.listUserEntitlements userEntitlements' other
       = EntitlementsPlugin.listUserEntitlements userEntitlements other.
Proof.
  intros Hnd Hvalues. cbv zeta. unfold stepGrants.
  assert (Hne : forall other, other <> id -> String.eqb other id = false)
    by (intros other; apply String.eqb_neq).
  destruct (String.eqb (entryOperation en) "add").
  - split; [|split].
    + rewrite listed_after_assign, String.eqb_refl.
      destruct (includes _ _) eqn:Hinc; [exact Hnd|].
      apply NoDup_ListNoDup, NoDup_app. apply NoDup_ListNoDup in Hnd.
      split; [exact Hnd|]. split; [|apply NoDup_singleton].
      intros x Hx Hx'. apply list_elem_of_In in Hx. apply list_elem_of_singleton in Hx'.
      subst. now apply includes_false in Hinc.
    + rewrite listed_after_assign, String.eqb_refl.
      rewrite has_grant_values, Hvalues, existsb_values.
      destruct (includes _ _); [exact Hvalues|].
      unfold granted_values in *. rewrite !map_app, Hvalues. reflexivity.
    + intros other Hother. now rewrite listed_after_assign, Hne.
  - destruct (String.eqb (entryOperation en) "remove"); [|now auto].
    split; [|split].
    + rewrite listed_after_remove, String.eqb_refl. now apply remove_first_NoDup.
    + rewrite listed_after_remove, String.eqb_refl.
      rewrite granted_values_filter, Hvalues, filter_values.
      now rewrite filter_is_remove_first.
    + intros other Hother. now rewrite listed_after_remove, Hne.
Qed.

Lemma class_loop_agrees (entries : list Entry)
    (userEntitlements : EntitlementsPlugin.Assignments) (id : string)
    (granted : list jsval) :
  List.NoDup (EntitlementsPlugin.listUserEntitlements userEntitlements id) ->
  granted_values granted
  = map VStr (EntitlementsPlugin.listUserEntitlements userEntitlements id) ->
  exists userEntitlements',
    EntitlementsPlugin.assignLoop userEntitlements id (map entryObj entries)
    = (Ok tt, userEntitlements')
    /\ List.NoDup (EntitlementsPlugin.listUserEntitlements userEntitlements' id)
    /\ granted_values (fold_left stepGrants entries granted)
       = map VStr (EntitlementsPlugin.listUserEntitlements userEntitlements' id)
    /\ forall other, other <> id ->
         EntitlementsPlugin.listUserEntitlements userEntitlements' other
         = EntitlementsPlugin.listUserEntitlements userEntitlements other.
Proof.
  revert userEntitlements granted.
  induction entries as [|en entries IH]; intros userEntitlements granted Hnd Hvalues.
  - exists userEntitlements. simpl. auto.
  - destruct (class_step_agrees userEntitlements id granted en Hnd Hvalues)
      as (Hnd1 & Hvalues1 & Hother1).
    destruct (IH _ _ Hnd1 Hvalues1) as (ue' & Hloop & Hnd' & Hvalues' & Hother').
    exists ue'. cbn [map fold_left]. rewrite assignLoop_entry.
    split; [exact Hloop|]. split; [exact Hnd'|]. split; [exact Hvalues'|].
    intros other Hne. rewrite Hother' by exact Hne. now apply Hother1.
Qed.

(** X23: the class and the store plugin apply a patch of entitlement
    entries alike. When the values of the grants a stored user holds are
    the identifiers the class lists for the user's id, and that list has
    no repetition, then after [modifyUser] of either has run its loop over
    the same entries (each with a string value) both loops have succeeded,
    the values of the grants are again the identifiers listed, the list is
    again without repetition, and the lists of the other users are as
    before. *)
Theorem class_and_store_patch_agree
    (userEntitlements : EntitlementsPlugin.Assignments) (id : string)
    (user : doc) (entries : list Entry) :
  grants_wf user ->
  List.NoDup (EntitlementsPlugin.listUserEntitlements userEntitlements id) ->
  granted_values (grantsOf user)
  = map VStr (EntitlementsPlugin.listUserEntitlements userEntitlements id) ->
  exists user' userEntitlements',
    entitlementLoop user (map entryObj entries) = (Ok tt, user')
    /\ EntitlementsPlugin.assignLoop userEntitlements id (map entryObj entries)
       = (Ok tt, userEntitlements')
    /\ granted_values (grantsOf user')
       = map VStr (EntitlementsPlugin.listUserEntitlements userEntitlements' id)
    /\ List.NoDup (EntitlementsPlugin.listUserEntitlements userEntitlements' id)
    /\ forall other, other <> id ->
         EntitlementsPlugin.listUserEntitlements userEntitlements' other
         = EntitlementsPlugin.listUserEntitlements userEntitlements other.
Proof.
  intros Hwf Hnd Hvalues.
  destruct (entitlementLoop_entries entries user Hwf) as (user' & Hloop & _ & Hgrants & _).
  destruct (class_loop_agrees entries userEntitlements id (grantsOf user) Hnd Hvalues)
    as (ue' & Hclass & Hnd' & Hvalues' & Hother).
  exists user', ue'. rewrite Hgrants. auto.
Qed.


(** * Concrete runs *)

(** Three stored users asked for one record from the second on, and the
    test entitlements asked for an identifier, which goes through the
    sorted index. *)
Lemma second_of_three_users_is_stored :
  threeUsers !! theTenant = Some (tenant [bjensen; jsmith; mmiller] [])
  /\ fst (getUsers Fragment.regExp Fragment.otherOps Fragment.dotted Fragment.indexSearch
            threeUsers theTenant (noFilter (Some 2) (Some 1)))
     = Ok (mkQueryResult [userAt threeUsers 1] 3)
  /\ obj_get (userAt threeUsers 1) "id" = VStr "u2"
  /\ (Forall (fun d => In d (data (users (tenant [bjensen; jsmith; mmiller] []))))
        (Resources (mkQueryResult [userAt threeUsers 1] 3))
      /\ Z.of_nat (length (Resources (mkQueryResult [userAt threeUsers 1] 3)))
         <= totalResults (mkQueryResult [userAt threeUsers 1] 3)
      /\ (index_of (users (tenant [bjensen; jsmith; mmiller] []))
            (attribute (noFilter (Some 2) (Some 1))) = None ->
          sublist (Resources (mkQueryResult [userAt threeUsers 1] 3))
            (data (users (tenant [bjensen; jsmith; mmiller] [])))
          /\ totalResults (mkQueryResult [userAt threeUsers 1] 3)
             <= Z.of_nat (length (data (users (tenant [bjensen; jsmith; mmiller] []))))))
  /\ index_of (users (tenant [bjensen; jsmith; mmiller] []))
       (attribute (noFilter (Some 2) (Some 1))) = None
  /\ (forall r,
         fst (getEntitlements Fragment.regExp Fragment.otherOps Fragment.dotted
                Fragment.indexSearch threeUsers theTenant (eqFilter "id" "entitlement-456"))
         = Ok r ->
         Forall (fun d => In d (data (entitlements (tenant [bjensen; jsmith; mmiller] []))))
           (Resources r))
  /\ exists r,
       fst (getEntitlements Fragment.regExp Fragment.otherOps Fragment.dotted
              Fragment.indexSearch threeUsers theTenant (eqFilter "id" "entitlement-456"))
       = Ok r
       /\ ids_of (Resources r) = [VStr "entitlement-456"].
Proof.
  split; [apply configOf_lookup|].
  assert (Hrun : fst (getUsers Fragment.regExp Fragment.otherOps Fragment.dotted
                        Fragment.indexSearch threeUsers theTenant
                        (noFilter (Some 2) (Some 1)))
                 = Ok (mkQueryResult [userAt threeUsers 1] 3)) by (vm_compute; reflexivity).
  split; [exact Hrun|]. split; [vm_compute; reflexivity|].
  split.
  { exact (proj1 (query_returns_stored_documents Fragment.regExp Fragment.otherOps
                    Fragment.dotted Fragment.indexSearch threeUsers theTenant
                    (tenant [bjensen; jsmith; mmiller] []) (noFilter (Some 2) (Some 1))
                    (mkQueryResult [userAt threeUsers 1] 3) (configOf_lookup _ _)) Hrun). }
  split; [reflexivity|].
  split.
  { intros r Hr.
    exact (proj1 (proj2 (proj2 (query_returns_stored_documents Fragment.regExp
                                  Fragment.otherOps Fragment.dotted Fragment.indexSearch
                                  threeUsers theTenant
                                  (tenant [bjensen; jsmith; mmiller] [])
                                  (eqFilter "id" "entitlement-456") r
                                  (configOf_lookup _ _))) Hr)). }
  eexists. split; vm_compute; reflexivity.
Defined.

(** Three stored users read in two pages of one record, and in one page of
    two. *)
Lemma two_pages_of_three_users :
  1 <= 1 /\ 0 < 1 /\ 0 < 1
  /\ fst (getUsers Fragment.regExp Fragment.otherOps Fragment.dotted Fragment.indexSearch
            threeUsers theTenant (with_paging (noFilter None None) (Some 1) (Some 1)))
     = Ok (mkQueryResult [userAt threeUsers 0] 3)
  /\ exists r2 r12,
       fst (getUsers Fragment.regExp Fragment.otherOps Fragment.dotted Fragment.indexSearch
              threeUsers theTenant
              (with_paging (noFilter None None) (Some (1 + 1)) (Some 1))) = Ok r2
       /\ fst (getUsers Fragment.regExp Fragment.otherOps Fragment.dotted
                 Fragment.indexSearch threeUsers theTenant
                 (with_paging (noFilter None None) (Some 1) (Some (1 + 1)))) = Ok r12
       /\ Resources (mkQueryResult [userAt threeUsers 0] 3) ++ Resources r2 = Resources r12
       /\ totalResults r2 = totalResults (mkQueryResult [userAt threeUsers 0] 3)
       /\ totalResults r12 = totalResults (mkQueryResult [userAt threeUsers 0] 3).
Proof.
  assert (Hrun : fst (getUsers Fragment.regExp Fragment.otherOps Fragment.dotted
                        Fragment.indexSearch threeUsers theTenant
                        (with_paging (noFilter None None) (Some 1) (Some 1)))
                 = Ok (mkQueryResult [userAt threeUsers 0] 3)) by (vm_compute; reflexivity).
  split; [lia|]. split; [lia|]. split; [lia|]. split; [exact Hrun|].
  exact (proj2 (proj1 (pages_have_length_and_tile Fragment.regExp Fragment.otherOps
                         Fragment.dotted Fragment.indexSearch threeUsers theTenant
                         (noFilter None None) 1 1 1
                         (mkQueryResult [userAt threeUsers 0] 3)
                         ltac:(lia) ltac:(lia) ltac:(lia)) Hrun)).
Defined.

(** The operator like on the users of the test tenant. *)
Lemma operator_like_is_refused :
  oneUser !! theTenant = Some (tenant [bjensen] [])
  /\ "like" <> ""
  /\ includes ("co" :: "ge" :: "le" :: "sw" :: "ew" :: validFilterOperators) "like" = false
  /\ exists e,
       getUsers Fragment.regExp Fragment.otherOps Fragment.dotted Fragment.indexSearch oneUser
         theTenant (mkGetObj "userName" (Some "like") (VStr "bj") None None None)
       = (Throw e, mkGetObj "userName" (Some "like") (VStr "bj") None None None)
       /\ name e = "invalidFilter".
Proof.
  split; [apply configOf_lookup|]. split; [discriminate|]. split; [reflexivity|].
  eexists. split.
  - exact (proj1 (unknown_operator_is_invalidFilter Fragment.regExp Fragment.otherOps
                    Fragment.dotted Fragment.indexSearch oneUser theTenant
                    (tenant [bjensen] [])
                    (mkGetObj "userName" (Some "like") (VStr "bj") None None None) "like"
                    (configOf_lookup _ _) eq_refl ltac:(discriminate) eq_refl)).
  - reflexivity.
Defined.

(** The filter object of a query for jsmith, used a second time. *)
Lemma second_use_of_a_filter_object_fails :
  given (operator (eqFilter "userName" "jsmith")) = true
  /\ fst (getUsers Fragment.regExp Fragment.otherOps Fragment.dotted Fragment.indexSearch
            threeUsers theTenant (eqFilter "userName" "jsmith"))
     = Ok (mkQueryResult [userAt threeUsers 1] 1)
  /\ exists e,
       getUsers Fragment.regExp Fragment.otherOps Fragment.dotted Fragment.indexSearch
         threeUsers theTenant
         (snd (getUsers Fragment.regExp Fragment.otherOps Fragment.dotted Fragment.indexSearch
                 threeUsers theTenant (eqFilter "userName" "jsmith")))
       = (Throw e,
          snd (getUsers Fragment.regExp Fragment.otherOps Fragment.dotted Fragment.indexSearch
                 threeUsers theTenant (eqFilter "userName" "jsmith")))
       /\ name e = "invalidFilter".
Proof.
  assert (Hrun : fst (getUsers Fragment.regExp Fragment.otherOps Fragment.dotted
                        Fragment.indexSearch threeUsers theTenant
                        (eqFilter "userName" "jsmith"))
                 = Ok (mkQueryResult [userAt threeUsers 1] 1)) by (vm_compute; reflexivity).
  split; [reflexivity|]. split; [exact Hrun|].
  exact (proj1 (translated_filter_object_is_refused Fragment.regExp Fragment.otherOps
                  Fragment.dotted Fragment.indexSearch threeUsers theTenant
                  (eqFilter "userName" "jsmith") (mkQueryResult [userAt threeUsers 1] 1)
                  eq_refl) Hrun).
Defined.

(** The query for the id of jsmith among three users. *)
Lemma query_for_u2_returns_jsmith :
  threeUsers !! theTenant = Some (tenant [bjensen; jsmith; mmiller] [])
  /\ distinct_on "id" (data (users (tenant [bjensen; jsmith; mmiller] [])))
  /\ fst (getUsers Fragment.regExp Fragment.otherOps Fragment.dotted Fragment.indexSearch
            threeUsers theTenant (mkGetObj "id" (Some "eq") (VStr "u2") None None None))
     = Ok (mkQueryResult [userAt threeUsers 1] 1).
Proof.
  assert (Hdistinct : distinct_on "id" (data (users (tenant [bjensen; jsmith; mmiller] [])))).
  { vm_compute. repeat split; intros _; repeat constructor. }
  split; [apply configOf_lookup|]. split; [exact Hdistinct|].
  rewrite (proj1 (query_by_id_returns_the_document Fragment.regExp Fragment.otherOps
                    Fragment.dotted Fragment.indexSearch threeUsers theTenant
                    (tenant [bjensen; jsmith; mmiller] []) "u2" None (configOf_lookup _ _))
             Hdistinct).
  vm_compute. reflexivity.
Defined.

(** A create with an empty login name on the test tenant. *)
Lemma create_with_empty_userName_fails :
  oneUser !! theTenant = Some (tenant [bjensen] [])
  /\ truthy (obj_get [("userName", VStr ""); ("active", VBool true)] "userName") = false
  /\ createUser oneUser theTenant
       [("userName", VStr ""); ("active", VBool true)] "id-9" later later laterTime
     = (Throw (mkError "invalidValue" "createUser error: userName is required"), oneUser).
Proof.
  split; [apply configOf_lookup|]. split; [reflexivity|].
  exact (proj1 (create_without_mandatory_attribute oneUser theTenant
                  (tenant [bjensen] []) [("userName", VStr ""); ("active", VBool true)]
                  "id-9" later later laterTime (configOf_lookup _ _)) eq_refl).
Defined.

Lemma tenantOf_lookup (config : Config) :
  is_Some (config !! theTenant) -> config !! theTenant = Some (tenantOf config).
Proof. unfold tenantOf. now intros [entity ->]. Qed.

(** alice created beside bjensen under a fresh identifier, and under the
    identifier of bjensen; and a user created under the login name that
    bjensen had before a rename that the update left half done. *)
Lemma create_alice_beside_bjensen :
  (oneUser !! theTenant = Some (tenant [bjensen] [])
   /\ uniqueNames (users (tenant [bjensen] [])) = ["id"; "userName"]
   /\ "alice" <> ""
   /\ Forall (fun d => strict_eq (obj_get d "userName") (VStr "alice") = false)
        (data (users (tenant [bjensen] [])))
   /\ keyMap (users (tenant [bjensen] [])) !! ("id", "id-9") = None
   /\ keyMap (users (tenant [bjensen] [])) !! ("userName", "alice") = None
   /\ is_Some (keyMap (users (tenant [bjensen] [])) !! ("id", "u1")))
  /\ (exists record config',
         createUser oneUser theTenant [("userName", VStr "alice"); ("active", VBool true)]
           "id-9" later later laterTime = (Ok record, config')
         /\ usersOf config' = usersOf oneUser ++ [record]
         /\ obj_get record "id" = VStr "id-9"
         /\ obj_get record "$loki" = VNum 2
         /\ obj_get record "active" = VBool true)
  /\ (exists config',
         createUser oneUser theTenant [("userName", VStr "alice"); ("active", VBool true)]
           "u1" later later laterTime
         = (Throw (mkError "Error" "Duplicate key for property id: u1"), config')
         /\ usersOf config' = usersOf oneUser)
  /\ (map (fun d => obj_get d "userName") (usersOf (snd afterRename)) = [VStr "barbara"]
      /\ is_Some (keyMap (users (tenantOf (snd afterRename))) !! ("userName", "bjensen"))
      /\ exists config',
           createUser (snd afterRename) theTenant [("userName", VStr "bjensen")]
             "id-9" later later laterTime
           = (Throw (mkError "Error" "Duplicate key for property userName: bjensen"), config')
           /\ usersOf config' = usersOf (snd afterRename)).
Proof.
  assert (Hnames : Forall (fun d => strict_eq (obj_get d "userName") (VStr "alice") = false)
                     (data (users (tenant [bjensen] []))))
    by (vm_compute; repeat constructor).
  assert (Htaken : is_Some (keyMap (users (tenant [bjensen] [])) !! ("id", "u1")))
    by (apply (bool_decide_unpack _); vm_compute; reflexivity).
  assert (Hunique : uniqueNames (users (tenant [bjensen] [])) = ["id"; "userName"])
    by (vm_compute; reflexivity).
  assert (Hid9 : keyMap (users (tenant [bjensen] [])) !! ("id", "id-9") = None)
    by (vm_compute; reflexivity).
  assert (Halice : keyMap (users (tenant [bjensen] [])) !! ("userName", "alice") = None)
    by (vm_compute; reflexivity).
  assert (Hstored : usersOf oneUser = data (users (tenant [bjensen] [])))
    by (vm_compute; reflexivity).
  split.
  { split; [apply configOf_lookup|]. split; [exact Hunique|]. split; [discriminate|].
    split; [exact Hnames|]. split; [exact Hid9|]. split; [exact Halice | exact Htaken]. }
  split; [|split].
  - destruct (createUser_outcome oneUser theTenant (tenant [bjensen] [])
                [("userName", VStr "alice"); ("active", VBool true)] "alice" "id-9"
                later later laterTime
                (configOf_lookup _ _) Hunique eq_refl ltac:(discriminate) eq_refl Hnames)
      as [Hok _].
    destruct (Hok Hid9 Halice) as (users' & Hrun & Hdata & _ & _ & Hid & Hloki & Hother).
    eexists _, _. split; [exact Hrun|].
    split.
    { unfold usersOf at 1. rewrite lookup_insert_eq. unfold set_users. cbn [users].
      rewrite Hdata. now rewrite Hstored. }
    split; [exact Hid|]. split; [rewrite Hloki; vm_compute; reflexivity|].
    rewrite Hother by discriminate. reflexivity.
  - destruct (createUser_outcome oneUser theTenant (tenant [bjensen] [])
                [("userName", VStr "alice"); ("active", VBool true)] "alice" "u1"
                later later laterTime
                (configOf_lookup _ _) Hunique eq_refl ltac:(discriminate) eq_refl Hnames)
      as (_ & Hdup & _).
    destruct (Hdup Htaken) as (users' & Hrun & Hdata).
    eexists. split; [exact Hrun|].
    unfold usersOf at 1. rewrite lookup_insert_eq. unfold set_users. cbn [users].
    rewrite Hdata. now rewrite Hstored.
  - assert (Hstale : is_Some (keyMap (users (tenantOf (snd afterRename)))
                                !! ("userName", "bjensen")))
      by (apply (bool_decide_unpack _); vm_compute; reflexivity).
    split; [vm_compute; reflexivity|]. split; [exact Hstale|].
    destruct (createUser_outcome (snd afterRename) theTenant (tenantOf (snd afterRename))
                [("userName", VStr "bjensen")] "bjensen" "id-9" later later laterTime)
      as (_ & _ & Hdup).
    + apply tenantOf_lookup. apply (bool_decide_unpack _). vm_compute. reflexivity.
    + vm_compute. reflexivity.
    + reflexivity.
    + discriminate.
    + reflexivity.
    + vm_compute. repeat constructor.
    + destruct Hdup as (users' & Hrun & Hdata); [vm_compute; reflexivity | exact Hstale|].
      eexists. split; [exact Hrun|].
      unfold usersOf at 1. rewrite lookup_insert_eq. unfold set_users. cbn [users].
      rewrite Hdata. vm_compute. reflexivity.
Defined.

(** alice created beside bjensen: the users stay distinct by login name
    and by id, and the index still holds the key of every id. *)
Lemma alice_keeps_the_users_distinct :
  (oneUser !! theTenant = Some (tenant [bjensen] [])
   /\ snd afterAlice !! theTenant = Some (tenantOf (snd afterAlice))
   /\ createUser oneUser theTenant [("userName", VStr "alice"); ("active", VBool true)]
        "id-9" later later laterTime = (fst afterAlice, snd afterAlice)
   /\ distinct_on "userName" (data (users (tenant [bjensen] [])))
   /\ In "id" (uniqueNames (users (tenant [bjensen] [])))
   /\ index_covers (users (tenant [bjensen] [])) "id"
   /\ distinct_on "id" (data (users (tenant [bjensen] []))))
  /\ ids_of (data (users (tenantOf (snd afterAlice)))) = [VStr "u1"; VStr "id-9"]
  /\ distinct_on "userName" (data (users (tenantOf (snd afterAlice))))
  /\ distinct_on "id" (data (users (tenantOf (snd afterAlice))))
  /\ index_covers (users (tenantOf (snd afterAlice))) "id".
Proof.
  assert (Hafter : snd afterAlice !! theTenant = Some (tenantOf (snd afterAlice)))
    by (apply tenantOf_lookup; apply (bool_decide_unpack _); vm_compute; reflexivity).
  assert (Hrun : createUser oneUser theTenant
                   [("userName", VStr "alice"); ("active", VBool true)]
                   "id-9" later later laterTime = (fst afterAlice, snd afterAlice))
    by (unfold afterAlice; apply surjective_pairing).
  assert (Hnames : distinct_on "userName" (data (users (tenant [bjensen] []))))
    by (apply (bool_decide_unpack _); vm_compute; reflexivity).
  assert (Hids : distinct_on "id" (data (users (tenant [bjensen] []))))
    by (apply (bool_decide_unpack _); vm_compute; reflexivity).
  assert (Hin : In "id" (uniqueNames (users (tenant [bjensen] []))))
    by (vm_compute; now left).
  assert (Hcovers : index_covers (users (tenant [bjensen] [])) "id").
  { apply (bool_decide_unpack _). vm_compute. reflexivity. }
  split.
  { split; [apply configOf_lookup|]. split; [exact Hafter|]. split; [exact Hrun|].
    split; [exact Hnames|]. split; [exact Hin|]. split; [exact Hcovers | exact Hids]. }
  split; [vm_compute; reflexivity|].
  destruct (create_keeps_exact_uniqueness oneUser (snd afterAlice) theTenant
              (tenant [bjensen] []) (tenantOf (snd afterAlice))
              [("userName", VStr "alice"); ("active", VBool true)]
              "id-9" later later laterTime (fst afterAlice)
              (configOf_lookup _ _) Hafter) as [Husers _].
  destruct (Husers Hrun) as [Hnames' Hids'].
  split; [exact (Hnames' Hnames)|]. exact (Hids' Hin Hcovers Hids).
Defined.


(** jsmith deleted from among three users, and deleted again; and
    bjensen deleted after the rename that the update left half done: the
    delete returns normally and bjensen is still stored. *)
Lemma delete_jsmith_twice :
  (threeUsers !! theTenant = Some (tenant [bjensen; jsmith; mmiller] [])
   /\ findOne (users (tenant [bjensen; jsmith; mmiller] [])) "id" (VStr "u2")
      = Ok (Some (1%nat, userAt threeUsers 1))
   /\ filed (users (tenant [bjensen; jsmith; mmiller] [])) 1 (userAt threeUsers 1)
   /\ NoDup (uniqueNames (users (tenant [bjensen; jsmith; mmiller] [])))
   /\ index_holds (users (tenant [bjensen; jsmith; mmiller] [])) (userAt threeUsers 1)
   /\ distinct_on "id" (data (users (tenant [bjensen; jsmith; mmiller] []))))
  /\ (exists config',
         deleteUser threeUsers theTenant "u2" = (Ok tt, config')
         /\ ids_of (usersOf config') = [VStr "u1"; VStr "u3"]
         /\ deleteUser config' theTenant "u2"
            = (Throw (mkError "notFound" "deleteUser error: user id=u2 does not exist"),
               config'))
  /\ (findOne (users (tenantOf (snd afterRename))) "id" (VStr "u1")
      = Ok (Some (0%nat, userAt (snd afterRename) 0))
      /\ Exists (fun field => key_missing (users (tenantOf (snd afterRename))) field
                                (userAt (snd afterRename) 0))
           (uniqueNames (users (tenantOf (snd afterRename))))
      /\ exists config',
           deleteUser (snd afterRename) theTenant "u1" = (Ok tt, config')
           /\ usersOf config' = usersOf (snd afterRename)
           /\ ids_of (usersOf config') = [VStr "u1"]).
Proof.
  assert (Hfind : findOne (users (tenant [bjensen; jsmith; mmiller] [])) "id" (VStr "u2")
                  = Ok (Some (1%nat, userAt threeUsers 1))) by (vm_compute; reflexivity).
  assert (Hfiled : filed (users (tenant [bjensen; jsmith; mmiller] [])) 1
                     (userAt threeUsers 1)).
  { exists 2. split; vm_compute; reflexivity. }
  assert (Hnodup : NoDup (uniqueNames (users (tenant [bjensen; jsmith; mmiller] []))))
    by (apply (bool_decide_unpack _); vm_compute; reflexivity).
  assert (Hholds : index_holds (users (tenant [bjensen; jsmith; mmiller] []))
                     (userAt threeUsers 1)).
  { apply (bool_decide_unpack _). vm_compute. reflexivity. }
  assert (Hdistinct : distinct_on "id" (data (users (tenant [bjensen; jsmith; mmiller] []))))
    by (apply (bool_decide_unpack _); vm_compute; reflexivity).
  split.
  { split; [apply configOf_lookup|]. split; [exact Hfind|]. split; [exact Hfiled|].
    split; [exact Hnodup|]. split; [exact Hholds | exact Hdistinct]. }
  split.
  - destruct (delete_removes_the_document threeUsers theTenant "u2"
                (tenant [bjensen; jsmith; mmiller] []) (configOf_lookup _ _))
      as (_ & _ & Husers & _).
    destruct (Husers 1%nat (userAt threeUsers 1) Hfind Hfiled) as [Hremoved _].
    destruct (Hremoved Hnodup Hholds)
      as (config' & Hrun & (entity' & Hafter & Hdata) & _ & Hagain).
    exists config'. split; [exact Hrun|].
    split; [|now apply Hagain].
    unfold usersOf. rewrite Hafter, Hdata. vm_compute. reflexivity.
  - assert (Hfind' : findOne (users (tenantOf (snd afterRename))) "id" (VStr "u1")
                     = Ok (Some (0%nat, userAt (snd afterRename) 0)))
      by (vm_compute; reflexivity).
    assert (Hmissing : Exists (fun field => key_missing (users (tenantOf (snd afterRename)))
                                              field (userAt (snd afterRename) 0))
                         (uniqueNames (users (tenantOf (snd afterRename))))).
    { apply (bool_decide_unpack _). vm_compute. reflexivity. }
    split; [exact Hfind'|]. split; [exact Hmissing|].
    destruct (delete_removes_the_document (snd afterRename) theTenant "u1"
                (tenantOf (snd afterRename)))
      as (_ & _ & Husers & _).
    { apply tenantOf_lookup. apply (bool_decide_unpack _). vm_compute. reflexivity. }
    destruct (Husers 0%nat (userAt (snd afterRename) 0) Hfind') as [_ Hstays].
    { exists 1. split; vm_compute; reflexivity. }
    destruct (Hstays Hmissing) as (config' & entity' & Hrun & Hafter & Hdata).
    exists config'. split; [exact Hrun|].
    assert (Hsame : usersOf config' = usersOf (snd afterRename)).
    { unfold usersOf at 1. rewrite Hafter, Hdata. vm_compute. reflexivity. }
    split; [exact Hsame|]. rewrite Hsame. vm_compute. reflexivity.
Defined.


(** The same update: the groups, the entitlements and the identifiers of
    the tenant are as before. *)
Lemma update_of_bjensen_stays_in_place :
  oneUser !! theTenant = Some (tenant [bjensen] [])
  /\ exists r config' entity',
       modifyUser oneUser theTenant "u1"
         [("active", VBool false); ("userName", VStr "barbara")] later laterTime
       = (r, config')
       /\ config' !! theTenant = Some entity'
       /\ groups entity' = groups (tenant [bjensen] [])
       /\ entitlements entity' = entitlements (tenant [bjensen] [])
       /\ ids_of (data (users entity')) = [VStr "u1"].
Proof.
  split; [apply configOf_lookup|].
  destruct (modifyUser oneUser theTenant "u1"
              [("active", VBool false); ("userName", VStr "barbara")] later laterTime)
    as [r config'] eqn:Hrun.
  destruct (update_rewrites_in_place oneUser config' theTenant "u1"
              (tenant [bjensen] []) [("active", VBool false); ("userName", VStr "barbara")]
              later laterTime r (configOf_lookup _ _)) as [Husers _].
  destruct (Husers Hrun) as (_ & entity' & Hafter & Hgroups & Hents & _ & _ & Hids).
  exists r, config', entity'. split; [reflexivity|]. split; [exact Hafter|].
  split; [exact Hgroups|]. split; [exact Hents|].
  rewrite Hids. vm_compute. reflexivity.
Defined.

(** The second test entitlement given an empty display name. *)
Lemma empty_displayName_is_written :
  (oneUser !! theTenant = Some (tenant [bjensen] [])
   /\ uniqueNames (entitlements (tenant [bjensen] [])) = ["id"]
   /\ findOne (entitlements (tenant [bjensen] [])) "id" (VStr "entitlement-456")
      = Ok (Some (1%nat, entitlementAt oneUser 1))
   /\ obj_get (entitlementAt oneUser 1) "$loki" = VNum 2
   /\ idIndex (entitlements (tenant [bjensen] [])) !! 1%nat = Some 2
   /\ lokiMap (entitlements (tenant [bjensen] [])) !! ("id", 2) = Some (VStr "entitlement-456")
   /\ obj_get (entitlementAt oneUser 1) "meta"
      = VObj [("revision", VNum 0); ("created", VNum loadTime); ("version", VNum 0)])
  /\ exists entitlement',
       fst (modifyEntitlement oneUser theTenant "entitlement-456"
              [("displayName", VStr "")] laterTime) = Ok entitlement'
       /\ obj_get entitlement' "displayName" = VStr ""
       /\ obj_get entitlement' "type" = VStr "License"
       /\ obj_get entitlement' "id" = VStr "entitlement-456"
       /\ obj_get entitlement' "meta"
          = VObj [("revision", VNum 1); ("created", VNum loadTime); ("version", VNum 0);
                  ("updated", VNum laterTime)].
Proof.
  assert (Hunique : uniqueNames (entitlements (tenant [bjensen] [])) = ["id"])
    by (vm_compute; reflexivity).
  assert (Hfind : findOne (entitlements (tenant [bjensen] [])) "id" (VStr "entitlement-456")
                  = Ok (Some (1%nat, entitlementAt oneUser 1))) by (vm_compute; reflexivity).
  assert (Hloki : obj_get (entitlementAt oneUser 1) "$loki" = VNum 2)
    by (vm_compute; reflexivity).
  assert (Hfiled : idIndex (entitlements (tenant [bjensen] [])) !! 1%nat = Some 2)
    by (vm_compute; reflexivity).
  assert (Hentered : lokiMap (entitlements (tenant [bjensen] [])) !! ("id", 2)
                     = Some (VStr "entitlement-456")) by (vm_compute; reflexivity).
  assert (Hmeta : obj_get (entitlementAt oneUser 1) "meta"
                  = VObj [("revision", VNum 0); ("created", VNum loadTime);
                          ("version", VNum 0)]) by (vm_compute; reflexivity).
  split.
  { split; [apply configOf_lookup|]. split; [exact Hunique|]. split; [exact Hfind|].
    split; [exact Hloki|]. split; [exact Hfiled|]. split; [exact Hentered | exact Hmeta]. }
  destruct (modifyEntitlement_overwrites_defined_fields oneUser theTenant
              "entitlement-456" (tenant [bjensen] []) 1 (entitlementAt oneUser 1)
              [("displayName", VStr "")] _ 2 0 laterTime
              (configOf_lookup _ _) Hunique Hfind Hloki Hfiled Hentered Hmeta eq_refl)
    as (entitlement' & entitlements' & Hrun & _ & Hfields & Hother & Hmeta').
  exists entitlement'. split; [now rewrite Hrun|].
  split; [rewrite (Hfields "displayName") by (simpl; tauto); reflexivity|].
  split; [rewrite (Hfields "type") by (simpl; tauto); vm_compute; reflexivity|].
  split.
  { rewrite (Hother "id") by (simpl; intuition discriminate). vm_compute. reflexivity. }
  rewrite Hmeta'. reflexivity.
Defined.

(** alice created beside bjensen, and then both of them updated: neither
    update succeeds. *)
Lemma no_update_after_alice :
  reachable [bjensen] [] (snd afterAlice)
  /\ ids_of (usersOf (snd afterAlice)) = [VStr "u1"; VStr "id-9"]
  /\ (exists e,
         fst (modifyUser (snd afterAlice) theTenant "id-9" [("active", VBool false)]
                later laterTime) = Throw e)
  /\ (exists e,
         fst (modifyUser (snd afterAlice) theTenant "u1" [("active", VBool false)]
                later laterTime) = Throw e).
Proof.
  assert (Hreach : reachable [bjensen] [] (snd afterAlice)).
  { unfold reachable, afterAlice, oneUser. apply rtc_once. constructor. }
  split; [exact Hreach|]. split; [vm_compute; reflexivity|].
  destruct (no_update_of_a_user_or_group_succeeds [bjensen] [] (snd afterAlice) Hreach)
    as (_ & Husers & _).
  split; apply Husers.
Defined.

(** A patch of the stored bjensen, who holds two grants, whose second
    entry is null. *)
Lemma null_after_one_add_on_bjensen :
  (oneUser !! theTenant = Some (tenant [bjensen] [])
   /\ findOne (users (tenant [bjensen] [])) "id" (VStr "u1")
      = Ok (Some (0%nat, userAt oneUser 0))
   /\ grants_wf (userAt oneUser 0))
  /\ exists e user1,
       modifyUser oneUser theTenant "u1"
         [("entitlements",
           VArr [entryObj (mkEntry "add" "entitlement-456" VUndefined VUndefined VUndefined);
                 VNull;
                 entryObj (mkEntry "add" "entitlement-abc" VUndefined VUndefined VUndefined)])]
         later laterTime
       = (Throw e,
          <[theTenant := set_users (tenant [bjensen] [])
                           (rewrite_at (users (tenant [bjensen] [])) 0 user1)]> oneUser)
       /\ name e = "TypeError"
       /\ has_grant "entitlement-456" (grantsOf user1) = true
       /\ has_grant "entitlement-abc" (grantsOf user1) = false
       /\ obj_get user1 "meta" = obj_get (userAt oneUser 0) "meta".
Proof.
  assert (Hfind : findOne (users (tenant [bjensen] [])) "id" (VStr "u1")
                  = Ok (Some (0%nat, userAt oneUser 0))) by (vm_compute; reflexivity).
  assert (Hwf : grants_wf (userAt oneUser 0)).
  { split; [right; eexists; vm_compute; reflexivity|].
    vm_compute. repeat constructor. }
  split; [split; [apply configOf_lookup|]; split; [exact Hfind | exact Hwf]|].
  destruct (null_entry_aborts_the_patch oneUser theTenant "u1"
              (tenant [bjensen] []) 0 (userAt oneUser 0)
              [("entitlements",
                VArr [entryObj (mkEntry "add" "entitlement-456" VUndefined VUndefined
                                  VUndefined);
                      VNull;
                      entryObj (mkEntry "add" "entitlement-abc" VUndefined VUndefined
                                  VUndefined)])]
              [mkEntry "add" "entitlement-456" VUndefined VUndefined VUndefined]
              [entryObj (mkEntry "add" "entitlement-abc" VUndefined VUndefined VUndefined)]
              later laterTime (configOf_lookup _ _) Hfind Hwf eq_refl)
    as (e & user1 & Hrun & Hname & Hgrants & Hother).
  exists e, user1. split; [exact Hrun|]. split; [exact Hname|].
  rewrite Hgrants. split; [vm_compute; reflexivity|]. split; [vm_compute; reflexivity|].
  apply Hother. discriminate.
Defined.
Lemma assign_and_remove_for_user2 :
  ~ In "entitlement-123"
      (EntitlementsPlugin.listUserEntitlements EntitlementsPlugin.sampleAssignments "user2")
  /\ forall user,
       EntitlementsPlugin.listUserEntitlements
         (snd (EntitlementsPlugin.removeEntitlementFromUser
                 (snd (EntitlementsPlugin.assignEntitlementToUser
                         EntitlementsPlugin.sampleAssignments "user2" "entitlement-123"))
                 "user2" "entitlement-123")) user
       = EntitlementsPlugin.listUserEntitlements EntitlementsPlugin.sampleAssignments user.
Proof.
  assert (Hnot : ~ In "entitlement-123"
                     (EntitlementsPlugin.listUserEntitlements
                        EntitlementsPlugin.sampleAssignments "user2")).
  { change (~ In "entitlement-123" ["entitlement-456"]). intros [H | []]. discriminate. }
  split; [exact Hnot|].
  exact (proj2 (proj2 (assign_then_remove_restores_the_list
                         EntitlementsPlugin.sampleAssignments "user2" "entitlement-123"
                         Hnot))).
Defined.

(** The second sample entitlement given a new display name and an empty
    type. *)
Lemma empty_type_is_not_written :
  exists entitlement entitlement',
    find_index (has_id "entitlement-456") EntitlementsPlugin.sampleEntitlements
    = Some (1%nat, entitlement)
    /\ fst (EntitlementsPlugin.modifyEntitlement EntitlementsPlugin.sampleEntitlements
              "entitlement-456" [("displayName", VStr "Starter"); ("type", VStr "")])
       = Some entitlement'
    /\ obj_get entitlement' "displayName" = VStr "Starter"
    /\ obj_get entitlement' "type" = VStr "License".
Proof.
  destruct (class_modifyEntitlement_writes_truthy_fields
              EntitlementsPlugin.sampleEntitlements "entitlement-456"
              [("displayName", VStr "Starter"); ("type", VStr "")] 1
              [("id", VStr "entitlement-456"); ("displayName", VStr "Basic License");
               ("type", VStr "License");
               ("description", VStr "Basic license with limited features")] eq_refl)
    as (entitlement' & Hrun & Hfields & _).
  eexists _, entitlement'. split; [reflexivity|]. split; [now rewrite Hrun|].
  split; [apply (Hfields "displayName") | apply (Hfields "type")]; simpl; tauto.
Defined.

(** The operator gt on the sample entitlements of the class. *)
Lemma class_ignores_operator_gt :
  ~ In (default "" (operator (mkGetObj "type" (Some "gt") (VStr "License") None None None)))
      ["eq"; "ne"; "co"; "sw"; "ew"]
  /\ EntitlementsPlugin.getEntitlements EntitlementsPlugin.sampleEntitlements
       (mkGetObj "type" (Some "gt") (VStr "License") None None None)
     = Ok (mkQueryResult EntitlementsPlugin.sampleEntitlements 3).
Proof.
  assert (Hop : ~ In (default "" (operator (mkGetObj "type" (Some "gt") (VStr "License")
                                              None None None)))
                    ["eq"; "ne"; "co"; "sw"; "ew"]).
  { simpl. intros [H | [H | [H | [H | [H | []]]]]]; discriminate. }
  split; [exact Hop|].
  exact (class_filter_needs_all_three_parts EntitlementsPlugin.sampleEntitlements
           (mkGetObj "type" (Some "gt") (VStr "License") None None None)
           (or_intror (or_intror (or_intror Hop)))).
Defined.

(** One patch of four entries run by the class for u3 and by the store
    plugin on the stored mmiller. *)
Lemma patch_of_mmiller_agrees :
  grants_wf mmiller
  /\ List.NoDup (EntitlementsPlugin.listUserEntitlements
                   EntitlementsPlugin.sampleAssignments "u3")
  /\ granted_values (grantsOf mmiller)
     = map VStr (EntitlementsPlugin.listUserEntitlements
                   EntitlementsPlugin.sampleAssignments "u3")
  /\ exists user' userEntitlements',
       entitlementLoop mmiller
         (map entryObj
            [mkEntry "add" "entitlement-123" VUndefined VUndefined VUndefined;
             mkEntry "add" "entitlement-456" VUndefined VUndefined VUndefined;
             mkEntry "add" "entitlement-123" VUndefined VUndefined VUndefined;
             mkEntry "remove" "entitlement-123" VUndefined VUndefined VUndefined])
       = (Ok tt, user')
       /\ EntitlementsPlugin.assignLoop EntitlementsPlugin.sampleAssignments "u3"
            (map entryObj
               [mkEntry "add" "entitlement-123" VUndefined VUndefined VUndefined;
                mkEntry "add" "entitlement-456" VUndefined VUndefined VUndefined;
                mkEntry "add" "entitlement-123" VUndefined VUndefined VUndefined;
                mkEntry "remove" "entitlement-123" VUndefined VUndefined VUndefined])
          = (Ok tt, userEntitlements')
       /\ granted_values (grantsOf user')
          = map VStr (EntitlementsPlugin.listUserEntitlements userEntitlements' "u3").
Proof.
  assert (Hwf : grants_wf mmiller) by (split; [now left | constructor]).
  assert (Hnd : List.NoDup (EntitlementsPlugin.listUserEntitlements
                              EntitlementsPlugin.sampleAssignments "u3"))
    by (change (List.NoDup (@nil string)); constructor).
  split; [exact Hwf|]. split; [exact Hnd|]. split; [reflexivity|].
  destruct (class_and_store_patch_agree EntitlementsPlugin.sampleAssignments "u3" mmiller
              [mkEntry "add" "entitlement-123" VUndefined VUndefined VUndefined;
               mkEntry "add" "entitlement-456" VUndefined VUndefined VUndefined;
               mkEntry "add" "entitlement-123" VUndefined VUndefined VUndefined;
               mkEntry "remove" "entitlement-123" VUndefined VUndefined VUndefined]
              Hwf Hnd eq_refl) as (user' & ue' & Hstore & Hclass & Hvalues & _).
  exists user', ue'. auto.
Defined.
